(** * protohcl: decoding HCL bodies into protobuf messages, and back

    A shallow embedding of the Go package [protohcl]: the annotation
    resolver ([GetFieldElem]), the schema compiler ([bodySchema]), the type
    reconciler ([TypeConstraint], [autoTypeConstraintForField],
    [valuePhysicalConstraintForFieldKind], [ObjectTypeConstraintForMessageDesc]),
    the body decoder ([DecodeBody], [fillMessageFromContent]) and the
    reflector ([ObjectValueForMessage]).

    Conventions of the embedding:
    - a Go call either returns or panics: [outcome];
    - a Go [(T, error)] result is a sum [T + error];
    - a message is its descriptor together with a store from field numbers
      to values; [msg.Clear] deletes, [msg.Set] inserts;
    - Go maps are [gmap]s; where Go ranges over a map the model walks the
      keys in the order of [map_to_list];
    - descriptors are finite trees: a message type that contains itself is
      not representable. *)

From Stdlib Require Import ZArith QArith String Ascii List Lia.
From Stdlib.Strings Require Import Byte.
From stdpp Require Import base strings gmap list pretty sorting.

Set Warnings "-register-all".
Set Default Proof Using "Type".

(** ** Go runtime *)

(** A call returns a value or unwinds with a panic. *)
Inductive outcome (A : Type) : Type :=
  | Ok (a : A)
  | Panic (reason : string).
Arguments Ok {A} a.
Arguments Panic {A} reason.

Definition obind {A B : Type} (m : outcome A) (k : A → outcome B) : outcome B :=
  match m with
  | Ok a => k a
  | Panic r => Panic r
  end.

Notation "'let!' x ':=' m 'in' k" := (obind m (λ x, k))
  (at level 10, x pattern, m at level 100, k at level 200).

Definition returns {A : Type} (m : outcome A) : Prop := ∃ a, m = Ok a.

(** The double-quote character, for the output of the %q verb. *)
Definition dquote : string := String (ascii_of_nat 34) EmptyString.

(** [%q] of a string, which is [strconv.Quote]: the string in double
    quotes, with the quote and the backslash escaped by a backslash, the
    control characters written as their escapes (a letter where Go has
    one, two hexadecimal digits otherwise), and every other byte as it
    is. Bytes above 127 are taken to spell printable characters. *)
Definition backslash : string := String (ascii_of_nat 92) EmptyString.

Definition hexDigit (n : nat) : string :=
  match String.get n "0123456789abcdef" with
  | Some c => String c EmptyString
  | None => "0"
  end.

Definition quoteByte (c : ascii) : string :=
  let n := nat_of_ascii c in
  if (n =? 34)%nat then backslash +:+ dquote
  else if (n =? 92)%nat then backslash +:+ backslash
  else if (n =? 7)%nat then backslash +:+ "a"
  else if (n =? 8)%nat then backslash +:+ "b"
  else if (n =? 12)%nat then backslash +:+ "f"
  else if (n =? 10)%nat then backslash +:+ "n"
  else if (n =? 13)%nat then backslash +:+ "r"
  else if (n =? 9)%nat then backslash +:+ "t"
  else if (n =? 11)%nat then backslash +:+ "v"
  else if (n <? 32)%nat || (n =? 127)%nat then
    backslash +:+ "x" +:+ hexDigit (n / 16) +:+ hexDigit (n mod 16)
  else String c EmptyString.

Fixpoint quoteBytes (s : string) : string :=
  match s with
  | EmptyString => EmptyString
  | String c rest => quoteByte c +:+ quoteBytes rest
  end.

Definition fmt_q (s : string) : string := dquote +:+ quoteBytes s +:+ dquote.

(** [%d] of an integer. *)
Definition fmt_d (z : Z) : string := pretty z.

(** [strings.Contains]. *)
Definition contains (s sub : string) : bool :=
  match index 0 sub s with
  | Some _ => true
  | None => false
  end.

(** Fixed-width integer conversions, wrap-around written out. *)
Definition wrap_signed (bits : Z) (z : Z) : Z :=
  (z + 2 ^ (bits - 1)) mod 2 ^ bits - 2 ^ (bits - 1).
Definition wrap_unsigned (bits : Z) (z : Z) : Z := z mod 2 ^ bits.

Definition MinInt32 : Z := - 2 ^ 31.
Definition MaxInt32 : Z := 2 ^ 31 - 1.
Definition MinInt64 : Z := - 2 ^ 63.
Definition MaxInt64 : Z := 2 ^ 63 - 1.
Definition MaxUint32 : Z := 2 ^ 32 - 1.
Definition MaxUint64 : Z := 2 ^ 64 - 1.

(** ** math/big *)

(** The value held by a big.Float: a rational or an infinity. *)
Inductive BigFloat : Type :=
  | Finite (q : Q)
  | Inf (neg : bool).

(** big.Float.IsInt. *)
Definition BigFloat_IsInt (bf : BigFloat) : bool :=
  match bf with
  | Finite q => (Qnum q mod Zpos (Qden q) =? 0)%Z
  | Inf _ => false
  end.

(** big.Float.Int(nil): truncation towards zero; nil for an infinity. *)
Definition BigFloat_Int (bf : BigFloat) : option Z :=
  match bf with
  | Finite q => Some (Z.quot (Qnum q) (Zpos (Qden q)))
  | Inf _ => None
  end.

(** big.Int.Int64 and big.Int.Uint64; a nil receiver is dereferenced. *)
Definition BigInt_Int64 (bi : option Z) : outcome Z :=
  match bi with
  | Some z =>
      let v := wrap_signed 64 (wrap_unsigned 64 (Z.abs z)) in
      Ok (if (z <? 0)%Z then wrap_signed 64 (- v) else v)
  | None => Panic "invalid memory address or nil pointer dereference"
  end.

Definition BigInt_Uint64 (bi : option Z) : outcome Z :=
  match bi with
  | Some z => Ok (wrap_unsigned 64 (Z.abs z))
  | None => Panic "invalid memory address or nil pointer dereference"
  end.

(** ** protoreflect: descriptors *)

Inductive Kind : Type :=
  | BoolKind | EnumKind
  | Int32Kind | Sint32Kind | Uint32Kind
  | Int64Kind | Sint64Kind | Uint64Kind
  | Sfixed32Kind | Fixed32Kind | FloatKind
  | Sfixed64Kind | Fixed64Kind | DoubleKind
  | StringKind | BytesKind | MessageKind | GroupKind.

#[global] Instance Kind_eq_dec : EqDecision Kind.
Proof. solve_decision. Defined.

Definition Kind_String (k : Kind) : string :=
  match k with
  | BoolKind => "bool" | EnumKind => "enum"
  | Int32Kind => "int32" | Sint32Kind => "sint32" | Uint32Kind => "uint32"
  | Int64Kind => "int64" | Sint64Kind => "sint64" | Uint64Kind => "uint64"
  | Sfixed32Kind => "sfixed32" | Fixed32Kind => "fixed32" | FloatKind => "float"
  | Sfixed64Kind => "sfixed64" | Fixed64Kind => "fixed64" | DoubleKind => "double"
  | StringKind => "string" | BytesKind => "bytes"
  | MessageKind => "message" | GroupKind => "group"
  end.

Inductive Cardinality : Type := Optional | Required | Repeated.

#[global] Instance Cardinality_eq_dec : EqDecision Cardinality.
Proof. solve_decision. Defined.

(** *** protohclext: the annotation payloads of hcl.proto *)

Inductive Attribute_RawMode : Type :=
  | Attribute_NOT_RAW
  | Attribute_MESSAGEPACK
  | Attribute_JSON
  | Attribute_RawMode_other (n : Z).

#[global] Instance Attribute_RawMode_eq_dec : EqDecision Attribute_RawMode.
Proof. solve_decision. Defined.

Definition Attribute_RawMode_String (m : Attribute_RawMode) : string :=
  match m with
  | Attribute_NOT_RAW => "NOT_RAW"
  | Attribute_MESSAGEPACK => "MESSAGEPACK"
  | Attribute_JSON => "JSON"
  | Attribute_RawMode_other n => fmt_d n
  end.

Inductive NestedBlock_CollectionKind : Type :=
  | NestedBlock_AUTO
  | NestedBlock_TUPLE
  | NestedBlock_LIST
  | NestedBlock_SET
  | NestedBlock_CollectionKind_other (n : Z).

#[global] Instance NestedBlock_CollectionKind_eq_dec : EqDecision NestedBlock_CollectionKind.
Proof. solve_decision. Defined.

Definition NestedBlock_CollectionKind_String (k : NestedBlock_CollectionKind) : string :=
  match k with
  | NestedBlock_AUTO => "AUTO"
  | NestedBlock_TUPLE => "TUPLE"
  | NestedBlock_LIST => "LIST"
  | NestedBlock_SET => "SET"
  | NestedBlock_CollectionKind_other n => fmt_d n
  end.

(** message Attribute *)
Record Attribute : Type := MkAttribute {
  Attribute_Name : string;
  Attribute_Required : bool;
  Attribute_Type : string;
  Attribute_Raw : Attribute_RawMode
}.

(** message NestedBlock *)
Record NestedBlock : Type := MkNestedBlock {
  NestedBlock_TypeName : string;
  NestedBlock_Kind : NestedBlock_CollectionKind
}.

(** message BlockLabel *)
Record BlockLabel : Type := MkBlockLabel {
  BlockLabel_Name : string
}.

(** The four extensions of google.protobuf.FieldOptions; an unset
    message-typed extension reads as a nil pointer. *)
Record FieldOptions : Type := MkFieldOptions {
  E_Attr : option Attribute;
  E_Block : option NestedBlock;
  E_Flatten : bool;
  E_Label : option BlockLabel
}.

Record OneofDescriptor : Type := MkOneof {
  Oneof_FullName : string;
  Oneof_IsSynthetic : bool
}.

(** A field is a scalar, a (group or) message, or a map whose synthetic
    entry message has a key field and a value field. *)
Inductive FieldDescriptor : Type :=
  MkField (full_name : string) (number : Z) (cardinality : Cardinality)
          (type : FieldType) (options : option FieldOptions)
with FieldType : Type :=
  | ScalarType (k : Kind)
  | MessageType (group : bool) (m : MessageDescriptor)
  | MapEntryType (key value : FieldDescriptor)
with MessageDescriptor : Type :=
  MkMessage (full_name : string) (oneofs : list OneofDescriptor)
            (fields : list FieldDescriptor).

Definition Field_FullName (f : FieldDescriptor) : string :=
  let 'MkField n _ _ _ _ := f in n.
Definition Field_Number (f : FieldDescriptor) : Z :=
  let 'MkField _ n _ _ _ := f in n.
Definition Field_Type (f : FieldDescriptor) : FieldType :=
  let 'MkField _ _ _ t _ := f in t.
Definition Field_Options (f : FieldDescriptor) : option FieldOptions :=
  let 'MkField _ _ _ _ o := f in o.

Definition Message_FullName (m : MessageDescriptor) : string :=
  let 'MkMessage n _ _ := m in n.
Definition Message_Oneofs (m : MessageDescriptor) : list OneofDescriptor :=
  let 'MkMessage _ o _ := m in o.
Definition Message_Fields (m : MessageDescriptor) : list FieldDescriptor :=
  let 'MkMessage _ _ f := m in f.

(** [fd.IsMap()], [fd.Cardinality()], [fd.IsList()], [fd.Kind()]. *)
Definition Field_IsMap (f : FieldDescriptor) : bool :=
  match Field_Type f with
  | MapEntryType _ _ => true
  | _ => false
  end.

Definition Field_Cardinality (f : FieldDescriptor) : Cardinality :=
  match f with
  | MkField _ _ _ (MapEntryType _ _) _ => Repeated
  | MkField _ _ c _ _ => c
  end.

Definition Field_IsList (f : FieldDescriptor) : bool :=
  bool_decide (Field_Cardinality f = Repeated) && negb (Field_IsMap f).

Definition Field_Kind (f : FieldDescriptor) : Kind :=
  match Field_Type f with
  | ScalarType k => k
  | MessageType false _ => MessageKind
  | MessageType true _ => GroupKind
  | MapEntryType _ _ => MessageKind
  end.

(** [fd.MapKey()] and [fd.MapValue()]: nil unless the field is a map. *)
Definition Field_MapKey (f : FieldDescriptor) : option FieldDescriptor :=
  match Field_Type f with
  | MapEntryType k _ => Some k
  | _ => None
  end.

Definition Field_MapValue (f : FieldDescriptor) : option FieldDescriptor :=
  match Field_Type f with
  | MapEntryType _ v => Some v
  | _ => None
  end.

(** [fd.Message()]: the message type of a message or group field, the
    synthetic entry message of a map field, nil for a scalar. *)
Definition Field_Message (f : FieldDescriptor) : option MessageDescriptor :=
  match Field_Type f with
  | ScalarType _ => None
  | MessageType _ m => Some m
  | MapEntryType k v => Some (MkMessage (Field_FullName f +:+ "Entry") [] [k; v])
  end.

(** [FullName.IsValid]: dot-separated identifiers, each a letter or
    underscore followed by letters, digits and underscores. *)
Definition isLetter (c : ascii) : bool :=
  let n := nat_of_ascii c in
  (n =? 95)%nat || ((97 <=? n)%nat && (n <=? 122)%nat) || ((65 <=? n)%nat && (n <=? 90)%nat).

Definition isLetterDigit (c : ascii) : bool :=
  let n := nat_of_ascii c in
  isLetter c || ((48 <=? n)%nat && (n <=? 57)%nat).

Fixpoint consumeFullName (at_start : bool) (s : string) : bool :=
  match s with
  | EmptyString => negb at_start
  | String c rest =>
      if at_start then isLetter c && consumeFullName false rest
      else if isLetterDigit c then consumeFullName false rest
      else if (nat_of_ascii c =? 46)%nat then consumeFullName true rest
      else false
  end.

Definition FullName_IsValid (n : string) : bool := consumeFullName true n.

(** ** hcl: positions, ranges, diagnostics *)

Record Pos : Type := MkPos { Pos_Line : Z; Pos_Column : Z; Pos_Byte : Z }.

Record Range : Type := MkRange {
  Range_Filename : string;
  Range_Start : Pos;
  Range_End : Pos
}.

(** [Range.String]. *)
Definition Range_String (r : Range) : string :=
  if (Pos_Line (Range_Start r) =? Pos_Line (Range_End r))%Z then
    Range_Filename r +:+ ":" +:+ fmt_d (Pos_Line (Range_Start r)) +:+ ","
      +:+ fmt_d (Pos_Column (Range_Start r)) +:+ "-" +:+ fmt_d (Pos_Column (Range_End r))
  else
    Range_Filename r +:+ ":" +:+ fmt_d (Pos_Line (Range_Start r)) +:+ ","
      +:+ fmt_d (Pos_Column (Range_Start r)) +:+ "-" +:+ fmt_d (Pos_Line (Range_End r))
      +:+ "," +:+ fmt_d (Pos_Column (Range_End r)).

(** [hcl.RangeBetween]. *)
Definition RangeBetween (a b : Range) : Range :=
  MkRange (Range_Filename a) (Range_Start a) (Range_End b).

Inductive DiagnosticSeverity : Type := DiagError | DiagWarning.

(** The expression and evaluation-context handles of a diagnostic are
    carried for rendering only and are left out. *)
Record Diagnostic : Type := MkDiagnostic {
  Severity : DiagnosticSeverity;
  Summary : string;
  Detail : string;
  Subject : option Range;
  Context : option Range
}.

Notation Diagnostics := (list Diagnostic).

Definition isError (d : Diagnostic) : bool :=
  match Severity d with
  | DiagError => true
  | DiagWarning => false
  end.

(** [Diagnostics.HasErrors]. *)
Definition HasErrors (diags : Diagnostics) : bool := existsb isError diags.

(** ** schemaError *)

(** [Err] holds the message of the wrapped error. *)
Record schemaError : Type := MkSchemaError {
  Decl : string;
  Err : string
}.

Definition schemaErrorf (decl : string) (message : string) : schemaError :=
  MkSchemaError decl message.

Definition schemaError_Error (err : schemaError) : string :=
  if negb (String.eqb (Decl err) EmptyString) && FullName_IsValid (Decl err) then
    "unsupported protobuf schema: " +:+ Err err
  else
    "unsupported protobuf schema in " +:+ Decl err +:+ ": " +:+ Err err.

Definition schemaError_Diagnostic (err : schemaError) : Diagnostic :=
  {| Severity := DiagError;
     Summary := "Invalid configuration schema";
     Detail := "Invalid HCL annotations in protobuf schema for " +:+ Decl err +:+ ": "
               +:+ Err err +:+ "." +:+ String (ascii_of_nat 10) (String (ascii_of_nat 10)
               "This is a bug in the component that defined this schema, and not an error in the given configuration.");
     Subject := None;
     Context := None |}.

(** [schemaErrorDiagnostic]: every error the decoder passes here is a
    [schemaError]. *)
Definition schemaErrorDiagnostic (err : schemaError) : Diagnostic :=
  schemaError_Diagnostic err.

(** ** FieldElem: what a field is annotated with *)

Record FieldAttribute : Type := MkFieldAttribute {
  Name : string;
  Required_ : bool;
  TypeExprString : string;
  RawMode : Attribute_RawMode;
  TargetField : FieldDescriptor
}.

Record FieldNestedBlockType : Type := MkFieldNestedBlockType {
  TypeName : string;
  Nested : MessageDescriptor;
  Repeated_ : bool;
  CollectionKind : NestedBlock_CollectionKind
}.

Inductive FieldElem : Type :=
  | ElemAttribute (elem : FieldAttribute)
  | ElemNestedBlockType (elem : FieldNestedBlockType)
  | ElemFlattened (nested : MessageDescriptor)
  | ElemBlockLabel (name : string).

(** [opts != nil && opts.Name != ""] for each of the three named payloads. *)
Definition attrSet (o : option Attribute) : bool :=
  match o with
  | Some a => negb (String.eqb (Attribute_Name a) EmptyString)
  | None => false
  end.

Definition blockSet (o : option NestedBlock) : bool :=
  match o with
  | Some b => negb (String.eqb (NestedBlock_TypeName b) EmptyString)
  | None => false
  end.

Definition labelSet (o : option BlockLabel) : bool :=
  match o with
  | Some l => negb (String.eqb (BlockLabel_Name l) EmptyString)
  | None => false
  end.

(** [attrOpts.Name] read through a pointer that may be nil. *)
Definition derefAttrName (o : option Attribute) : outcome string :=
  match o with
  | Some a => Ok (Attribute_Name a)
  | None => Panic "invalid memory address or nil pointer dereference"
  end.

Definition labelName (o : option BlockLabel) : string :=
  match o with
  | Some l => BlockLabel_Name l
  | None => EmptyString
  end.

(** The checks of the attribute case, after the three exclusion checks. *)
Definition checkAttribute (field : FieldDescriptor) (a : Attribute)
    : option FieldElem + schemaError :=
  let mapKeyNotString :=
    match Field_MapKey field with
    | Some k => negb (bool_decide (Field_Kind k = StringKind))
    | None => false
    end in
  if Field_IsMap field && mapKeyNotString then
    inr (schemaErrorf (Field_FullName field) "HCL only supports maps with string keys")
  else
    let ok := inl (Some (ElemAttribute
      {| Name := Attribute_Name a;
         Required_ := Attribute_Required a;
         TypeExprString := Attribute_Type a;
         RawMode := Attribute_Raw a;
         TargetField := field |})) in
    if negb (bool_decide (Attribute_Raw a = Attribute_NOT_RAW)) then
      if Field_IsList field then
        inr (schemaErrorf (Field_FullName field) "cannot use raw mode with 'repeated' field")
      else if Field_IsMap field then
        inr (schemaErrorf (Field_FullName field) "cannot use raw mode with map field")
      else if negb (bool_decide (Field_Kind field = BytesKind)) then
        inr (schemaErrorf (Field_FullName field) "raw mode is allowed only for 'bytes' fields")
      else if String.eqb (Attribute_Type a) EmptyString then
        inr (schemaErrorf (Field_FullName field) "must specify (hcl.attr).type for this raw-mode field")
      else ok
    else if bool_decide (Field_Kind field = BytesKind) then
      inr (schemaErrorf (Field_FullName field) "'bytes' fields must have raw mode enabled")
    else ok.

(** The checks of the nested-block case, after the two exclusion checks.
    Past the kind and map checks the field is a plain message field and
    [field.Message()] is its message type. *)
Definition checkNestedBlock (field : FieldDescriptor) (b : NestedBlock)
    : option FieldElem + schemaError :=
  if negb (bool_decide (Field_Kind field = MessageKind)) then
    inr (schemaErrorf (Field_FullName field)
           ("field representing nested block must have message type, not "
            +:+ Kind_String (Field_Kind field)))
  else if Field_IsMap field then
    inr (schemaErrorf (Field_FullName field) "field representing nested block must not be a map")
  else
    match Field_Type field with
    | MessageType _ m =>
        let collectionKind := NestedBlock_Kind b in
        if Field_IsList field then
          let collectionKind :=
            if bool_decide (collectionKind = NestedBlock_AUTO) then NestedBlock_TUPLE
            else collectionKind in
          if negb (bool_decide (collectionKind = NestedBlock_TUPLE))
             && negb (bool_decide (collectionKind = NestedBlock_LIST))
             && negb (bool_decide (collectionKind = NestedBlock_SET)) then
            inr (schemaErrorf (Field_FullName field)
                   ("unsupported collection kind " +:+ NestedBlock_CollectionKind_String collectionKind))
          else
            inl (Some (ElemNestedBlockType
              {| TypeName := NestedBlock_TypeName b; Nested := m;
                 Repeated_ := Field_IsList field; CollectionKind := collectionKind |}))
        else if negb (bool_decide (collectionKind = NestedBlock_AUTO)) then
          inr (schemaErrorf (Field_FullName field)
                 ("only repeated fields can have explicit block collection mode "
                  +:+ NestedBlock_CollectionKind_String collectionKind))
        else
          inl (Some (ElemNestedBlockType
            {| TypeName := NestedBlock_TypeName b; Nested := m;
               Repeated_ := Field_IsList field; CollectionKind := collectionKind |}))
    | _ => inl None
    end.

(** The checks of the flatten case, after the exclusion check. *)
Definition checkFlatten (field : FieldDescriptor) : option FieldElem + schemaError :=
  if negb (bool_decide (Field_Kind field = MessageKind)) then
    inr (schemaErrorf (Field_FullName field)
           ("field to be flattened must have message type, not "
            +:+ Kind_String (Field_Kind field)))
  else if bool_decide (Field_Cardinality field = Repeated) then
    inr (schemaErrorf (Field_FullName field) "field to be flattened must not be 'repeated'")
  else
    match Field_Type field with
    | MessageType _ m => inl (Some (ElemFlattened m))
    | _ => inl None
    end.

(** [GetFieldElem]: the element a field is annotated with, nil (here
    [None]) when it carries no annotation, or a schema error. The two
    messages of the nested-block case read [attrOpts.Name] as the source
    does, through a pointer that is nil when the attribute payload is
    absent. *)
Definition GetFieldElem (field : FieldDescriptor) : outcome (option FieldElem + schemaError) :=
  match Field_Options field with
  | None => Ok (inl None)
  | Some opts =>
      let attrOpts := E_Attr opts in
      let blockOpts := E_Block opts in
      let flatten := E_Flatten opts in
      let labelOpts := E_Label opts in
      if attrSet attrOpts then
        match attrOpts with
        | Some a =>
            if blockSet blockOpts then
              Ok (inr (schemaErrorf (Field_FullName field)
                ("cannot be both attribute " +:+ fmt_q (Attribute_Name a)
                 +:+ " and nested block type "
                 +:+ fmt_q (from_option NestedBlock_TypeName EmptyString blockOpts))))
            else if flatten then
              Ok (inr (schemaErrorf (Field_FullName field)
                ("cannot be attribute " +:+ fmt_q (Attribute_Name a)
                 +:+ " and also flatten into the current body")))
            else if labelSet labelOpts then
              Ok (inr (schemaErrorf (Field_FullName field)
                ("cannot be both attribute " +:+ fmt_q (Attribute_Name a)
                 +:+ " and block label " +:+ fmt_q (labelName labelOpts))))
            else Ok (checkAttribute field a)
        | None => Ok (inl None)
        end
      else if blockSet blockOpts then
        match blockOpts with
        | Some b =>
            if flatten then
              let! attrName := derefAttrName attrOpts in
              Ok (inr (schemaErrorf (Field_FullName field)
                ("cannot be nested block type " +:+ fmt_q attrName
                 +:+ " and also flatten into the current body")))
            else if labelSet labelOpts then
              let! attrName := derefAttrName attrOpts in
              Ok (inr (schemaErrorf (Field_FullName field)
                ("cannot be both nested block type " +:+ fmt_q attrName
                 +:+ " and block label " +:+ fmt_q (labelName labelOpts))))
            else Ok (checkNestedBlock field b)
        | None => Ok (inl None)
        end
      else if flatten then
        if labelSet labelOpts then
          Ok (inr (schemaErrorf (Field_FullName field)
            ("cannot be block label " +:+ fmt_q (labelName labelOpts)
             +:+ " and also flatten into the current body")))
        else Ok (checkFlatten field)
      else if labelSet labelOpts then
        Ok (inl (Some (ElemBlockLabel (labelName labelOpts))))
      else Ok (inl None)
  end.

(** ** cty: types and values *)

(** An object type lists its attributes in the order of [map_to_list], so
    that two object types over the same map are the same term. *)
Inductive CtyType : Type :=
  | cty_NilType
  | cty_DynamicPseudoType
  | cty_Bool
  | cty_Number
  | cty_String
  | cty_List (ety : CtyType)
  | cty_Set (ety : CtyType)
  | cty_Map (ety : CtyType)
  | cty_Tuple (etys : list CtyType)
  | cty_ObjectOf (atys : list (string * CtyType)).

(** [cty.Object]. *)
Definition cty_Object (atys : gmap string CtyType) : CtyType :=
  cty_ObjectOf (map_to_list atys).

Fixpoint CtyType_eqb (a b : CtyType) {struct a} : bool :=
  match a, b with
  | cty_NilType, cty_NilType => true
  | cty_DynamicPseudoType, cty_DynamicPseudoType => true
  | cty_Bool, cty_Bool => true
  | cty_Number, cty_Number => true
  | cty_String, cty_String => true
  | cty_List x, cty_List y => CtyType_eqb x y
  | cty_Set x, cty_Set y => CtyType_eqb x y
  | cty_Map x, cty_Map y => CtyType_eqb x y
  | cty_Tuple xs, cty_Tuple ys =>
      (fix all2 (xs ys : list CtyType) : bool :=
         match xs, ys with
         | [], [] => true
         | x :: xs', y :: ys' => CtyType_eqb x y && all2 xs' ys'
         | _, _ => false
         end) xs ys
  | cty_ObjectOf xs, cty_ObjectOf ys =>
      (fix all2 (xs ys : list (string * CtyType)) : bool :=
         match xs, ys with
         | [], [] => true
         | (k, x) :: xs', (k', y) :: ys' => String.eqb k k' && CtyType_eqb x y && all2 xs' ys'
         | _, _ => false
         end) xs ys
  | _, _ => false
  end.

(** [Type.Equals]. *)
Definition Type_Equals (a b : CtyType) : bool := CtyType_eqb a b.

(** [ty == cty.NilType] and [ty == cty.DynamicPseudoType]. *)
Definition isNilType (ty : CtyType) : bool :=
  match ty with cty_NilType => true | _ => false end.
Definition isDynamicPseudoType (ty : CtyType) : bool :=
  match ty with cty_DynamicPseudoType => true | _ => false end.

Definition IsListType (ty : CtyType) : bool :=
  match ty with cty_List _ => true | _ => false end.
Definition IsSetType (ty : CtyType) : bool :=
  match ty with cty_Set _ => true | _ => false end.
Definition IsMapType (ty : CtyType) : bool :=
  match ty with cty_Map _ => true | _ => false end.
Definition IsTupleType (ty : CtyType) : bool :=
  match ty with cty_Tuple _ => true | _ => false end.
Definition IsObjectType (ty : CtyType) : bool :=
  match ty with cty_ObjectOf _ => true | _ => false end.

(** [Type.HasDynamicTypes]: the type is the dynamic pseudo-type or has it
    among its descendants. *)
Fixpoint HasDynamicTypes (ty : CtyType) : bool :=
  match ty with
  | cty_DynamicPseudoType => true
  | cty_List ety | cty_Set ety | cty_Map ety => HasDynamicTypes ety
  | cty_Tuple etys => existsb HasDynamicTypes etys
  | cty_ObjectOf atys => existsb (λ kv, HasDynamicTypes (snd kv)) atys
  | _ => false
  end.

Inductive Value : Type :=
  | NilVal
  | UnknownVal (ty : CtyType)
  | NullVal (ty : CtyType)
  | BoolVal (b : bool)
  | NumberVal (n : BigFloat)
  | StringVal (s : string)
  | ListValOf (ety : CtyType) (elems : list Value)
  | SetValOf (ety : CtyType) (elems : list Value)
  | MapValOf (ety : CtyType) (elems : list (string * Value))
  | TupleVal (elems : list Value)
  | ObjectValOf (attrs : list (string * Value)).

(** [Value.Type]. *)
Fixpoint Value_Type (v : Value) : CtyType :=
  match v with
  | NilVal => cty_NilType
  | UnknownVal ty | NullVal ty => ty
  | BoolVal _ => cty_Bool
  | NumberVal _ => cty_Number
  | StringVal _ => cty_String
  | ListValOf ety _ => cty_List ety
  | SetValOf ety _ => cty_Set ety
  | MapValOf ety _ => cty_Map ety
  | TupleVal elems => cty_Tuple (map Value_Type elems)
  | ObjectValOf attrs => cty_ObjectOf (map (λ kv, (fst kv, Value_Type (snd kv))) attrs)
  end.

Definition IsNull (v : Value) : bool :=
  match v with NullVal _ | NilVal => true | _ => false end.
Definition IsKnown (v : Value) : bool :=
  match v with UnknownVal _ => false | _ => true end.

(** [cty.DynamicVal], [cty.EmptyTupleVal], [cty.EmptyObjectVal]. *)
Definition DynamicVal : Value := UnknownVal cty_DynamicPseudoType.
Definition EmptyTupleVal : Value := TupleVal [].
Definition EmptyObjectVal : Value := ObjectValOf [].

(** [cty.ObjectVal]. *)
Definition ObjectVal (attrs : gmap string Value) : Value :=
  ObjectValOf (map_to_list attrs).

(** [cty.NumberIntVal], [cty.NumberUIntVal], [cty.NumberFloatVal]. *)
Definition NumberIntVal (z : Z) : Value := NumberVal (Finite (inject_Z z)).
Definition NumberUIntVal (z : Z) : Value := NumberVal (Finite (inject_Z z)).
Definition NumberFloatVal (f : BigFloat) : Value := NumberVal f.

(** The element type [cty.ListVal] and [cty.SetVal] settle on: the first
    type that is not dynamic; a later element of another type, itself not
    dynamic, makes them panic. *)
Fixpoint unifyElementTypes (elementType : CtyType) (vals : list Value) : option CtyType :=
  match vals with
  | [] => Some elementType
  | val :: rest =>
      if isDynamicPseudoType elementType then unifyElementTypes (Value_Type val) rest
      else if negb (isDynamicPseudoType (Value_Type val))
              && negb (Type_Equals elementType (Value_Type val)) then None
      else unifyElementTypes elementType rest
  end.

(** [cty.ListVal]. *)
Definition ListVal (vals : list Value) : outcome Value :=
  match vals with
  | [] => Panic "must not call ListVal with empty slice"
  | _ =>
      match unifyElementTypes cty_DynamicPseudoType vals with
      | Some ety => Ok (ListValOf ety vals)
      | None => Panic "inconsistent list element types"
      end
  end.

(** [cty.ListValEmpty] and [cty.SetValEmpty]. *)
Definition ListValEmpty (ety : CtyType) : Value := ListValOf ety [].
Definition SetValEmpty (ety : CtyType) : Value := SetValOf ety [].

(** [Value.True], [Value.AsString], [Value.AsBigFloat]: each panics on a
    value of another type, on null and on unknown. *)
Definition Value_True (v : Value) : outcome bool :=
  match v with
  | BoolVal b => Ok b
  | _ => Panic "not a known, non-null bool"
  end.

Definition Value_AsString (v : Value) : outcome string :=
  match v with
  | StringVal s => Ok s
  | _ => Panic "not a known, non-null string"
  end.

Definition Value_AsBigFloat (v : Value) : outcome BigFloat :=
  match v with
  | NumberVal n => Ok n
  | _ => Panic "not a known, non-null number"
  end.

(** [Value.AsValueSlice]: the elements of a known list, set or tuple; a
    value of length zero gives nil before any element is looked at. *)
Definition Value_AsValueSlice (v : Value) : outcome (list Value) :=
  match v with
  | ListValOf _ elems | SetValOf _ elems | TupleVal elems => Ok elems
  | UnknownVal (cty_Tuple []) | NullVal (cty_Tuple []) => Ok []
  | _ => Panic "value cannot be iterated"
  end.

(** [Value.AsValueMap]: the elements of a known map or object. *)
Definition Value_AsValueMap (v : Value) : outcome (gmap string Value) :=
  match v with
  | MapValOf _ elems | ObjectValOf elems => Ok (list_to_map elems)
  | UnknownVal (cty_ObjectOf []) | NullVal (cty_ObjectOf []) => Ok ∅
  | _ => Panic "value cannot be iterated"
  end.

(** [cty.Path] and the errors that carry one. *)
Inductive PathStep : Type :=
  | GetAttrStep (name : string)
  | IndexStep (key : Value).

Notation Path := (list PathStep).

(** The errors of the reflector: a schema error, or a [cty.PathError]. *)
Inductive error : Type :=
  | ErrSchema (e : schemaError)
  | ErrPath (path : Path) (message : string).

(** ** hcl: expressions, schemas, bodies *)

Record EvalContext : Type := MkEvalContext {
  Variables : gmap string Value
}.

(** An expression is what the decoder asks of it: its value in a context
    (a nil context included) and its source range. *)
Record Expression : Type := MkExpression {
  Expr_Value : option EvalContext → Value * Diagnostics;
  Expr_Range : Range
}.

Record HclAttribute : Type := MkHclAttribute {
  HclAttribute_Name : string;
  HclAttribute_Expr : Expression;
  HclAttribute_Range : Range;
  HclAttribute_NameRange : Range
}.

Record AttributeSchema : Type := MkAttributeSchema {
  AttributeSchema_Name : string;
  AttributeSchema_Required : bool
}.

Record BlockHeaderSchema : Type := MkBlockHeaderSchema {
  BlockHeaderSchema_Type : string;
  BlockHeaderSchema_LabelNames : list string
}.

Record BodySchema : Type := MkBodySchema {
  Schema_Attributes : list AttributeSchema;
  Schema_Blocks : list BlockHeaderSchema
}.

(** [hcl.Body] is an interface: a body is whatever answers [Content] (the
    schema pointer may be nil) and [MissingItemRange]. *)
Inductive Body : Type :=
  MkBody (content : option BodySchema → outcome (BodyContent * Diagnostics))
         (missingItemRange : Range)
with BodyContent : Type :=
  MkBodyContent (attributes : gmap string HclAttribute) (blocks : list Block)
with Block : Type :=
  MkBlock (type : string) (labels : list string) (body : Body)
          (defRange typeRange : Range).

Definition Body_Content (b : Body) : option BodySchema → outcome (BodyContent * Diagnostics) :=
  let 'MkBody c _ := b in c.
Definition Body_MissingItemRange (b : Body) : Range :=
  let 'MkBody _ r := b in r.
Definition Content_Attributes (c : BodyContent) : gmap string HclAttribute :=
  let 'MkBodyContent a _ := c in a.
Definition Content_Blocks (c : BodyContent) : list Block :=
  let 'MkBodyContent _ b := c in b.
Definition Block_Type (b : Block) : string := let 'MkBlock t _ _ _ _ := b in t.
Definition Block_Labels (b : Block) : list string := let 'MkBlock _ l _ _ _ := b in l.
Definition Block_Body (b : Block) : Body := let 'MkBlock _ _ y _ _ := b in y.
Definition Block_DefRange (b : Block) : Range := let 'MkBlock _ _ _ r _ := b in r.
Definition Block_TypeRange (b : Block) : Range := let 'MkBlock _ _ _ _ r := b in r.

(** ** The collaborators outside the package

    The type-expression parser, cty's conversion and its two wire codecs
    are used through their signatures only. *)
Class Host : Type := MkHost {
  SyntaxExpr : Type;
  hclsyntax_ParseExpression : string → SyntaxExpr * Diagnostics;
  typeexpr_TypeConstraint : SyntaxExpr → CtyType * Diagnostics;
  convert_Convert : Value → CtyType → Value + string;
  ctyjson_Marshal : Value → CtyType → list byte + string;
  ctyjson_Unmarshal : list byte → CtyType → Value + string;
  ctymsgpack_Marshal : Value → CtyType → list byte + string;
  ctymsgpack_Unmarshal : list byte → CtyType → Value + string;
  Type_FriendlyName : CtyType → string;
  cty_SetVal : list Value → outcome Value
}.

(** ** protoreflect: values and messages *)

Inductive MapKey : Type :=
  | MapKeyString (s : string)
  | MapKeyInt (z : Z)
  | MapKeyBool (b : bool).

(** A [protoreflect.Value] by the Go type it holds. A message value is
    its store; its descriptor is the message type of the field it is
    read from. *)
Inductive ProtoValue : Type :=
  | PVInvalid
  | PVBool (b : bool)
  | PVInt32 (z : Z)
  | PVInt64 (z : Z)
  | PVUint32 (z : Z)
  | PVUint64 (z : Z)
  | PVFloat32 (f : BigFloat)
  | PVFloat64 (f : BigFloat)
  | PVString (s : string)
  | PVBytes (b : list byte)
  | PVEnum (n : Z)
  | PVMessage (fields : gmap Z ProtoValue)
  | PVList (elems : list ProtoValue)
  | PVMap (entries : list (MapKey * ProtoValue)).

(** The store of a message: field number to value; an absent number is
    a cleared field. *)
Notation Message := (gmap Z ProtoValue).

(** [newMessageMaybeDynamic]: a new message has every field cleared. *)
Definition newMessageMaybeDynamic (desc : MessageDescriptor) : Message := ∅.

(** [msg.Clear] and [msg.Set]. [Message_Set] is the store alone: it is
    used where the source hands [Set] a value made for the field. *)
Definition Message_Clear (msg : Message) (field : FieldDescriptor) : Message :=
  delete (Field_Number field) msg.
Definition Message_Set (msg : Message) (field : FieldDescriptor) (v : ProtoValue) : Message :=
  <[Field_Number field := v]> msg.

(** What [Set] asks of its value: a list for a list field, a map for a
    map field, and otherwise the Go type of the kind of the field. *)
Definition valueFitsField (field : FieldDescriptor) (v : ProtoValue) : bool :=
  if Field_IsList field then match v with PVList _ => true | _ => false end
  else if Field_IsMap field then match v with PVMap _ => true | _ => false end
  else
    match Field_Kind field, v with
    | BoolKind, PVBool _ => true
    | EnumKind, PVEnum _ => true
    | (Int32Kind | Sint32Kind | Sfixed32Kind), PVInt32 _ => true
    | (Int64Kind | Sint64Kind | Sfixed64Kind), PVInt64 _ => true
    | (Uint32Kind | Fixed32Kind), PVUint32 _ => true
    | (Uint64Kind | Fixed64Kind), PVUint64 _ => true
    | FloatKind, PVFloat32 _ => true
    | DoubleKind, PVFloat64 _ => true
    | StringKind, PVString _ => true
    | BytesKind, PVBytes _ => true
    | (MessageKind | GroupKind), PVMessage _ => true
    | _, _ => false
    end.

(** [msg.Set] with a value whose type the source fixes whatever the
    field is: [Set] panics when the value does not fit the field. *)
Definition Message_SetChecked (msg : Message) (field : FieldDescriptor) (v : ProtoValue)
    : outcome Message :=
  if valueFitsField field v then Ok (Message_Set msg field v)
  else Panic "value does not fit the field".

(** [msg.NewField]: the zero value of a scalar, a new empty list, map or
    message. It depends on the field only. *)
Definition Message_NewField (field : FieldDescriptor) : ProtoValue :=
  if Field_IsList field then PVList []
  else if Field_IsMap field then PVMap []
  else
    match Field_Kind field with
    | BoolKind => PVBool false
    | EnumKind => PVEnum 0
    | Int32Kind | Sint32Kind | Sfixed32Kind => PVInt32 0
    | Int64Kind | Sint64Kind | Sfixed64Kind => PVInt64 0
    | Uint32Kind | Fixed32Kind => PVUint32 0
    | Uint64Kind | Fixed64Kind => PVUint64 0
    | FloatKind => PVFloat32 (Finite 0)
    | DoubleKind => PVFloat64 (Finite 0)
    | StringKind => PVString EmptyString
    | BytesKind => PVBytes []
    | MessageKind | GroupKind => PVMessage ∅
    end.

(** [msg.Get]: the stored value, or the zero value of a cleared field. *)
Definition Message_Get (msg : Message) (field : FieldDescriptor) : ProtoValue :=
  match msg !! Field_Number field with
  | Some v => v
  | None => Message_NewField field
  end.

(** ** Type reconciler *)

Definition unsuitableValueSummary : string := "Unsuitable attribute value".

(** [autoTypeConstraintForFieldElement]. *)
Definition autoTypeConstraintForFieldElement (field : FieldDescriptor) : CtyType :=
  match Field_Kind field with
  | BoolKind => cty_Bool
  | EnumKind => cty_String
  | Int32Kind | Sint32Kind | Uint32Kind | Int64Kind | Sint64Kind | Uint64Kind
  | Sfixed32Kind | Fixed32Kind | Sfixed64Kind | Fixed64Kind | FloatKind | DoubleKind =>
      cty_Number
  | StringKind => cty_String
  | MessageKind => cty_NilType
  | BytesKind => cty_NilType
  | _ => cty_NilType
  end.

(** [autoTypeConstraintForField]. *)
Definition autoTypeConstraintForField (field : FieldDescriptor) : CtyType :=
  let elemField :=
    match Field_MapValue field with
    | Some v => v
    | None => field
    end in
  let ety := autoTypeConstraintForFieldElement elemField in
  if isNilType ety then ety
  else if Field_IsList field then
    if HasDynamicTypes ety then cty_DynamicPseudoType else cty_List ety
  else if Field_IsMap field then
    if HasDynamicTypes ety then cty_DynamicPseudoType else cty_Map ety
  else ety.

(** [FieldAttribute.autoTypeConstraint]. *)
Definition autoTypeConstraint (fa : FieldAttribute) : CtyType * option schemaError :=
  if negb (bool_decide (RawMode fa = Attribute_NOT_RAW)) then
    (cty_DynamicPseudoType,
     Some (schemaErrorf (Field_FullName (TargetField fa))
             "must set explicit HCL type constraint for this raw-mode attribute"))
  else
    let ty := autoTypeConstraintForField (TargetField fa) in
    if isNilType ty then
      (cty_DynamicPseudoType,
       Some (schemaErrorf (Field_FullName (TargetField fa))
               "can't infer HCL type constraint for this field; must specify (hcl.attr).type option explicitly"))
    else (ty, None).

(** [physicalConstraintForFieldKindSingle]. *)
Definition physicalConstraintForFieldKindSingle (field : FieldDescriptor)
    : CtyType * option schemaError :=
  match Field_Kind field with
  | BoolKind => (cty_Bool, None)
  | EnumKind => (cty_String, None)
  | Int32Kind | Sint32Kind | Uint32Kind | Int64Kind | Sint64Kind | Uint64Kind
  | Sfixed32Kind | Fixed32Kind | Sfixed64Kind | Fixed64Kind | FloatKind | DoubleKind =>
      (cty_Number, None)
  | StringKind => (cty_String, None)
  | MessageKind =>
      (cty_DynamicPseudoType,
       Some (schemaErrorf (Field_FullName field) "cannot decode a HCL value into a message-typed field"))
  | BytesKind => (cty_DynamicPseudoType, None)
  | k =>
      (cty_DynamicPseudoType,
       Some (schemaErrorf (Field_FullName field)
               ("cannot decode a HCL value into a " +:+ Kind_String k +:+ " field")))
  end.

Section WithHost.
Context `{Host}.

(** [FieldAttribute.TypeConstraint]. *)
Definition TypeConstraint (fa : FieldAttribute) : CtyType * Diagnostics :=
  if String.eqb (TypeExprString fa) EmptyString then
    match autoTypeConstraint fa with
    | (_, Some err) => (cty_DynamicPseudoType, [schemaErrorDiagnostic err])
    | (ty, None) => (ty, [])
    end
  else
    let '(expr, diags) := hclsyntax_ParseExpression (TypeExprString fa) in
    if HasErrors diags then (cty_DynamicPseudoType, diags)
    else
      let '(ty, moreDiags) := typeexpr_TypeConstraint expr in
      (ty, diags ++ moreDiags).

(** [valuePhysicalConstraintForFieldKind]: the constraint together with
    the error; the caller goes on with the constraint either way. *)
Definition valuePhysicalConstraintForFieldKind (ty : CtyType) (field : FieldDescriptor)
    : CtyType * option schemaError :=
  if Field_IsList field then
    match physicalConstraintForFieldKindSingle field with
    | (_, Some err) => (cty_DynamicPseudoType, Some err)
    | (ety, None) =>
        match ty with
        | cty_Tuple etys => (cty_Tuple (map (λ _, ety) etys), None)
        | cty_List _ | cty_Set _ => (cty_List ety, None)
        | _ =>
            (cty_DynamicPseudoType,
             Some (schemaErrorf (Field_FullName field)
                     ("can't populate list field from HCL " +:+ Type_FriendlyName ty)))
        end
    end
  else
    match Field_MapValue field with
    | Some mapValue =>
        match physicalConstraintForFieldKindSingle mapValue with
        | (_, Some err) => (cty_DynamicPseudoType, Some err)
        | (ety, None) =>
            match ty with
            | cty_ObjectOf atys => (cty_ObjectOf (map (λ kv, (fst kv, ety)) atys), None)
            | cty_Map _ => (cty_Map ety, None)
            | _ =>
                (cty_DynamicPseudoType,
                 Some (schemaErrorf (Field_FullName field)
                         ("can't populate map field from HCL " +:+ Type_FriendlyName ty)))
            end
        end
    | None => physicalConstraintForFieldKindSingle field
    end.

(** ** Value to field *)

(** [intValueForFixedIntegerField]: the truncated integer (nil for an
    infinity) and the diagnostics. *)
Definition intValueForFixedIntegerField (val : Value) (rng : Range) (min max : Z)
    : outcome (option Z * Diagnostics) :=
  let! bf := Value_AsBigFloat val in
  let bi := BigFloat_Int bf in
  if negb (BigFloat_IsInt bf) then
    Ok (bi, [ {| Severity := DiagError; Summary := unsuitableValueSummary;
                 Detail := "The value must be a whole number.";
                 Subject := Some rng; Context := None |} ])
  else
    match bi with
    | None => Panic "invalid memory address or nil pointer dereference"
    | Some z =>
        if (z <? min)%Z then
          Ok (bi, [ {| Severity := DiagError; Summary := unsuitableValueSummary;
                       Detail := "The value must be greater than or equal to " +:+ fmt_d min +:+ ".";
                       Subject := Some rng; Context := None |} ])
        else if (max <? z)%Z then
          Ok (bi, [ {| Severity := DiagError; Summary := unsuitableValueSummary;
                       Detail := "The value must be less than or equal to " +:+ fmt_d max +:+ ".";
                       Subject := Some rng; Context := None |} ])
        else Ok (bi, [])
    end.

(** [protoValueForSingletonFieldKind]. *)
Definition protoValueForSingletonFieldKind (val : Value) (rng : Range) (field : FieldDescriptor)
    : outcome (ProtoValue * Diagnostics) :=
  match Field_Kind field with
  | BoolKind =>
      let! b := Value_True val in Ok (PVBool b, [])
  | EnumKind =>
      Ok (Message_NewField field,
          [ {| Severity := DiagError; Summary := unsuitableValueSummary;
               Detail := "Decoding enum-typed fields isn't supported yet.";
               Subject := None; Context := Some rng |} ])
  | Int32Kind | Sint32Kind | Sfixed32Kind =>
      let! (bi, moreDiags) := intValueForFixedIntegerField val rng MinInt32 MaxInt32 in
      let! i := BigInt_Int64 bi in
      Ok (PVInt32 (wrap_signed 32 i), moreDiags)
  | Int64Kind | Sint64Kind | Sfixed64Kind =>
      let! (bi, moreDiags) := intValueForFixedIntegerField val rng MinInt64 MaxInt64 in
      let! i := BigInt_Int64 bi in
      Ok (PVInt64 i, moreDiags)
  | Uint32Kind | Fixed32Kind =>
      let! (bi, moreDiags) := intValueForFixedIntegerField val rng 0 MaxUint32 in
      let! u := BigInt_Uint64 bi in
      Ok (PVUint32 (wrap_unsigned 32 u), moreDiags)
  | Uint64Kind | Fixed64Kind =>
      let! (bi, moreDiags) := intValueForFixedIntegerField val rng 0 MaxUint64 in
      let! u := BigInt_Uint64 bi in
      Ok (PVUint64 u, moreDiags)
  | StringKind =>
      let! s := Value_AsString val in Ok (PVString s, [])
  | MessageKind =>
      Ok (Message_NewField field,
          [ {| Severity := DiagError; Summary := unsuitableValueSummary;
               Detail := "Decoding message-typed fields isn't supported yet.";
               Subject := None; Context := Some rng |} ])
  | k =>
      Panic ("unhandled " +:+ Kind_String k +:+ " for field " +:+ Field_FullName field)
  end.

(** [protoValueForSingletonRawField]. The source tests its own, still
    empty, diagnostics after [TypeConstraint], so the diagnostics of the
    type constraint are dropped and the test never fires. *)
Definition protoValueForSingletonRawField (val : Value) (rng : Range) (attr : FieldAttribute)
    : outcome (ProtoValue * Diagnostics) :=
  let diags : Diagnostics := [] in
  let '(ty, moreDiags) := TypeConstraint attr in
  if HasErrors diags then Ok (PVBytes [], diags ++ moreDiags)
  else
    match RawMode attr with
    | Attribute_MESSAGEPACK =>
        match ctymsgpack_Marshal val ty with
        | inr err =>
            Ok (PVBytes [],
                [ {| Severity := DiagError;
                     Summary := "Internal error while decoding configuration";
                     Detail := "This attribute value is not compatible with the MessagePack field where it'll be stored internally: "
                               +:+ err +:+ "." +:+ String (ascii_of_nat 10) (String (ascii_of_nat 10)
                               "This is a bug in the configuration schema.");
                     Subject := None; Context := None |} ])
        | inl rawVal => Ok (PVBytes rawVal, diags)
        end
    | Attribute_JSON =>
        match ctyjson_Marshal val ty with
        | inr err =>
            Ok (PVBytes [],
                [ {| Severity := DiagError;
                     Summary := "Internal error while decoding configuration";
                     Detail := "This attribute value is not compatible with the JSON field where it'll be stored internally: "
                               +:+ err +:+ "." +:+ String (ascii_of_nat 10) (String (ascii_of_nat 10)
                               "This is a bug in the configuration schema.");
                     Subject := None; Context := None |} ])
        | inl rawVal => Ok (PVBytes rawVal, diags)
        end
    | Attribute_NOT_RAW => Panic "attempting raw encoding into a non-raw field"
    | Attribute_RawMode_other _ =>
        Ok (PVBytes [],
            [ schemaErrorDiagnostic
                (schemaErrorf (Field_FullName (TargetField attr))
                   ("invalid raw mode " +:+ Attribute_RawMode_String (RawMode attr))) ])
    end.

(** [protoValueForSingletonField]. *)
Definition protoValueForSingletonField (val : Value) (rng : Range) (field : FieldDescriptor)
    : outcome (ProtoValue * Diagnostics) :=
  let! elem := GetFieldElem field in
  match elem with
  | inr err => Ok (PVInvalid, [schemaErrorDiagnostic err])
  | inl (Some (ElemAttribute attr)) =>
      if negb (bool_decide (RawMode attr = Attribute_NOT_RAW)) then
        if negb (bool_decide (Field_Kind field = BytesKind)) then
          Panic ("raw-decoding into " +:+ Kind_String (Field_Kind field) +:+ ", not bytes")
        else protoValueForSingletonRawField val rng attr
      else if bool_decide (Field_Kind field = BytesKind) then
        Panic ("bytes field " +:+ Field_FullName field +:+ " doesn't have raw mode enabled")
      else if negb (IsKnown val) then
        Ok (Message_NewField field,
            [ {| Severity := DiagError; Summary := unsuitableValueSummary;
                 Detail := "Unknown values are not allowed here.";
                 Subject := None; Context := Some rng |} ])
      else
        let! (ret, moreDiags) := protoValueForSingletonFieldKind val rng field in
        Ok (ret, moreDiags)
  | inl _ => Panic "decoding value into an element that is not a FieldAttribute"
  end.

(** [protoValueForListField]: an element with error diagnostics is left
    out of the list. *)
Fixpoint protoValueForListFieldFrom (vals : list Value) (rng : Range) (field : FieldDescriptor)
    (items : list ProtoValue) (diags : Diagnostics) : outcome (ProtoValue * Diagnostics) :=
  match vals with
  | [] => Ok (PVList items, diags)
  | v :: rest =>
      let! (protoVal, moreDiags) := protoValueForSingletonField v rng field in
      let diags := diags ++ moreDiags in
      if HasErrors moreDiags then protoValueForListFieldFrom rest rng field items diags
      else protoValueForListFieldFrom rest rng field (items ++ [protoVal]) diags
  end.

Definition protoValueForListField (vals : list Value) (rng : Range) (field : FieldDescriptor)
    : outcome (ProtoValue * Diagnostics) :=
  protoValueForListFieldFrom vals rng field [] [].

(** [protoValueForMapField], over the entries of the map. The first
    unknown value ends the walk. *)
Fixpoint protoValueForMapFieldFrom (vals : list (string * Value)) (rng : Range)
    (field mapValField : FieldDescriptor)
    (protoMap : list (MapKey * ProtoValue)) (diags : Diagnostics)
    : outcome (ProtoValue * Diagnostics) :=
  match vals with
  | [] => Ok (PVMap protoMap, diags)
  | (k, v) :: rest =>
      if negb (IsKnown v) then
        Ok (Message_NewField field,
            diags ++ [ {| Severity := DiagError; Summary := unsuitableValueSummary;
                          Detail := "Unknown values are not allowed here.";
                          Subject := None; Context := Some rng |} ])
      else
        let! (protoVal, moreDiags) := protoValueForSingletonFieldKind v rng mapValField in
        let diags := diags ++ moreDiags in
        if HasErrors moreDiags then
          protoValueForMapFieldFrom rest rng field mapValField protoMap diags
        else
          protoValueForMapFieldFrom rest rng field mapValField
            (protoMap ++ [(MapKeyString k, protoVal)]) diags
  end.

Definition protoValueForMapField (vals : gmap string Value) (rng : Range) (field : FieldDescriptor)
    : outcome (ProtoValue * Diagnostics) :=
  match map_to_list vals with
  | [] => Ok (PVMap [], [])
  | entries =>
      match Field_MapValue field with
      | Some mapValField => protoValueForMapFieldFrom entries rng field mapValField [] []
      | None => Panic "invalid memory address or nil pointer dereference"
      end
  end.

(** [protoValueForField]. *)
Definition protoValueForField (val : Value) (rng : Range) (field : FieldDescriptor)
    : outcome (ProtoValue * Diagnostics) :=
  let ty := Value_Type val in
  if Field_IsList field then
    if IsListType ty || IsSetType ty || IsTupleType ty then
      let! vals := Value_AsValueSlice val in
      protoValueForListField vals rng field
    else
      Ok (Message_NewField field,
          [ {| Severity := DiagError; Summary := unsuitableValueSummary;
               Detail := "This argument requires a sequence of values.";
               Subject := Some rng; Context := None |} ])
  else if Field_IsMap field then
    if IsMapType ty || IsObjectType ty then
      let! vals := Value_AsValueMap val in
      protoValueForMapField vals rng field
    else
      Ok (Message_NewField field,
          [ {| Severity := DiagError; Summary := unsuitableValueSummary;
               Detail := "This argument requires a mapping from strings to values.";
               Subject := Some rng; Context := None |} ])
  else protoValueForSingletonField val rng field.

End WithHost.

(** ** Schema compiler *)

(** [attributeSchema]. *)
Definition attributeSchema (elem : FieldAttribute) : AttributeSchema :=
  {| AttributeSchema_Name := Name elem; AttributeSchema_Required := Required_ elem |}.

(** The label names of [blockTypeSchema]: one per label-annotated field
    of the nested message, in field order; a field whose annotation is in
    error is passed over. *)
Fixpoint blockLabelNames (fields : list FieldDescriptor) (labelNames : list string)
    : outcome (list string) :=
  match fields with
  | [] => Ok labelNames
  | field :: rest =>
      let! elem := GetFieldElem field in
      match elem with
      | inl (Some (ElemBlockLabel name)) => blockLabelNames rest (labelNames ++ [name])
      | _ => blockLabelNames rest labelNames
      end
  end.

(** [blockTypeSchema]. *)
Definition blockTypeSchema (elem : FieldNestedBlockType) : outcome BlockHeaderSchema :=
  let! labelNames := blockLabelNames (Message_Fields (Nested elem)) [] in
  Ok {| BlockHeaderSchema_Type := TypeName elem; BlockHeaderSchema_LabelNames := labelNames |}.

(** The local variables of [bodySchema]: the schema under construction
    and the three registries of used names, each name mapped to the full
    name of the field that declared it. *)
Record schemaState : Type := MkSchemaState {
  ret : BodySchema;
  attrs : gmap string string;
  blockTypes : gmap string string;
  blockLabels : gmap string string
}.

Definition emptySchemaState : schemaState :=
  {| ret := {| Schema_Attributes := []; Schema_Blocks := [] |};
     attrs := ∅; blockTypes := ∅; blockLabels := ∅ |}.

Definition appendAttribute (st : schemaState) (attrS : AttributeSchema) (declaredBy : string)
    : schemaState :=
  {| ret := {| Schema_Attributes := Schema_Attributes (ret st) ++ [attrS];
               Schema_Blocks := Schema_Blocks (ret st) |};
     attrs := <[AttributeSchema_Name attrS := declaredBy]> (attrs st);
     blockTypes := blockTypes st;
     blockLabels := blockLabels st |}.

Definition appendBlock (st : schemaState) (blockS : BlockHeaderSchema) (declaredBy : string)
    : schemaState :=
  {| ret := {| Schema_Attributes := Schema_Attributes (ret st);
               Schema_Blocks := Schema_Blocks (ret st) ++ [blockS] |};
     attrs := attrs st;
     blockTypes := <[BlockHeaderSchema_Type blockS := declaredBy]> (blockTypes st);
     blockLabels := blockLabels st |}.

Definition recordLabel (st : schemaState) (name : string) (declaredBy : string) : schemaState :=
  {| ret := ret st; attrs := attrs st; blockTypes := blockTypes st;
     blockLabels := <[name := declaredBy]> (blockLabels st) |}.

(** The attribute case of the loop of [bodySchema]. *)
Definition declareAttribute (field : FieldDescriptor) (attrS : AttributeSchema) (st : schemaState)
    : schemaState + schemaError :=
  let name := AttributeSchema_Name attrS in
  match attrs st !! name with
  | Some existingName =>
      inr (schemaErrorf (Field_FullName field)
             ("declaration of attribute " +:+ fmt_q name +:+ " conflicts with " +:+ existingName))
  | None =>
  match blockTypes st !! name with
  | Some existingName =>
      inr (schemaErrorf (Field_FullName field)
             ("declaration of attribute " +:+ fmt_q name
              +:+ " conflicts with block type declared by " +:+ existingName))
  | None =>
  match blockLabels st !! name with
  | Some existingName =>
      inr (schemaErrorf (Field_FullName field)
             ("declaration of attribute " +:+ fmt_q name
              +:+ " conflicts with block label name declared by " +:+ existingName))
  | None => inl (appendAttribute st attrS (Field_FullName field))
  end end end.

(** The nested-block case. *)
Definition declareBlock (field : FieldDescriptor) (blockS : BlockHeaderSchema) (st : schemaState)
    : schemaState + schemaError :=
  let type := BlockHeaderSchema_Type blockS in
  match attrs st !! type with
  | Some existingName =>
      inr (schemaErrorf (Field_FullName field)
             ("declaration of block type " +:+ fmt_q type
              +:+ " conflicts with attribute declared by " +:+ existingName))
  | None =>
  match blockTypes st !! type with
  | Some existingName =>
      inr (schemaErrorf (Field_FullName field)
             ("declaration of block type " +:+ fmt_q type +:+ " conflicts with " +:+ existingName))
  | None =>
  match blockLabels st !! type with
  | Some existingName =>
      inr (schemaErrorf (Field_FullName field)
             ("declaration of block type " +:+ fmt_q type
              +:+ " conflicts with block label name declared by " +:+ existingName))
  | None => inl (appendBlock st blockS (Field_FullName field))
  end end end.

(** The two loops of the flatten case. *)
Fixpoint flattenAttributes (field : FieldDescriptor) (nest : list AttributeSchema)
    (st : schemaState) : schemaState + schemaError :=
  match nest with
  | [] => inl st
  | attrS :: rest =>
      let name := AttributeSchema_Name attrS in
      match attrs st !! name with
      | Some existingName =>
          inr (schemaErrorf (Field_FullName field)
                 ("flattened-in attribute " +:+ fmt_q name +:+ " conflicts with " +:+ existingName))
      | None =>
      match blockTypes st !! name with
      | Some existingName =>
          inr (schemaErrorf (Field_FullName field)
                 ("flattened-in attribute " +:+ fmt_q name
                  +:+ " conflicts with block type declared by " +:+ existingName))
      | None =>
      match blockLabels st !! name with
      | Some existingName =>
          inr (schemaErrorf (Field_FullName field)
                 ("flattened-in attribute " +:+ fmt_q name
                  +:+ " conflicts with block label name declared by " +:+ existingName))
      | None => flattenAttributes field rest (appendAttribute st attrS (Field_FullName field))
      end end end
  end.

Fixpoint flattenBlocks (field : FieldDescriptor) (nest : list BlockHeaderSchema)
    (st : schemaState) : schemaState + schemaError :=
  match nest with
  | [] => inl st
  | blockS :: rest =>
      let type := BlockHeaderSchema_Type blockS in
      match attrs st !! type with
      | Some existingName =>
          inr (schemaErrorf (Field_FullName field)
                 ("flattened-in block type " +:+ fmt_q type
                  +:+ " conflicts with attribute declared by " +:+ existingName))
      | None =>
      match blockTypes st !! type with
      | Some existingName =>
          inr (schemaErrorf (Field_FullName field)
                 ("flattened-in block type " +:+ fmt_q type +:+ " conflicts with " +:+ existingName))
      | None =>
      match blockLabels st !! type with
      | Some existingName =>
          inr (schemaErrorf (Field_FullName field)
                 ("flattened-in block type " +:+ fmt_q type
                  +:+ " conflicts with block label name declared by " +:+ existingName))
      | None => flattenBlocks field rest (appendBlock st blockS (Field_FullName field))
      end end end
  end.

(** The block-label case. *)
Definition declareLabel (field : FieldDescriptor) (name : string) (st : schemaState)
    : schemaState + schemaError :=
  match attrs st !! name with
  | Some existingName =>
      inr (schemaErrorf (Field_FullName field)
             ("block label name " +:+ fmt_q name
              +:+ " conflicts with attribute declared by " +:+ existingName))
  | None =>
  match blockTypes st !! name with
  | Some existingName =>
      inr (schemaErrorf (Field_FullName field)
             ("block label name " +:+ fmt_q name +:+ " conflicts with " +:+ existingName))
  | None =>
  match blockLabels st !! name with
  | Some existingName =>
      inr (schemaErrorf (Field_FullName field)
             ("block label name " +:+ fmt_q name +:+ " conflicts " +:+ existingName))
  | None => inl (recordLabel st name (Field_FullName field))
  end end end.

(** One turn of the loop of [bodySchema]. [nestSchema] is
    [bodySchema(elem.Nested)], looked at in the flatten case only. *)
Definition bodySchemaField (descName : string)
    (nestSchema : outcome (BodySchema + schemaError))
    (field : FieldDescriptor) (st : schemaState) : outcome (schemaState + schemaError) :=
  let! elem := GetFieldElem field in
  match elem with
  | inr err => Ok (inr err)
  | inl (Some (ElemAttribute elem)) => Ok (declareAttribute field (attributeSchema elem) st)
  | inl (Some (ElemNestedBlockType elem)) =>
      let! blockS := blockTypeSchema elem in
      Ok (declareBlock field blockS st)
  | inl (Some (ElemFlattened _)) =>
      let! nest := nestSchema in
      match nest with
      | inr err =>
          Ok (inr (schemaErrorf descName ("invalid message to flatten: " +:+ schemaError_Error err)))
      | inl nestSchema =>
          match flattenAttributes field (Schema_Attributes nestSchema) st with
          | inr err => Ok (inr err)
          | inl st => Ok (flattenBlocks field (Schema_Blocks nestSchema) st)
          end
      end
  | inl (Some (ElemBlockLabel name)) => Ok (declareLabel field name st)
  | inl None => Ok (inl st)
  end.

(** The first oneof that is not synthetic. *)
Definition firstRealOneof (oneofs : list OneofDescriptor) : option OneofDescriptor :=
  List.find (λ oneOf, negb (Oneof_IsSynthetic oneOf)) oneofs.

(** [field.Message()] for the recursion on descriptors: [rec] at the
    message type of a message field, [nil] where the field has none. *)
Definition nestedOf {A : Type} (rec : MessageDescriptor → A) (nil : A)
    (field : FieldDescriptor) : A :=
  match field with
  | MkField _ _ _ (MessageType _ m) _ => rec m
  | _ => nil
  end.

Definition nilDeref {A : Type} : outcome A :=
  Panic "invalid memory address or nil pointer dereference".

(** The loop of [bodySchema] over the fields of the descriptor. *)
Fixpoint bodySchemaFields (bodySchema : MessageDescriptor → outcome (BodySchema + schemaError))
    (descName : string) (fields : list FieldDescriptor) (st : schemaState)
    : outcome (BodySchema + schemaError) :=
  match fields with
  | [] => Ok (inl (ret st))
  | field :: rest =>
      let! r := bodySchemaField descName (nestedOf bodySchema nilDeref field) field st in
      match r with
      | inr err => Ok (inr err)
      | inl st => bodySchemaFields bodySchema descName rest st
      end
  end.

(** [bodySchema]. The recursion is on the descriptor: the schema of
    [elem.Nested] is the schema of the message type of the field, which
    is what [GetFieldElem] puts in [Nested]. *)
Fixpoint bodySchema (desc : MessageDescriptor) : outcome (BodySchema + schemaError) :=
  match firstRealOneof (Message_Oneofs desc) with
  | Some oneOf =>
      Ok (inr (schemaErrorf (Oneof_FullName oneOf)
                 "oneof declarations are not yet supported in messages used for HCL decoding"))
  | None =>
      bodySchemaFields bodySchema (Message_FullName desc) (Message_Fields desc) emptySchemaState
  end.

(** ** Body decoder *)

Section Decoder.
Context `{Host}.

(** The signature of [fillMessageFromContent] once the descriptor of
    [msg] is fixed: content, missing-item range, message, context and
    the recovering flag, to the filled message and the diagnostics. *)
Definition FillFn : Type :=
  BodyContent → Range → Message → option EvalContext → bool → outcome (Message * Diagnostics).

Definition fillNil : FillFn := λ _ _ _ _ _, nilDeref.

(** [DecodeBody], given [fillMessageFromContent] for its descriptor. On
    a schema error the schema pointer stays nil, the error becomes the
    first diagnostic, and the decoding goes on. *)
Definition DecodeBodyWith (fill : FillFn) (body : Body) (desc : MessageDescriptor)
    (ctx : option EvalContext) : outcome (Message * Diagnostics) :=
  let! r := bodySchema desc in
  let '(schema, diags) :=
    match r with
    | inl schema => (Some schema, [])
    | inr err => (None, [schemaErrorDiagnostic err])
    end in
  let! (content, moreDiags) := Body_Content body schema in
  let diags := diags ++ moreDiags in
  let msg := newMessageMaybeDynamic desc in
  let! (msg, moreDiags) := fill content (Body_MissingItemRange body) msg ctx (HasErrors diags) in
  Ok (msg, diags ++ moreDiags).

(** The label loop of [newMessageForBlock]. The label is read from the
    block first and then given to [Set] as a string, whatever the field
    the label is declared on. *)
Fixpoint bindBlockLabels (block : Block) (nestedFields : list FieldDescriptor)
    (nextLabel : nat) (nestedMsgR : Message) : outcome Message :=
  match nestedFields with
  | [] => Ok nestedMsgR
  | nestedField :: rest =>
      let! elem := GetFieldElem nestedField in
      match elem with
      | inl (Some (ElemBlockLabel _)) =>
          match Block_Labels block !! nextLabel with
          | Some label =>
              let! nestedMsgR := Message_SetChecked nestedMsgR nestedField (PVString label) in
              bindBlockLabels block rest (S nextLabel) nestedMsgR
          | None => Panic "index out of range"
          end
      | _ => bindBlockLabels block rest nextLabel nestedMsgR
      end
  end.

(** [newMessageForBlock]; [fillNested] fills messages of [elem.Nested]. *)
Definition newMessageForBlock (fillNested : FillFn) (block : Block)
    (elem : FieldNestedBlockType) (ctx : option EvalContext)
    : outcome (Message * Diagnostics) :=
  let! (nestedMsg, moreDiags) := DecodeBodyWith fillNested (Block_Body block) (Nested elem) ctx in
  let! nestedMsgR := bindBlockLabels block (Message_Fields (Nested elem)) 0 nestedMsg in
  Ok (nestedMsgR, moreDiags).

Definition duplicateBlockDiagnostic (typeName : string) (found block : Block) : Diagnostic :=
  {| Severity := DiagError;
     Summary := "Duplicate " +:+ typeName +:+ " block";
     Detail := "There may be no more than one " +:+ typeName
               +:+ " block. Previous block declared at " +:+ Range_String (Block_DefRange found) +:+ ".";
     Subject := Some (Block_TypeRange block);
     Context := Some (Block_DefRange block) |}.

(** The loop of the repeated case: every block of the type is decoded
    and appended to a new list. The source never stores that list in
    the message. *)
Fixpoint fillRepeatedBlocks (fillNested : FillFn) (elem : FieldNestedBlockType)
    (ctx : option EvalContext) (blocks : list Block)
    (items : list ProtoValue) (diags : Diagnostics) : outcome (list ProtoValue * Diagnostics) :=
  match blocks with
  | [] => Ok (items, diags)
  | block :: rest =>
      if negb (String.eqb (Block_Type block) (TypeName elem)) then
        fillRepeatedBlocks fillNested elem ctx rest items diags
      else
        let! (nestedMsg, moreDiags) := newMessageForBlock fillNested block elem ctx in
        fillRepeatedBlocks fillNested elem ctx rest
          (items ++ [PVMessage nestedMsg]) (diags ++ moreDiags)
  end.

(** The loop of the singleton case: the first block of the type is
    decoded and stored, the second one is reported and ends the loop. *)
Fixpoint fillSingletonBlock (fillNested : FillFn) (field : FieldDescriptor)
    (elem : FieldNestedBlockType) (ctx : option EvalContext) (blocks : list Block)
    (found : option Block) (msg : Message) (diags : Diagnostics)
    : outcome (Message * Diagnostics) :=
  match blocks with
  | [] => Ok (msg, diags)
  | block :: rest =>
      if negb (String.eqb (Block_Type block) (TypeName elem)) then
        fillSingletonBlock fillNested field elem ctx rest found msg diags
      else
        match found with
        | Some previous =>
            Ok (msg, diags ++ [duplicateBlockDiagnostic (TypeName elem) previous block])
        | None =>
            let! (nestedMsg, moreDiags) := newMessageForBlock fillNested block elem ctx in
            fillSingletonBlock fillNested field elem ctx rest (Some block)
              (Message_Set msg field (PVMessage nestedMsg)) (diags ++ moreDiags)
        end
  end.

Definition unsuitableValueDiagnostic (detail : string) (attr : HclAttribute) : Diagnostic :=
  {| Severity := DiagError;
     Summary := unsuitableValueSummary;
     Detail := detail;
     Subject := Some (Expr_Range (HclAttribute_Expr attr));
     Context := Some (RangeBetween (HclAttribute_NameRange attr)
                                   (Expr_Range (HclAttribute_Expr attr))) |}.

(** The attribute case of the loop of [fillMessageFromContent]: the
    message after it and the diagnostics it appends. Each [continue] of
    the source is a return of the cleared message. *)
Definition fillAttribute (content : BodyContent) (missingRange : Range)
    (ctx : option EvalContext) (field : FieldDescriptor) (elem : FieldAttribute)
    (msg : Message) : outcome (Message * Diagnostics) :=
  let msg := Message_Clear msg field in
  match Content_Attributes content !! Name elem with
  | None =>
      if Required_ elem then
        Ok (msg, [ {| Severity := DiagError;
                      Summary := "Missing required argument";
                      Detail := "The argument " +:+ fmt_q (Name elem)
                                +:+ " is required, but no definition was found.";
                      Subject := Some missingRange; Context := None |} ])
      else Ok (msg, [])
  | Some attr =>
      let '(val, moreDiags) := Expr_Value (HclAttribute_Expr attr) ctx in
      let diags := moreDiags in
      if HasErrors moreDiags then Ok (msg, diags)
      else
        let '(wantTy, moreDiags) := TypeConstraint elem in
        let diags := diags ++ moreDiags in
        if HasErrors moreDiags then Ok (msg, diags)
        else
          match convert_Convert val wantTy with
          | inr err =>
              Ok (msg, diags ++ [ unsuitableValueDiagnostic
                 ("Inappropriate value for attribute " +:+ fmt_q (Name elem) +:+ ": " +:+ err +:+ ".")
                 attr ])
          | inl val =>
              if IsNull val then
                if Required_ elem then
                  Ok (msg, diags ++ [ unsuitableValueDiagnostic
                     ("Attribute " +:+ fmt_q (Name elem) +:+ " is required, so must not be null.")
                     attr ])
                else Ok (msg, diags)
              else
                let '(needTy, err) := valuePhysicalConstraintForFieldKind (Value_Type val) field in
                let diags :=
                  match err with
                  | Some err => diags ++ [schemaErrorDiagnostic err]
                  | None => diags
                  end in
                match convert_Convert val needTy with
                | inr err =>
                    Ok (msg, diags ++ [ unsuitableValueDiagnostic
                       ("Inappropriate value for attribute " +:+ fmt_q (Name elem) +:+ ": " +:+ err +:+ ".")
                       attr ])
                | inl val =>
                    let! (protoVal, moreDiags) :=
                      protoValueForField val (Expr_Range (HclAttribute_Expr attr)) field in
                    let diags := diags ++ moreDiags in
                    if HasErrors moreDiags then Ok (msg, diags)
                    else Ok (Message_Set msg field protoVal, diags)
                end
          end
  end.

(** One turn of the loop of [fillMessageFromContent]: the message after
    it and the diagnostics it appends. [fillNested] is
    [fillMessageFromContent] for messages of the message type of the
    field. *)
Definition fillField (fillNested : FillFn) (content : BodyContent) (missingRange : Range)
    (ctx : option EvalContext) (recovering : bool) (field : FieldDescriptor) (msg : Message)
    : outcome (Message * Diagnostics) :=
  let! elem := GetFieldElem field in
  match elem with
  | inr err => Ok (msg, [schemaErrorDiagnostic err])
  | inl (Some (ElemAttribute elem)) => fillAttribute content missingRange ctx field elem msg
  | inl (Some (ElemNestedBlockType elem)) =>
      let msg := Message_Clear msg field in
      if Repeated_ elem then
        let! (_, diags) := fillRepeatedBlocks fillNested elem ctx (Content_Blocks content) [] [] in
        Ok (msg, diags)
      else
        fillSingletonBlock fillNested field elem ctx (Content_Blocks content) None msg []
  | inl (Some (ElemFlattened nested)) =>
      let msg := Message_Clear msg field in
      let nestedMsg := newMessageMaybeDynamic nested in
      let! (nestedMsg, moreDiags) := fillNested content missingRange nestedMsg ctx recovering in
      Ok (Message_Set msg field (PVMessage nestedMsg), moreDiags)
  | inl _ => Ok (msg, [])
  end.

(** The loop of [fillMessageFromContent]. *)
Fixpoint fillFields (fill : MessageDescriptor → FillFn) (content : BodyContent)
    (missingRange : Range) (ctx : option EvalContext) (recovering : bool)
    (fields : list FieldDescriptor) (msg : Message) (diags : Diagnostics)
    : outcome (Message * Diagnostics) :=
  match fields with
  | [] => Ok (msg, diags)
  | field :: rest =>
      let! (msg, moreDiags) :=
        fillField (nestedOf fill fillNil field) content missingRange ctx recovering field msg in
      fillFields fill content missingRange ctx recovering rest msg (diags ++ moreDiags)
  end.

(** [fillMessageFromContent], for a message of descriptor [desc]. The
    recovering flag is handed down and never read. *)
Fixpoint fillMessageFromContent (desc : MessageDescriptor) : FillFn :=
  λ content missingRange msg ctx recovering,
    fillFields fillMessageFromContent content missingRange ctx recovering
      (Message_Fields desc) msg [].

(** [DecodeBody]. *)
Definition DecodeBody (body : Body) (desc : MessageDescriptor) (ctx : option EvalContext)
    : outcome (Message * Diagnostics) :=
  DecodeBodyWith (fillMessageFromContent desc) body desc ctx.

End Decoder.

(** ** Object type constraint of a message descriptor *)

Section ObjectType.
Context `{Host}.

(** The signature of [buildObjectTypeAtysForMessageDesc] once the
    descriptor is fixed: the attribute types so far, to the attribute
    types with those of the message added. *)
Definition AtysFn : Type :=
  gmap string CtyType → outcome (gmap string CtyType + schemaError).

(** [ObjectTypeConstraintForMessageDesc], given
    [buildObjectTypeAtysForMessageDesc] for its descriptor. *)
Definition ObjectTypeConstraintWith (build : AtysFn) : outcome (CtyType + schemaError) :=
  let! r := build ∅ in
  match r with
  | inr err => Ok (inr err)
  | inl atys => Ok (inl (cty_Object atys))
  end.

(** One turn of the loop of [buildObjectTypeAtysForMessageDesc];
    [buildNested] is the function itself at [elem.Nested]. *)
Definition buildObjectTypeAtysField (buildNested : AtysFn) (field : FieldDescriptor)
    (atys : gmap string CtyType) : outcome (gmap string CtyType + schemaError) :=
  let! elem := GetFieldElem field in
  match elem with
  | inr err => Ok (inr err)
  | inl None => Ok (inl atys)
  | inl (Some (ElemAttribute elem)) =>
      let '(aty, diags) := TypeConstraint elem in
      if HasErrors diags then
        Ok (inr (schemaErrorf (Field_FullName field) "invalid type constraint expression"))
      else Ok (inl (<[Name elem := aty]> atys))
  | inl (Some (ElemNestedBlockType elem)) =>
      let! r := ObjectTypeConstraintWith buildNested in
      match r with
      | inr err => Ok (inr err)
      | inl nestedTy =>
          match CollectionKind elem with
          | NestedBlock_AUTO => Ok (inl (<[TypeName elem := nestedTy]> atys))
          | NestedBlock_TUPLE => Ok (inl (<[TypeName elem := cty_DynamicPseudoType]> atys))
          | NestedBlock_LIST =>
              if HasDynamicTypes nestedTy then
                Ok (inr (schemaErrorf (Field_FullName field)
                  "can't use (hcl.block).kind = LIST with a block type containing an attribute with an 'any' constraint"))
              else Ok (inl (<[TypeName elem := cty_List nestedTy]> atys))
          | NestedBlock_SET =>
              if HasDynamicTypes nestedTy then
                Ok (inr (schemaErrorf (Field_FullName field)
                  "can't use (hcl.block).kind = SET with a block type containing an attribute with an 'any' constraint"))
              else Ok (inl (<[TypeName elem := cty_Set nestedTy]> atys))
          | k =>
              Ok (inr (schemaErrorf (Field_FullName field)
                ("unsupported block collection kind " +:+ NestedBlock_CollectionKind_String k)))
          end
      end
  | inl (Some (ElemFlattened _)) => buildNested atys
  | inl (Some (ElemBlockLabel name)) =>
      if negb (bool_decide (Field_Kind field = StringKind)) || Field_IsList field || Field_IsMap field then
        Ok (inr (schemaErrorf (Field_FullName field) "only string fields can be used for block labels"))
      else Ok (inl (<[name := cty_String]> atys))
  end.

Definition atysNil : AtysFn := λ _, nilDeref.

Fixpoint buildObjectTypeAtysFields (build : MessageDescriptor → AtysFn)
    (fields : list FieldDescriptor) (atys : gmap string CtyType)
    : outcome (gmap string CtyType + schemaError) :=
  match fields with
  | [] => Ok (inl atys)
  | field :: rest =>
      let! r := buildObjectTypeAtysField (nestedOf build atysNil field) field atys in
      match r with
      | inr err => Ok (inr err)
      | inl atys => buildObjectTypeAtysFields build rest atys
      end
  end.

(** [buildObjectTypeAtysForMessageDesc]. *)
Fixpoint buildObjectTypeAtysForMessageDesc (desc : MessageDescriptor) : AtysFn :=
  λ atys, buildObjectTypeAtysFields buildObjectTypeAtysForMessageDesc (Message_Fields desc) atys.

(** [ObjectTypeConstraintForMessageDesc]. *)
Definition ObjectTypeConstraintForMessageDesc (desc : MessageDescriptor)
    : outcome (CtyType + schemaError) :=
  ObjectTypeConstraintWith (buildObjectTypeAtysForMessageDesc desc).

End ObjectType.

(** ** Reflector *)

Section Reflector.
Context `{Host}.

(** [objectValueForMessage] and [buildObjectValueAttrsForMessage] once
    the descriptor of [msg] is fixed. *)
Definition ObjFn : Type := Message → Path → outcome (Value + error).
Definition AttrsFn : Type :=
  Message → Path → gmap string Value → outcome (gmap string Value + error).

Definition objNil : ObjFn := λ _ _, nilDeref.
Definition attrsNil : AttrsFn := λ _ _ _, nilDeref.

(** [objectValueForMessage], given [buildObjectValueAttrsForMessage] for
    the descriptor of the message. *)
Definition objectValueForMessageWith (build : AttrsFn) : ObjFn :=
  λ msg path,
    let! r := build msg path ∅ in
    match r with
    | inr err => Ok (inr err)
    | inl attrs => Ok (inl (ObjectVal attrs))
    end.

(** [Value.Message] and [Value.List] of protoreflect: a value of another
    type makes them panic. *)
Definition ProtoValue_Message (v : ProtoValue) : outcome Message :=
  match v with
  | PVMessage m => Ok m
  | _ => Panic "type mismatch: cannot convert to message"
  end.

Definition ProtoValue_List (v : ProtoValue) : outcome (list ProtoValue) :=
  match v with
  | PVList l => Ok l
  | _ => Panic "type mismatch: cannot convert to list"
  end.

(** [hclValueForProtoFieldValue]; [objectValueForMessage] reflects a
    message held by the field. *)
Fixpoint hclValueForProtoFieldValue (objectValueForMessage : ObjFn) (val : ProtoValue)
    (path : Path) (attr : FieldAttribute) (subElem : bool) {struct val}
    : outcome (Value + error) :=
  match val with
  | PVBool raw => Ok (inl (BoolVal raw))
  | PVInt32 raw => Ok (inl (NumberIntVal raw))
  | PVInt64 raw => Ok (inl (NumberIntVal raw))
  | PVUint32 raw => Ok (inl (NumberUIntVal raw))
  | PVUint64 raw => Ok (inl (NumberUIntVal raw))
  | PVFloat32 raw => Ok (inl (NumberFloatVal raw))
  | PVFloat64 raw => Ok (inl (NumberFloatVal raw))
  | PVString raw => Ok (inl (StringVal raw))
  | PVBytes raw =>
      if subElem then
        Ok (inr (ErrSchema (schemaErrorf (Field_FullName (TargetField attr))
          "can only use bytes directly as a raw field, not as element of collection in another field")))
      else if (length raw =? 0)%nat then
        Ok (inl (NullVal cty_DynamicPseudoType))
      else
        let '(ty, diags) := TypeConstraint attr in
        if HasErrors diags then
          Ok (inr (ErrSchema (schemaErrorf (Field_FullName (TargetField attr))
            "invalid type constraint expression")))
        else
          let decode :=
            match RawMode attr with
            | Attribute_JSON => Some ctyjson_Unmarshal
            | Attribute_MESSAGEPACK => Some ctymsgpack_Unmarshal
            | _ => None
            end in
          match decode with
          | None =>
              Ok (inr (ErrSchema (schemaErrorf (Field_FullName (TargetField attr))
                ("unsupported raw mode " +:+ Attribute_RawMode_String (RawMode attr)))))
          | Some decode =>
              match decode raw ty with
              | inr err =>
                  Ok (inr (ErrPath path
                    ("invalid encoding of " +:+ Type_FriendlyName ty +:+ " value as bytes: " +:+ err)))
              | inl v => Ok (inl v)
              end
          end
  | PVEnum _ =>
      Ok (inr (ErrSchema (schemaErrorf (Field_FullName (TargetField attr))
        "can't convert enum value to HCL value yet")))
  | PVMessage raw => objectValueForMessage raw path
  | PVList raw =>
      match raw with
      | [] => Ok (inl EmptyTupleVal)
      | _ =>
          let! r :=
            (fix elemsFrom (raw : list ProtoValue) (i : Z) (elems : list Value)
                 : outcome (list Value + error) :=
               match raw with
               | [] => Ok (inl elems)
               | elem :: rest =>
                   let path := path ++ [IndexStep (NumberIntVal i)] in
                   let! r := hclValueForProtoFieldValue objectValueForMessage elem path attr true in
                   match r with
                   | inr err => Ok (inr err)
                   | inl elemVal => elemsFrom rest (i + 1)%Z (elems ++ [elemVal])
                   end
               end) raw 0%Z [] in
          match r with
          | inr err => Ok (inr err)
          | inl elems => Ok (inl (TupleVal elems))
          end
      end
  | PVMap raw =>
      match raw with
      | [] => Ok (inl EmptyObjectVal)
      | _ =>
          let! r :=
            (fix attrsFrom (raw : list (MapKey * ProtoValue)) (attrs : gmap string Value)
                 : outcome (gmap string Value + error) :=
               match raw with
               | [] => Ok (inl attrs)
               | (protoK, protoV) :: rest =>
                   match protoK with
                   | MapKeyString k =>
                       let path := path ++ [IndexStep (StringVal k)] in
                       let! r := hclValueForProtoFieldValue objectValueForMessage protoV path attr true in
                       match r with
                       | inr err => Ok (inr err)
                       | inl v => attrsFrom rest (<[k := v]> attrs)
                       end
                   | _ =>
                       Ok (inr (ErrSchema (schemaErrorf (Field_FullName (TargetField attr))
                         "HCL doesn't support non-string map keys")))
                   end
               end) raw ∅ in
          match r with
          | inr err => Ok (inr err)
          | inl attrs => Ok (inl (ObjectVal attrs))
          end
      end
  | PVInvalid =>
      Ok (inr (ErrSchema (schemaErrorf (Field_FullName (TargetField attr))
        "can't convert <nil> to HCL value")))
  end.

(** The loop over the elements of a repeated nested-block field. *)
Fixpoint reflectNestedElems (objectValueForMessage : ObjFn) (msgList : list ProtoValue)
    (path : Path) (elems : list Value) : outcome (list Value + error) :=
  match msgList with
  | [] => Ok (inl elems)
  | item :: rest =>
      let! nestedMsg := ProtoValue_Message item in
      let! r := objectValueForMessage nestedMsg path in
      match r with
      | inr err => Ok (inr err)
      | inl nestedObj => reflectNestedElems objectValueForMessage rest path (elems ++ [nestedObj])
      end
  end.

(** The nested-block case of [buildObjectValueAttrsForMessage]. *)
Definition reflectNestedBlock (objNested : ObjFn) (field : FieldDescriptor)
    (elem : FieldNestedBlockType) (msg : Message) (path : Path) (attrs : gmap string Value)
    : outcome (gmap string Value + error) :=
  let path := path ++ [GetAttrStep (TypeName elem)] in
  if bool_decide (CollectionKind elem = NestedBlock_AUTO) then
    let! nestedMsg := ProtoValue_Message (Message_Get msg field) in
    let! r := objNested nestedMsg path in
    match r with
    | inr err => Ok (inr err)
    | inl nestedObj => Ok (inl (<[TypeName elem := nestedObj]> attrs))
    end
  else
    let! msgList := ProtoValue_List (Message_Get msg field) in
    let! r := reflectNestedElems objNested msgList path [] in
    match r with
    | inr err => Ok (inr err)
    | inl elems =>
        match CollectionKind elem with
        | NestedBlock_TUPLE => Ok (inl (<[TypeName elem := TupleVal elems]> attrs))
        | NestedBlock_LIST =>
            if (length elems =? 0)%nat then
              match Field_Message field with
              | None => nilDeref
              | Some nested =>
                  let! r := ObjectTypeConstraintForMessageDesc nested in
                  match r with
                  | inr err => Ok (inr (ErrSchema err))
                  | inl nestedTy => Ok (inl (<[TypeName elem := ListValEmpty nestedTy]> attrs))
                  end
              end
            else
              let! v := ListVal elems in
              Ok (inl (<[TypeName elem := v]> attrs))
        | NestedBlock_SET =>
            if (length elems =? 0)%nat then
              match Field_Message field with
              | None => nilDeref
              | Some nested =>
                  let! r := ObjectTypeConstraintForMessageDesc nested in
                  match r with
                  | inr err => Ok (inr (ErrSchema err))
                  | inl nestedTy => Ok (inl (<[TypeName elem := SetValEmpty nestedTy]> attrs))
                  end
              end
            else
              let! v := cty_SetVal elems in
              Ok (inl (<[TypeName elem := v]> attrs))
        | k =>
            Ok (inr (ErrSchema (schemaErrorf (Field_FullName field)
              ("unsupported collection kind " +:+ NestedBlock_CollectionKind_String k))))
        end
    end.

(** One turn of the loop of [buildObjectValueAttrsForMessage].
    [objNested] and [buildNested] reflect messages of the message type
    of the field; [objValue] reflects a message held by an attribute
    field (the value type, for a map). *)
Definition buildObjectValueAttrsField (objNested objValue : ObjFn) (buildNested : AttrsFn)
    (field : FieldDescriptor) (msg : Message) (path : Path) (attrs : gmap string Value)
    : outcome (gmap string Value + error) :=
  let! elem := GetFieldElem field in
  match elem with
  | inr err => Ok (inr (ErrSchema err))
  | inl None => Ok (inl attrs)
  | inl (Some (ElemAttribute elem)) =>
      let path := path ++ [GetAttrStep (Name elem)] in
      let! r := hclValueForProtoFieldValue objValue (Message_Get msg field) path elem false in
      match r with
      | inr err => Ok (inr err)
      | inl v =>
          let '(ty, diags) := TypeConstraint elem in
          if HasErrors diags then
            Ok (inr (ErrSchema (schemaErrorf (Field_FullName field)
              "invalid type constraint expression")))
          else
            match convert_Convert v ty with
            | inr err =>
                Ok (inr (ErrPath path
                  ("invalid encoding of " +:+ Type_FriendlyName ty +:+ " value as "
                   +:+ Kind_String (Field_Kind field) +:+ ": " +:+ err)))
            | inl v => Ok (inl (<[Name elem := v]> attrs))
            end
      end
  | inl (Some (ElemNestedBlockType elem)) => reflectNestedBlock objNested field elem msg path attrs
  | inl (Some (ElemFlattened _)) =>
      let! nestedMsg := ProtoValue_Message (Message_Get msg field) in
      buildNested nestedMsg path attrs
  | inl (Some (ElemBlockLabel name)) =>
      match Message_Get msg field with
      | PVString labelVal => Ok (inl (<[name := StringVal labelVal]> attrs))
      | _ =>
          Ok (inr (ErrSchema (schemaErrorf (Field_FullName field)
            "only string fields can be used for block labels")))
      end
  end.

(** The message type whose values an attribute field holds: its own, or
    that of its map values. *)
Definition valueMessageOf {A : Type} (rec : MessageDescriptor → A) (nil : A)
    (field : FieldDescriptor) : A :=
  match field with
  | MkField _ _ _ (MessageType _ m) _ => rec m
  | MkField _ _ _ (MapEntryType _ (MkField _ _ _ (MessageType _ m) _)) _ => rec m
  | _ => nil
  end.

Fixpoint buildObjectValueAttrsFields (build : MessageDescriptor → AttrsFn)
    (fields : list FieldDescriptor) (msg : Message) (path : Path) (attrs : gmap string Value)
    : outcome (gmap string Value + error) :=
  match fields with
  | [] => Ok (inl attrs)
  | field :: rest =>
      let! r :=
        buildObjectValueAttrsField
          (nestedOf (λ m, objectValueForMessageWith (build m)) objNil field)
          (valueMessageOf (λ m, objectValueForMessageWith (build m)) objNil field)
          (nestedOf build attrsNil field)
          field msg path attrs in
      match r with
      | inr err => Ok (inr err)
      | inl attrs => buildObjectValueAttrsFields build rest msg path attrs
      end
  end.

(** [buildObjectValueAttrsForMessage], for a message of descriptor
    [desc]. *)
Fixpoint buildObjectValueAttrsForMessage (desc : MessageDescriptor) : AttrsFn :=
  λ msg path attrs,
    buildObjectValueAttrsFields buildObjectValueAttrsForMessage (Message_Fields desc) msg path attrs.

(** [objectValueForMessage]. *)
Definition objectValueForMessage (desc : MessageDescriptor) : ObjFn :=
  objectValueForMessageWith (buildObjectValueAttrsForMessage desc).

(** [ObjectValueForMessage]. *)
Definition ObjectValueForMessage (desc : MessageDescriptor) (msg : Message)
    : outcome (Value + error) :=
  objectValueForMessage desc msg [].

End Reflector.

(** ** attrValueError *)

Record attrValueError : Type := MkAttrValueError {
  attrValueError_Err : Path * string
}.

(** [attrValueError.Error]: the body of the method is a call of the
    method on the same receiver. [fuel] bounds the depth of the calls;
    [None] is a call that has not returned within it. *)
Fixpoint attrValueError_Error (fuel : nat) (err : attrValueError) : option string :=
  match fuel with
  | O => None
  | S fuel => attrValueError_Error fuel err
  end.

(** [attrValueError.Unwrap] followed by [Error]: the message of the
    underlying path error. *)
Definition attrValueError_Unwrap_Error (err : attrValueError) : string :=
  snd (attrValueError_Err err).

(** ** A small host and the descriptors of the package's tests

    Stand-ins for the collaborators, enough to run the decoder and the
    reflector on the bodies and messages of the package's own tests. *)

Fixpoint basicFriendlyName (ty : CtyType) : string :=
  match ty with
  | cty_NilType => "invalid type"
  | cty_DynamicPseudoType => "dynamic"
  | cty_Bool => "bool"
  | cty_Number => "number"
  | cty_String => "string"
  | cty_List ety => "list of " +:+ basicFriendlyName ety
  | cty_Set ety => "set of " +:+ basicFriendlyName ety
  | cty_Map ety => "map of " +:+ basicFriendlyName ety
  | cty_Tuple _ => "tuple"
  | cty_ObjectOf _ => "object"
  end.

(** Conversion of primitives, of null and unknown, and of anything to
    its own type or to the dynamic pseudo-type. *)
Definition basicConvert (v : Value) (want : CtyType) : Value + string :=
  if isDynamicPseudoType want then inl v
  else if Type_Equals (Value_Type v) want then inl v
  else
    match v, want with
    | UnknownVal _, _ => inl (UnknownVal want)
    | NullVal _, _ => inl (NullVal want)
    | BoolVal true, cty_String => inl (StringVal "true")
    | BoolVal false, cty_String => inl (StringVal "false")
    | NumberVal (Finite q), cty_String =>
        if BigFloat_IsInt (Finite q) then inl (StringVal (fmt_d (Z.quot (Qnum q) (Zpos (Qden q)))))
        else inr "string required"
    | StringVal "true", cty_Bool => inl (BoolVal true)
    | StringVal "false", cty_Bool => inl (BoolVal false)
    | _, _ => inr (basicFriendlyName want +:+ " required")
    end.

(** Type expressions: the four keywords and the collections of string. *)
Definition basicTypeConstraint (src : string) : CtyType * Diagnostics :=
  if String.eqb src "bool" then (cty_Bool, [])
  else if String.eqb src "number" then (cty_Number, [])
  else if String.eqb src "string" then (cty_String, [])
  else if String.eqb src "any" then (cty_DynamicPseudoType, [])
  else if String.eqb src "list(string)" then (cty_List cty_String, [])
  else if String.eqb src "set(string)" then (cty_Set cty_String, [])
  else if String.eqb src "map(string)" then (cty_Map cty_String, [])
  else (cty_DynamicPseudoType,
        [ {| Severity := DiagError; Summary := "Invalid type specification";
             Detail := "A type specification is required."; Subject := None; Context := None |} ]).

(** A raw encoding with a one-byte tag: enough to tell values apart. *)
Definition basicMarshal (v : Value) (ty : CtyType) : list byte + string :=
  match v with
  | BoolVal true => inl [x01; x01]
  | BoolVal false => inl [x01; x00]
  | StringVal s => inl (x02 :: list_byte_of_string s)
  | NumberVal (Finite q) =>
      if BigFloat_IsInt (Finite q) then
        inl (x03 :: list_byte_of_string (fmt_d (Z.quot (Qnum q) (Zpos (Qden q)))))
      else inr "number is not whole"
  | _ => inr "value cannot be encoded"
  end.

Definition basicUnmarshal (raw : list byte) (ty : CtyType) : Value + string :=
  match raw with
  | [x01; x01] => inl (BoolVal true)
  | [x01; x00] => inl (BoolVal false)
  | x02 :: rest => inl (StringVal (string_of_list_byte rest))
  | _ => inr "invalid encoding"
  end.

Definition basicSetVal (vals : list Value) : outcome Value :=
  match vals with
  | [] => Panic "must not call SetVal with empty slice"
  | _ =>
      match unifyElementTypes cty_DynamicPseudoType vals with
      | Some ety => Ok (SetValOf ety vals)
      | None => Panic "inconsistent set element types"
      end
  end.

#[local] Instance basicHost : Host := {|
  SyntaxExpr := string;
  hclsyntax_ParseExpression := λ src, (src, []);
  typeexpr_TypeConstraint := basicTypeConstraint;
  convert_Convert := basicConvert;
  ctyjson_Marshal := basicMarshal;
  ctyjson_Unmarshal := basicUnmarshal;
  ctymsgpack_Marshal := basicMarshal;
  ctymsgpack_Unmarshal := basicUnmarshal;
  Type_FriendlyName := basicFriendlyName;
  cty_SetVal := basicSetVal
|}.

(** Bodies in the manner of the native syntax: a body holds attributes
    and blocks; [Content] hands out what the schema names, reports the
    rest, and reads the schema through its pointer. *)
Inductive SyntaxBody : Type :=
  MkSyntaxBody (attributes : list HclAttribute) (blocks : list SyntaxBlock)
               (missingItemRange : Range)
with SyntaxBlock : Type :=
  MkSyntaxBlock (type : string) (labels : list string) (body : SyntaxBody)
                (defRange typeRange : Range).

Definition schemaHasAttribute (schema : BodySchema) (name : string) : bool :=
  existsb (λ a, String.eqb (AttributeSchema_Name a) name) (Schema_Attributes schema).

Definition schemaBlock (schema : BodySchema) (type : string) : option BlockHeaderSchema :=
  List.find (λ b, String.eqb (BlockHeaderSchema_Type b) type) (Schema_Blocks schema).

Definition syntaxAttributes (schema : BodySchema) (attributes : list HclAttribute)
    : gmap string HclAttribute * Diagnostics :=
  fold_left
    (λ acc attr,
       if schemaHasAttribute schema (HclAttribute_Name attr) then
         (<[HclAttribute_Name attr := attr]> (fst acc), snd acc)
       else
         (fst acc,
          snd acc ++ [ {| Severity := DiagError; Summary := "Unsupported argument";
                          Detail := "An argument named " +:+ fmt_q (HclAttribute_Name attr)
                                    +:+ " is not expected here.";
                          Subject := Some (HclAttribute_NameRange attr); Context := None |} ]))
    attributes (∅, []).

Definition missingAttributes (schema : BodySchema) (attributes : gmap string HclAttribute)
    (missingItemRange : Range) : Diagnostics :=
  flat_map
    (λ a,
       if AttributeSchema_Required a
          && negb (bool_decide (is_Some (attributes !! AttributeSchema_Name a))) then
         [ {| Severity := DiagError; Summary := "Missing required argument";
              Detail := "The argument " +:+ fmt_q (AttributeSchema_Name a)
                        +:+ " is required, but no definition was found.";
              Subject := Some missingItemRange; Context := None |} ]
       else [])
    (Schema_Attributes schema).

Fixpoint syntaxBody (b : SyntaxBody) : Body :=
  let 'MkSyntaxBody attributes blocks missingItemRange := b in
  MkBody
    (λ schema,
       match schema with
       | None => nilDeref
       | Some schema =>
           let '(attrs, attrDiags) := syntaxAttributes schema attributes in
           let blocksAndDiags :=
             (fix walk (blocks : list SyntaxBlock) : list Block * Diagnostics :=
                match blocks with
                | [] => ([], [])
                | MkSyntaxBlock type labels body defRange typeRange :: rest =>
                    let '(out, diags) := walk rest in
                    match schemaBlock schema type with
                    | None =>
                        (out,
                         {| Severity := DiagError; Summary := "Unsupported block type";
                            Detail := "Blocks of type " +:+ fmt_q type +:+ " are not expected here.";
                            Subject := Some typeRange; Context := None |} :: diags)
                    | Some blockS =>
                        if (length labels =? length (BlockHeaderSchema_LabelNames blockS))%nat then
                          (MkBlock type labels (syntaxBody body) defRange typeRange :: out, diags)
                        else
                          (out,
                           {| Severity := DiagError;
                              Summary := "Wrong number of labels for " +:+ type;
                              Detail := "The labels of the block do not match its type.";
                              Subject := Some typeRange; Context := Some defRange |} :: diags)
                    end
                end) blocks in
           Ok (MkBodyContent attrs (fst blocksAndDiags),
               attrDiags ++ missingAttributes schema attrs missingItemRange ++ snd blocksAndDiags)
       end)
    missingItemRange.

Definition pos (line column byte : Z) : Pos := MkPos line column byte.
Definition rangeAt (line column byte width : Z) : Range :=
  MkRange "test.tf" (pos line column byte) (pos line (column + width) (byte + width)).

(** An attribute [name = value] on the given line. *)
Definition literalAttribute (name : string) (val : Value) (line : Z) : HclAttribute :=
  {| HclAttribute_Name := name;
     HclAttribute_Expr := {| Expr_Value := λ _, (val, []); Expr_Range := rangeAt line 11 11 4 |};
     HclAttribute_Range := rangeAt line 5 5 10;
     HclAttribute_NameRange := rangeAt line 5 5 3 |}.

Definition attrOptions (name : string) (required : bool) (type : string)
    (raw : Attribute_RawMode) : option FieldOptions :=
  Some {| E_Attr := Some (MkAttribute name required type raw);
          E_Block := None; E_Flatten := false; E_Label := None |}.

Definition blockOptions (typeName : string) (kind : NestedBlock_CollectionKind)
    : option FieldOptions :=
  Some {| E_Attr := None; E_Block := Some (MkNestedBlock typeName kind);
          E_Flatten := false; E_Label := None |}.

Definition labelOptions (name : string) : option FieldOptions :=
  Some {| E_Attr := None; E_Block := None; E_Flatten := false;
          E_Label := Some (MkBlockLabel name) |}.

Definition flattenOptions : option FieldOptions :=
  Some {| E_Attr := None; E_Block := None; E_Flatten := true; E_Label := None |}.

(** message WithStringAttr { string name = 1 [(hcl.attr).name = "name"]; } *)
Definition WithStringAttr : MessageDescriptor :=
  MkMessage "hcl.testschema.WithStringAttr" []
    [ MkField "hcl.testschema.WithStringAttr.name" 1 Optional (ScalarType StringKind)
        (attrOptions "name" false EmptyString Attribute_NOT_RAW) ].

Definition WithRawDynamicAttr : MessageDescriptor :=
  MkMessage "hcl.testschema.WithRawDynamicAttr" []
    [ MkField "hcl.testschema.WithRawDynamicAttr.raw" 1 Optional (ScalarType BytesKind)
        (attrOptions "raw" false "any" Attribute_JSON) ].

Definition WithNumberAttrAsInt32 : MessageDescriptor :=
  MkMessage "hcl.testschema.WithNumberAttrAsInt32" []
    [ MkField "hcl.testschema.WithNumberAttrAsInt32.num" 1 Optional (ScalarType Int32Kind)
        (attrOptions "num" false EmptyString Attribute_NOT_RAW) ].

Definition WithNumberAttrAsUint32 : MessageDescriptor :=
  MkMessage "hcl.testschema.WithNumberAttrAsUint32" []
    [ MkField "hcl.testschema.WithNumberAttrAsUint32.num" 1 Optional (ScalarType Uint32Kind)
        (attrOptions "num" false EmptyString Attribute_NOT_RAW) ].

Definition WithOneBlockLabel : MessageDescriptor :=
  MkMessage "hcl.testschema.WithOneBlockLabel" []
    [ MkField "hcl.testschema.WithOneBlockLabel.name" 1 Optional (ScalarType StringKind)
        (labelOptions "name");
      MkField "hcl.testschema.WithOneBlockLabel.nickname" 2 Optional (ScalarType StringKind)
        (attrOptions "nickname" false EmptyString Attribute_NOT_RAW) ].

Definition WithNestedBlockNoLabelsSingleton : MessageDescriptor :=
  MkMessage "hcl.testschema.WithNestedBlockNoLabelsSingleton" []
    [ MkField "hcl.testschema.WithNestedBlockNoLabelsSingleton.doodad" 1 Optional
        (MessageType false WithStringAttr) (blockOptions "doodad" NestedBlock_AUTO) ].

Definition WithNestedBlockOneLabelRepeated : MessageDescriptor :=
  MkMessage "hcl.testschema.WithNestedBlockOneLabelRepeated" []
    [ MkField "hcl.testschema.WithNestedBlockOneLabelRepeated.doodad" 1 Repeated
        (MessageType false WithOneBlockLabel) (blockOptions "doodad" NestedBlock_LIST) ].

Definition WithFlattenStringAttr : MessageDescriptor :=
  MkMessage "hcl.testschema.WithFlattenStringAttr" []
    [ MkField "hcl.testschema.WithFlattenStringAttr.base" 1 Optional
        (MessageType false WithStringAttr) flattenOptions;
      MkField "hcl.testschema.WithFlattenStringAttr.species" 2 Optional (ScalarType StringKind)
        (attrOptions "species" false EmptyString Attribute_NOT_RAW) ].

(** message Root of the schema test: an attribute and a block type whose
    label carries the name of the attribute. *)
Definition Thing : MessageDescriptor :=
  MkMessage "hcl.testschema.Thing" []
    [ MkField "hcl.testschema.Thing.name" 1 Optional (ScalarType StringKind)
        (labelOptions "name") ].

Definition Root : MessageDescriptor :=
  MkMessage "hcl.testschema.Root" []
    [ MkField "hcl.testschema.Root.name" 1 Optional (ScalarType StringKind)
        (attrOptions "name" false EmptyString Attribute_NOT_RAW);
      MkField "hcl.testschema.Root.things" 2 Repeated (MessageType false Thing)
        (blockOptions "thing" NestedBlock_AUTO) ].

(** ** The specification's own tables

    Definitions in the words of the specification, to state what the
    functions above are compared with. *)

(** The primitive type of a field kind: bool for bool, number for every
    integer and floating kind, string for string and enum. *)
Definition primitiveForKind (k : Kind) : option CtyType :=
  match k with
  | BoolKind => Some cty_Bool
  | Int32Kind | Sint32Kind | Uint32Kind | Int64Kind | Sint64Kind | Uint64Kind
  | Sfixed32Kind | Fixed32Kind | Sfixed64Kind | Fixed64Kind | FloatKind | DoubleKind =>
      Some cty_Number
  | StringKind | EnumKind => Some cty_String
  | _ => None
  end.

(** The field whose kind is the element kind: the value field of a map,
    the field itself otherwise. *)
Definition elementField (field : FieldDescriptor) : FieldDescriptor :=
  match Field_MapValue field with
  | Some v => v
  | None => field
  end.

(** The inclusive bounds of the 32- and 64-bit integer kinds. *)
Definition integerBounds (k : Kind) : option (Z * Z) :=
  match k with
  | Int32Kind | Sint32Kind | Sfixed32Kind => Some (MinInt32, MaxInt32)
  | Int64Kind | Sint64Kind | Sfixed64Kind => Some (MinInt64, MaxInt64)
  | Uint32Kind | Fixed32Kind => Some (0%Z, MaxUint32)
  | Uint64Kind | Fixed64Kind => Some (0%Z, MaxUint64)
  | _ => None
  end.

(** [pv] is the value of the attribute in the content: evaluated,
    converted to the declared constraint, found not null, converted to
    the physical constraint and encoded for the field, with no error
    reported at any stage. *)
Definition convertedAttributeValue `{Host} (content : BodyContent) (ctx : option EvalContext)
    (field : FieldDescriptor) (elem : FieldAttribute) (pv : ProtoValue) : Prop :=
  ∃ attr val d0 wantTy dT val1 needTy err val2 dP,
    Content_Attributes content !! Name elem = Some attr
    ∧ Expr_Value (HclAttribute_Expr attr) ctx = (val, d0) ∧ HasErrors d0 = false
    ∧ TypeConstraint elem = (wantTy, dT) ∧ HasErrors dT = false
    ∧ convert_Convert val wantTy = inl val1 ∧ IsNull val1 = false
    ∧ valuePhysicalConstraintForFieldKind (Value_Type val1) field = (needTy, err)
    ∧ convert_Convert val1 needTy = inl val2
    ∧ protoValueForField val2 (Expr_Range (HclAttribute_Expr attr)) field = Ok (pv, dP)
    ∧ HasErrors dP = false.

(** The state of a field in a message decoded from [content] into a new
    message: cleared ([None]), or holding a value that was complete when
    it was stored. *)
Definition fieldSettled `{Host} (content : BodyContent) (missingRange : Range)
    (ctx : option EvalContext) (recovering : bool) (field : FieldDescriptor)
    (state : option ProtoValue) : Prop :=
  match GetFieldElem field with
  | Ok (inl (Some (ElemAttribute elem))) =>
      state = None
      ∨ ∃ pv, state = Some pv ∧ convertedAttributeValue content ctx field elem pv
  | Ok (inl (Some (ElemNestedBlockType elem))) =>
      state = None
      ∨ (Repeated_ elem = false
         ∧ ∃ block nestedMsg diags,
             block ∈ Content_Blocks content
             ∧ Block_Type block = TypeName elem
             ∧ newMessageForBlock (fillMessageFromContent (Nested elem)) block elem ctx
               = Ok (nestedMsg, diags)
             ∧ state = Some (PVMessage nestedMsg))
  | Ok (inl (Some (ElemFlattened nested))) =>
      ∃ nestedMsg diags,
        fillMessageFromContent nested content missingRange (newMessageMaybeDynamic nested)
          ctx recovering = Ok (nestedMsg, diags)
        ∧ state = Some (PVMessage nestedMsg)
  | _ => state = None
  end.

(** Conversion of a null value fails or gives a null value. *)
Definition convertKeepsNull `{Host} : Prop :=
  ∀ v ty v', IsNull v = true → convert_Convert v ty = inl v' → IsNull v' = true.

(** The diagnostic of the integer checks. *)
Definition integerDiagnostic (detail : string) (rng : Range) : Diagnostic :=
  {| Severity := DiagError; Summary := unsuitableValueSummary; Detail := detail;
     Subject := Some rng; Context := None |}.

(** The number of the out-of-range scenario of the package's tests, and
    a content whose one attribute [num] is a given number. *)
Definition aboveInt32 : Z := 314159265358979323846264338327950288419716939937510582097494459.

Definition numContent (q : Q) : BodyContent :=
  MkBodyContent {[ "num" := literalAttribute "num" (NumberVal (Finite q)) 2 ]} [].

(** Two attributes of one name: the schema does not compile. *)
Definition Conflicting : MessageDescriptor :=
  MkMessage "hcl.testschema.Conflicting" []
    [ MkField "hcl.testschema.Conflicting.first" 1 Optional (ScalarType StringKind)
        (attrOptions "name" false EmptyString Attribute_NOT_RAW);
      MkField "hcl.testschema.Conflicting.second" 2 Optional (ScalarType StringKind)
        (attrOptions "name" false EmptyString Attribute_NOT_RAW) ].

(** The attribute names the reflector writes for a message: the names of
    its attributes, block types and labels, and those of its flattened
    messages. *)
Definition writtenNamesField (rec : MessageDescriptor → list string)
    (field : FieldDescriptor) : list string :=
  match GetFieldElem field with
  | Ok (inl (Some (ElemAttribute elem))) => [Name elem]
  | Ok (inl (Some (ElemNestedBlockType elem))) => [TypeName elem]
  | Ok (inl (Some (ElemFlattened _))) => nestedOf rec [] field
  | Ok (inl (Some (ElemBlockLabel name))) => [name]
  | _ => []
  end.

Fixpoint writtenNamesFields (rec : MessageDescriptor → list string)
    (fields : list FieldDescriptor) : list string :=
  match fields with
  | [] => []
  | field :: rest => writtenNamesField rec field ++ writtenNamesFields rec rest
  end.

Fixpoint writtenNames (desc : MessageDescriptor) : list string :=
  writtenNamesFields writtenNames (Message_Fields desc).

(** Descriptors for the reflection of lists of nested blocks. *)
Definition Leaf : MessageDescriptor := MkMessage "hcl.testschema.Leaf" [] [].

Definition WithRepeatedLeaf : MessageDescriptor :=
  MkMessage "hcl.testschema.WithRepeatedLeaf" []
    [ MkField "hcl.testschema.WithRepeatedLeaf.leaf" 1 Repeated (MessageType false Leaf)
        (blockOptions "leaf" NestedBlock_AUTO) ].

Definition WithListOfRepeatedLeaf : MessageDescriptor :=
  MkMessage "hcl.testschema.WithListOfRepeatedLeaf" []
    [ MkField "hcl.testschema.WithListOfRepeatedLeaf.doodad" 1 Repeated
        (MessageType false WithRepeatedLeaf) (blockOptions "doodad" NestedBlock_LIST) ].

Definition snakob : Message := <[1%Z := PVString "Snakob"]> (<[2%Z := PVString "Snekob"]> ∅).
Definition jackson : Message := <[1%Z := PVString "Jackson"]> (<[2%Z := PVString "doofus"]> ∅).

(** A block [doodad { name = "..." }] that opens on the given line. *)
Definition doodadBlock (name : string) (line : Z) : Block :=
  MkBlock "doodad" []
    (syntaxBody (MkSyntaxBody [literalAttribute "name" (StringVal name) (line + 1)] []
                   (rangeAt line 1 0 0)))
    (rangeAt line 4 4 6) (rangeAt line 4 4 6).

(** ** The surface schema in the words of the specification *)

(** The label names of a list of fields: the name of each label field,
    in field order. *)
Definition labelNamesField (field : FieldDescriptor) : list string :=
  match GetFieldElem field with
  | Ok (inl (Some (ElemBlockLabel name))) => [name]
  | _ => []
  end.

Definition labelNames (fields : list FieldDescriptor) : list string :=
  flat_map labelNamesField fields.

(** The block header of a nested-block element: its type name and the
    label names of the nested message. *)
Definition blockHeader (elem : FieldNestedBlockType) : BlockHeaderSchema :=
  {| BlockHeaderSchema_Type := TypeName elem;
     BlockHeaderSchema_LabelNames := labelNames (Message_Fields (Nested elem)) |}.

Definition noEntries : BodySchema := {| Schema_Attributes := []; Schema_Blocks := [] |}.

Definition mergeSchema (a b : BodySchema) : BodySchema :=
  {| Schema_Attributes := Schema_Attributes a ++ Schema_Attributes b;
     Schema_Blocks := Schema_Blocks a ++ Schema_Blocks b |}.

(** The entries of one field: an attribute, a block header, the entries
    of the flattened message, or nothing. *)
Definition surfaceField (rec : MessageDescriptor → BodySchema) (field : FieldDescriptor)
    : BodySchema :=
  match GetFieldElem field with
  | Ok (inl (Some (ElemAttribute elem))) =>
      {| Schema_Attributes := [attributeSchema elem]; Schema_Blocks := [] |}
  | Ok (inl (Some (ElemNestedBlockType elem))) =>
      {| Schema_Attributes := []; Schema_Blocks := [blockHeader elem] |}
  | Ok (inl (Some (ElemFlattened _))) => nestedOf rec noEntries field
  | _ => noEntries
  end.

Fixpoint surfaceFields (rec : MessageDescriptor → BodySchema) (fields : list FieldDescriptor)
    : BodySchema :=
  match fields with
  | [] => noEntries
  | field :: rest => mergeSchema (surfaceField rec field) (surfaceFields rec rest)
  end.

(** The surface schema of a message: the entries of its fields in
    descriptor order, those of a flattened message in the place of the
    field that flattens it. *)
Fixpoint surfaceSchema (desc : MessageDescriptor) : BodySchema :=
  surfaceFields surfaceSchema (Message_Fields desc).

(** The attribute names and the block type names of a schema. *)
Definition schemaNames (schema : BodySchema) : list string :=
  map AttributeSchema_Name (Schema_Attributes schema)
  ++ map BlockHeaderSchema_Type (Schema_Blocks schema).

(** The names one field declares in its message, labels included. *)
Definition fieldNames (field : FieldDescriptor) : list string :=
  schemaNames (surfaceField surfaceSchema field) ++ labelNamesField field.

(** The annotation of a field is in order: it resolves without error;
    the fields of the message of a nested block can be read for their
    labels; a flattened message is itself without conflicts. *)
Definition annotationInOrder (rec : MessageDescriptor → Prop) (field : FieldDescriptor) : Prop :=
  match GetFieldElem field with
  | Ok (inl (Some (ElemNestedBlockType elem))) =>
      Forall (λ f, returns (GetFieldElem f)) (Message_Fields (Nested elem))
  | Ok (inl (Some (ElemFlattened _))) => nestedOf rec False field
  | Ok (inl _) => True
  | _ => False
  end.

Fixpoint annotationsInOrder (rec : MessageDescriptor → Prop) (fields : list FieldDescriptor)
    : Prop :=
  match fields with
  | [] => True
  | field :: rest => annotationInOrder rec field ∧ annotationsInOrder rec rest
  end.

(** A descriptor without conflicts: no oneof other than synthetic ones,
    every annotation in order, and no name declared twice among its
    attribute names, block type names and label names; the same of every
    message it flattens. *)
Fixpoint noConflicts (desc : MessageDescriptor) : Prop :=
  firstRealOneof (Message_Oneofs desc) = None
  ∧ annotationsInOrder noConflicts (Message_Fields desc)
  ∧ NoDup (flat_map fieldNames (Message_Fields desc)).

(** The names in use in the registries of [bodySchema]. *)
Definition usedNames (st : schemaState) : gset string :=
  dom (attrs st) ∪ dom (blockTypes st) ∪ dom (blockLabels st).

(** The names of a list are new: no name twice, none in use. *)
Definition newNames (names : list string) (st : schemaState) : Prop :=
  NoDup names ∧ ∀ name, name ∈ names → name ∉ usedNames st.

(** [bodySchema] returns a schema exactly for the descriptors without
    conflicts, and the schema is the surface schema. *)
Definition compiles (desc : MessageDescriptor) : Prop :=
  match bodySchema desc with
  | Ok (inl schema) => (noConflicts desc ∧ schema = surfaceSchema desc)
  | _ => ¬ noConflicts desc
  end.

(** A message whose two attributes are the members of a oneof. *)
Definition WithOneof : MessageDescriptor :=
  MkMessage "hcl.testschema.WithOneof"
    [ {| Oneof_FullName := "hcl.testschema.WithOneof.choice"; Oneof_IsSynthetic := false |} ]
    [ MkField "hcl.testschema.WithOneof.left" 1 Optional (ScalarType StringKind)
        (attrOptions "left" false EmptyString Attribute_NOT_RAW);
      MkField "hcl.testschema.WithOneof.right" 2 Optional (ScalarType StringKind)
        (attrOptions "right" false EmptyString Attribute_NOT_RAW) ].

(** The number of annotation payloads set on a field. *)
Definition payloadCount (opts : FieldOptions) : nat :=
  (if attrSet (E_Attr opts) then 1 else 0)
  + (if blockSet (E_Block opts) then 1 else 0)
  + (if E_Flatten opts then 1 else 0)
  + (if labelSet (E_Label opts) then 1 else 0).

(** message WithFloatAttr { float ratio = 1 [(hcl.attr).name = "ratio"]; } *)
Definition WithFloatAttr : MessageDescriptor :=
  MkMessage "hcl.testschema.WithFloatAttr" []
    [ MkField "hcl.testschema.WithFloatAttr.ratio" 1 Optional (ScalarType FloatKind)
        (attrOptions "ratio" false EmptyString Attribute_NOT_RAW) ].

(** A value a scalar field of kind [k] stores as it is: a bool for a
    bool field, a string for a string field, a whole number within the
    bounds of the kind for a 32- or 64-bit integer field. *)
Definition storableScalar (k : Kind) (v : Value) : Prop :=
  match v with
  | BoolVal _ => k = BoolKind
  | StringVal _ => k = StringKind
  | NumberVal (Finite q) =>
      ∃ z lo hi, q = inject_Z z ∧ integerBounds k = Some (lo, hi) ∧ (lo ≤ z ≤ hi)%Z
  | _ => False
  end.

(** The diagnostic of a required attribute that the content lacks. *)
Definition missingArgumentDiagnostic (name : string) (missingRange : Range) : Diagnostic :=
  {| Severity := DiagError;
     Summary := "Missing required argument";
     Detail := "The argument " +:+ fmt_q name +:+ " is required, but no definition was found.";
     Subject := Some missingRange; Context := None |}.

(** message WithRequiredAttr { string name = 1 [(hcl.attr) = { name: "name", required: true }]; } *)
Definition WithRequiredAttr : MessageDescriptor :=
  MkMessage "hcl.testschema.WithRequiredAttr" []
    [ MkField "hcl.testschema.WithRequiredAttr.name" 1 Optional (ScalarType StringKind)
        (attrOptions "name" true EmptyString Attribute_NOT_RAW) ].

(** A message with a field annotated both as an attribute and as a
    block label, before a string attribute. *)
Definition WithBrokenField : MessageDescriptor :=
  MkMessage "hcl.testschema.WithBrokenField" []
    [ MkField "hcl.testschema.WithBrokenField.both" 1 Optional (ScalarType StringKind)
        (Some {| E_Attr := Some (MkAttribute "both" false EmptyString Attribute_NOT_RAW);
                 E_Block := None; E_Flatten := false;
                 E_Label := Some (MkBlockLabel "both") |});
      MkField "hcl.testschema.WithBrokenField.name" 2 Optional (ScalarType StringKind)
        (attrOptions "name" false EmptyString Attribute_NOT_RAW) ].

(** The label fields of a message: the fields that resolve to a block
    label, in field order. *)
Definition isLabelField (field : FieldDescriptor) : bool :=
  match GetFieldElem field with
  | Ok (inl (Some (ElemBlockLabel _))) => true
  | _ => false
  end.

Definition labelFields (fields : list FieldDescriptor) : list FieldDescriptor :=
  List.filter isLabelField fields.

(** A block [doodad "label" { nickname = "..." }] in the native syntax. *)
Definition labelledDoodad (label nickname : string) (line : Z) : SyntaxBlock :=
  MkSyntaxBlock "doodad" [label]
    (MkSyntaxBody [literalAttribute "nickname" (StringVal nickname) (line + 1)] []
       (rangeAt line 1 0 0))
    (rangeAt line 4 4 6) (rangeAt line 4 4 6).

(** The same block as the decoder meets it in a content. *)
Definition labelledDoodadBlock (labels : list string) (nickname : string) (line : Z) : Block :=
  MkBlock "doodad" labels
    (syntaxBody (MkSyntaxBody [literalAttribute "nickname" (StringVal nickname) (line + 1)] []
                   (rangeAt line 1 0 0)))
    (rangeAt line 4 4 6) (rangeAt line 4 4 6).

(** The block element of [WithNestedBlockOneLabelRepeated]. *)
Definition doodadListElem : FieldNestedBlockType :=
  {| TypeName := "doodad"; Nested := WithOneBlockLabel; Repeated_ := true;
     CollectionKind := NestedBlock_LIST |}.

(** The loop of [bodySchema] up to a field: the state of the registries
    after the fields before it. *)
Fixpoint bodySchemaState (descName : string) (fields : list FieldDescriptor) (st : schemaState)
    : outcome (schemaState + schemaError) :=
  match fields with
  | [] => Ok (inl st)
  | field :: rest =>
      let! r := bodySchemaField descName (nestedOf bodySchema nilDeref field) field st in
      match r with
      | inr err => Ok (inr err)
      | inl st => bodySchemaState descName rest st
      end
  end.

(** ** Message-typed attribute fields

    The builders that decode an attribute value into a field whose
    element type is a message. *)

(** An error of the cty packages: a [cty.PathError], or another error by
    its message. *)
Inductive goError : Type :=
  | PathErr (path : Path) (message : string)
  | PlainErr (message : string).

Definition goError_Error (err : goError) : string :=
  match err with
  | PathErr _ message | PlainErr message => message
  end.

(** The collaborators of the builders: [ctystructpb.ToStructValue], and
    [formatCtyPath], which is declared outside these files. A
    [structpb.Value] message is held by its store. *)
Class StructPb : Type := MkStructPb {
  ctystructpb_ToStructValue : Value → CtyType → Message + goError;
  formatCtyPath : Path → string
}.

(** What a builder or [valueForMessageField] returns as its error: a
    schema error, an attribute-value error, or the error of
    [ToStructValue] as it is. *)
Inductive attrError : Type :=
  | AttrErrSchema (e : schemaError)
  | AttrErrValue (e : attrValueError)
  | AttrErrGo (e : goError).

(** [nilProtoValue] and [protoValueIsSet]. *)
Definition nilProtoValue : ProtoValue := PVInvalid.

Definition protoValueIsSet (pv : ProtoValue) : bool :=
  match pv with
  | PVInvalid => false
  | _ => true
  end.

(** [attrValueErrorf]: the formatted message at the path. *)
Definition attrValueErrorf (path : Path) (message : string) : attrValueError :=
  MkAttrValueError (path, message).

(** [attrValueErrorWrap]: [path.NewError(err)] in both cases of its
    switch. The new path error wraps the given error, so it has its
    message; its path is the given path, followed by the path of the
    given error when that is a path error itself. *)
Definition Path_NewError (p : Path) (err : goError) : Path * string :=
  match err with
  | PathErr perrPath _ => (p ++ perrPath, goError_Error err)
  | PlainErr _ => (p, goError_Error err)
  end.

Definition attrValueErrorWrap (path : Path) (err : goError) : attrValueError :=
  match err with
  | PathErr _ _ => MkAttrValueError (Path_NewError path err)
  | PlainErr _ => MkAttrValueError (Path_NewError path err)
  end.

(** [isMessageField]; [MapValue] is not nil exactly on a map field. *)
Definition isMessageField (attr : FieldAttribute) : bool :=
  let desc := TargetField attr in
  let desc :=
    match Field_MapValue desc with
    | Some v => v
    | None => desc
    end in
  bool_decide (Field_Kind desc = MessageKind).

(** [Type.IsCollectionType], [Type.ElementType], [Type.TupleElementType],
    [Type.HasAttribute] and [Type.AttributeType]. *)
Definition IsCollectionType (ty : CtyType) : bool :=
  IsListType ty || IsSetType ty || IsMapType ty.

Definition Type_ElementType (ty : CtyType) : outcome CtyType :=
  match ty with
  | cty_List ety | cty_Set ety | cty_Map ety => Ok ety
  | _ => Panic "not a collection type"
  end.

Definition Type_TupleElementType (ty : CtyType) (i : nat) : outcome CtyType :=
  match ty with
  | cty_Tuple etys =>
      match etys !! i with
      | Some ety => Ok ety
      | None => Panic "index out of range"
      end
  | _ => Panic "not a tuple type"
  end.

Definition Type_AttributeType (ty : CtyType) (name : string) : option CtyType :=
  match ty with
  | cty_ObjectOf atys => snd <$> List.find (λ kv, String.eqb (fst kv) name) atys
  | _ => None
  end.

(** [Value.LengthInt] of a known collection or structural value. *)
Definition Value_LengthInt (v : Value) : outcome nat :=
  match v with
  | ListValOf _ elems | SetValOf _ elems | TupleVal elems => Ok (length elems)
  | MapValOf _ elems => Ok (size (list_to_map (M := gmap string Value) elems))
  | ObjectValOf elems => Ok (size (list_to_map (M := gmap string Value) elems))
  | _ => Panic "value has no length"
  end.

(** [Value.ElementIterator], as the key and value of each step: a list
    or tuple by index, a set with each element as its own key, a map or
    object by key in lexicographical order. It panics on a value that is
    null, unknown or of another type. *)
Definition keyLe (a b : string * Value) : Prop := Is_true (String.leb a.1 b.1).

Definition Value_ElementIterator (v : Value) : outcome (list (Value * Value)) :=
  match v with
  | ListValOf _ elems | TupleVal elems =>
      Ok (imap (λ i elem, (NumberIntVal (Z.of_nat i), elem)) elems)
  | SetValOf _ elems => Ok ((λ elem, (elem, elem)) <$> elems)
  | MapValOf _ elems | ObjectValOf elems =>
      Ok ((λ kv, (StringVal kv.1, kv.2))
            <$> merge_sort keyLe (map_to_list (list_to_map (M := gmap string Value) elems)))
  | _ => Panic "can't iterate over this value"
  end.

(** [Map.Set] on the entries of a map value: the value of a key that is
    there is replaced, a new key is added. *)
Definition MapKey_eqb (a b : MapKey) : bool :=
  match a, b with
  | MapKeyString s, MapKeyString t => String.eqb s t
  | MapKeyInt x, MapKeyInt y => (x =? y)%Z
  | MapKeyBool x, MapKeyBool y => Bool.eqb x y
  | _, _ => false
  end.

Definition mapSet (m : list (MapKey * ProtoValue)) (k : MapKey) (v : ProtoValue)
    : list (MapKey * ProtoValue) :=
  if existsb (λ kv, MapKey_eqb kv.1 k) m then
    (λ kv, if MapKey_eqb kv.1 k then (k, v) else kv) <$> m
  else m ++ [(k, v)].

(** The full name of [structpb.Value]. *)
Definition structpbValueName : string := "google.protobuf.Value".

Section MessageAttr.
Context `{Host} `{StructPb}.

(** [attrValueError.Diagnostic]: the message is read from the path
    error, not through [attrValueError.Error]. *)
Definition attrValueError_Diagnostic (err : attrValueError) : Diagnostic :=
  let '(path, message) := attrValueError_Err err in
  let detail :=
    if (length path =? 0)%nat then
      "Inappropriate value for argument: " +:+ message +:+ "."
    else
      "Inappropriate value for " +:+ formatCtyPath path +:+ ": " +:+ message +:+ "." in
  {| Severity := DiagError; Summary := unsuitableValueSummary; Detail := detail;
     Subject := None; Context := None |}.

(** [attrErrorDiagnostic]. *)
Definition attrErrorDiagnostic (err : attrError) : Diagnostic :=
  match err with
  | AttrErrSchema e => schemaError_Diagnostic e
  | AttrErrValue e => attrValueError_Diagnostic e
  | AttrErrGo e =>
      {| Severity := DiagError; Summary := unsuitableValueSummary;
         Detail := "Inappropriate value for argument: " +:+ goError_Error e +:+ ".";
         Subject := None; Context := None |}
  end.

(** [attrMessageBuilder]; the parent message is used for [NewField]
    alone, which depends on the field only. *)
Definition attrMessageBuilder : Type := Value → Path → outcome (ProtoValue + attrError).

(** The loop of the list builder over the elements of the value. *)
Fixpoint structpbListElems (wantTy : CtyType) (path : Path) (it : list (Value * Value))
    (i : nat) (l : list ProtoValue) : outcome (ProtoValue + attrError) :=
  match it with
  | [] => Ok (inl (PVList l))
  | (_, elemV) :: rest =>
      let! wantEty :=
        if isDynamicPseudoType wantTy then Ok cty_DynamicPseudoType
        else if IsCollectionType wantTy then Type_ElementType wantTy
        else if IsTupleType wantTy then Type_TupleElementType wantTy i
        else Panic "unhandled type" in
      match ctystructpb_ToStructValue elemV wantEty with
      | inr err => Ok (inr (AttrErrValue (attrValueErrorWrap path err)))
      | inl protoElem => structpbListElems wantTy path rest (S i) (l ++ [PVMessage protoElem])
      end
  end.

(** The builder of the list case. *)
Definition structpbListBuilder (wantTy : CtyType) : attrMessageBuilder :=
  λ v path,
    if IsNull v then Ok (inr (AttrErrValue (attrValueErrorf path "must not be null")))
    else if negb (IsKnown v) then
      Ok (inr (AttrErrValue (attrValueErrorf path "value must be known")))
    else
      let ty := Value_Type v in
      if negb (IsListType ty || IsSetType ty || IsTupleType ty) then
        Ok (inr (AttrErrValue (attrValueErrorf path "a list, set, or tuple value is required")))
      else
        let! wrongLength :=
          match wantTy with
          | cty_Tuple etys =>
              let wantLen := length etys in
              let! gotLen := Value_LengthInt v in
              Ok (if negb (wantLen =? gotLen)%nat then Some wantLen else None)
          | _ => Ok None
          end in
        match wrongLength with
        | Some wantLen =>
            Ok (inr (AttrErrValue (attrValueErrorf path
              ("wrong number of elements (need " +:+ fmt_d (Z.of_nat wantLen) +:+ ")"))))
        | None =>
            let! it := Value_ElementIterator v in
            structpbListElems wantTy path it 0 []
        end.

(** The loop of the map builder over the elements of the value. *)
Fixpoint structpbMapElems (wantTy : CtyType) (path : Path) (it : list (Value * Value))
    (m : list (MapKey * ProtoValue)) : outcome (ProtoValue + attrError) :=
  match it with
  | [] => Ok (inl (PVMap m))
  | (elemKV, elemV) :: rest =>
      let! elemK := Value_AsString elemKV in
      let! wantEty :=
        if isDynamicPseudoType wantTy then Ok (Some cty_DynamicPseudoType)
        else if IsMapType wantTy then
          let! ety := Type_ElementType wantTy in Ok (Some ety)
        else if IsObjectType wantTy then Ok (Type_AttributeType wantTy elemK)
        else Panic "unhandled type" in
      match wantEty with
      | None =>
          Ok (inr (AttrErrValue (attrValueErrorf path
            ("does not expect an attribute named " +:+ fmt_q elemK))))
      | Some wantEty =>
          match ctystructpb_ToStructValue elemV wantEty with
          | inr err => Ok (inr (AttrErrValue (attrValueErrorWrap path err)))
          | inl protoElem =>
              structpbMapElems wantTy path rest
                (mapSet m (MapKeyString elemK) (PVMessage protoElem))
          end
      end
  end.

(** The builder of the map case. *)
Definition structpbMapBuilder (wantTy : CtyType) : attrMessageBuilder :=
  λ v path,
    if IsNull v then Ok (inr (AttrErrValue (attrValueErrorf path "must not be null")))
    else if negb (IsKnown v) then
      Ok (inr (AttrErrValue (attrValueErrorf path "value must be known")))
    else
      let ty := Value_Type v in
      if negb (IsObjectType ty || IsMapType ty) then
        Ok (inr (AttrErrValue (attrValueErrorf path "an object or map value is required")))
      else
        let! it := Value_ElementIterator v in
        structpbMapElems wantTy path it [].

(** The builder of a singular field: the error of [ToStructValue] is
    returned as it is. *)
Definition structpbSingleBuilder (wantTy : CtyType) : attrMessageBuilder :=
  λ v path,
    match ctystructpb_ToStructValue v wantTy with
    | inr err => Ok (inr (AttrErrGo err))
    | inl sv => Ok (inl (PVMessage sv))
    end.

(** [structpbAttrMessageBuilder]. *)
Definition structpbAttrMessageBuilder (desc : FieldDescriptor) (wantTy : CtyType)
    : attrMessageBuilder + schemaError :=
  if Field_IsList desc then
    if negb (isDynamicPseudoType wantTy || IsListType wantTy || IsSetType wantTy) then
      inr (schemaErrorf (Field_FullName desc)
             "list field must have tuple, list, or set type constraint")
    else inl (structpbListBuilder wantTy)
  else if Field_IsMap desc then
    if negb (isDynamicPseudoType wantTy || IsObjectType wantTy || IsMapType wantTy) then
      inr (schemaErrorf (Field_FullName desc)
             "map field must have object or map type constraint")
    else inl (structpbMapBuilder wantTy)
  else inl (structpbSingleBuilder wantTy).

(** [getFieldAttrMessageBuilder]. The element of a field that is not
    message-typed has no message descriptor, and asking it for its name
    panics. *)
Definition getFieldAttrMessageBuilder (desc : FieldDescriptor) (wantTy : CtyType)
    : outcome (attrMessageBuilder + schemaError) :=
  let! checked :=
    if Field_IsMap desc then
      match Field_MapKey desc with
      | None => nilDeref
      | Some key =>
          if negb (bool_decide (Field_Kind key = StringKind)) then
            Ok (inr (schemaErrorf (Field_FullName desc)
                       "HCL can only support maps with string keys"))
          else
            match Field_MapValue desc with
            | None => nilDeref
            | Some value => Ok (inl value)
            end
      end
    else Ok (inl desc) in
  match checked with
  | inr err => Ok (inr err)
  | inl elemDesc =>
      match Field_Message elemDesc with
      | None => nilDeref
      | Some elemMsgDesc =>
          let elemMsgType := Message_FullName elemMsgDesc in
          if String.eqb elemMsgType structpbValueName then
            Ok (structpbAttrMessageBuilder desc wantTy)
          else
            Ok (inr (schemaErrorf (Field_FullName desc)
                       ("can't decode attribute into message type " +:+ elemMsgType)))
      end
  end.

(** [valueForMessageField]. *)
Definition valueForMessageField (v : Value) (attr : FieldAttribute)
    : outcome (ProtoValue + attrError) :=
  let field := TargetField attr in
  let '(wantTy, diags) := TypeConstraint attr in
  if HasErrors diags then
    Ok (inr (AttrErrSchema (schemaErrorf (Field_FullName field) "invalid HCL type constraint")))
  else
    let! r := getFieldAttrMessageBuilder field wantTy in
    match r with
    | inr err => Ok (inr (AttrErrSchema err))
    | inl builder => builder v []
    end.

End MessageAttr.

(** The type each element of a sequence is converted to under the type
    constraints the list builder is made for. *)
Definition sequenceElementConstraint (wantTy : CtyType) : CtyType :=
  match wantTy with
  | cty_List ety | cty_Set ety => ety
  | _ => cty_DynamicPseudoType
  end.

(** An example conversion to [structpb.Value], by the field numbers of
    its oneof: strings and booleans of the wanted type convert, a value
    of another type is a path error. *)
Definition basicToStructValue (v : Value) (ty : CtyType) : Message + goError :=
  match v with
  | StringVal s =>
      if isDynamicPseudoType ty || Type_Equals ty cty_String
      then inl (<[3%Z := PVString s]> ∅)
      else inr (PathErr [] "string is not wanted")
  | BoolVal b =>
      if isDynamicPseudoType ty || Type_Equals ty cty_Bool
      then inl (<[4%Z := PVBool b]> ∅)
      else inr (PathErr [] "bool is not wanted")
  | _ => inr (PlainErr "value cannot be converted")
  end.

#[local] Instance basicStructPb : StructPb := {|
  ctystructpb_ToStructValue := basicToStructValue;
  formatCtyPath := λ path, "value"
|}.

(** Fields of [google.protobuf.Value] and of another message type. *)
Definition structpbValue : MessageDescriptor := MkMessage structpbValueName [] [].

Definition tagsField : FieldDescriptor :=
  MkField "hcl.testschema.WithStructpb.tags" 1 Repeated (MessageType false structpbValue) None.

Definition tagsAttr (typeExpr : string) : FieldAttribute :=
  {| Name := "tags"; Required_ := false; TypeExprString := typeExpr;
     RawMode := Attribute_NOT_RAW; TargetField := tagsField |}.

Definition leafField : FieldDescriptor :=
  MkField "hcl.testschema.WithLeafAttr.leaf" 1 Optional (MessageType false Leaf) None.

Definition leafAttr (typeExpr : string) : FieldAttribute :=
  {| Name := "leaf"; Required_ := false; TypeExprString := typeExpr;
     RawMode := Attribute_NOT_RAW; TargetField := leafField |}.

(** The type the element under a key of a mapping is converted to under
    the type constraints the map builder is made for; none for a name
    that an object type constraint does not have. *)
Definition mappingElementConstraint (wantTy : CtyType) (k : string) : option CtyType :=
  match wantTy with
  | cty_Map ety => Some ety
  | cty_ObjectOf _ => Type_AttributeType wantTy k
  | _ => Some cty_DynamicPseudoType
  end.

Definition labelsField : FieldDescriptor :=
  MkField "hcl.testschema.WithStructpb.labels" 2 Repeated
    (MapEntryType
       (MkField "hcl.testschema.WithStructpb.LabelsEntry.key" 1 Optional
          (ScalarType StringKind) None)
       (MkField "hcl.testschema.WithStructpb.LabelsEntry.value" 2 Optional
          (MessageType false structpbValue) None))
    None.

(** The steps of the iterator for the entries of a mapping. *)
Definition mappingSteps (kvs : list (string * Value)) : list (Value * Value) :=
  (λ kv, (StringVal kv.1, kv.2)) <$> kvs.

(** * Theorems *)

(** ** Outcomes *)

Lemma obind_Ok {A B : Type} (m : outcome A) (k : A → outcome B) (b : B) :
  obind m k = Ok b ↔ ∃ a, m = Ok a ∧ k a = Ok b.
Proof.
  destruct m as [a|r]; simpl.
  - split; [eauto | intros (a' & [= ->] & ?); done].
  - split; [done | intros (a' & [=] & _)].
Qed.

Lemma obind_Ok_l {A B : Type} (m : outcome A) (k : A → outcome B) (a : A) :
  m = Ok a → obind m k = k a.
Proof. by intros ->. Qed.

Lemma HasErrors_app (d1 d2 : Diagnostics) :
  HasErrors (d1 ++ d2) = HasErrors d1 || HasErrors d2.
Proof. apply existsb_app. Qed.

(** ** Error rendering *)

(** C10. For every attribute-value error and every bound on the depth of
    the calls, [Error] has not returned: its body is a call of itself on
    the same receiver. In particular it never yields the message of the
    underlying path error. *)
Theorem attrValueError_Error_never_returns (err : attrValueError) (fuel : nat) :
  attrValueError_Error fuel err = None
  ∧ attrValueError_Error fuel err ≠ Some (attrValueError_Unwrap_Error err).
Proof.
  assert (attrValueError_Error fuel err = None) as ->; [|done].
  induction fuel as [|fuel IH]; [done | exact IH].
Qed.

(** For a declaration name that is not empty and valid, the message of a
    schema error is the reason alone. *)
Lemma schemaError_Error_valid (err : schemaError) :
  Decl err ≠ EmptyString → FullName_IsValid (Decl err) = true →
  schemaError_Error err = "unsupported protobuf schema: " +:+ Err err.
Proof.
  intros Hne Hvalid. unfold schemaError_Error. rewrite Hvalid.
  destruct (String.eqb_spec (Decl err) EmptyString) as [?|_]; [done | reflexivity].
Qed.

(** C8, at a failing input. The field [names] of a map with integer keys
    is annotated as an attribute; its resolution fails with a schema
    error whose declaration name is the valid full name of the field.
    The message of the error holds the reason and not the name; the
    diagnostic of the same error holds both. *)
Theorem schemaError_Error_drops_valid_decl :
  let field :=
    MkField "hcl.testschema.WithIntKeys.names" 1 Repeated
      (MapEntryType
         (MkField "hcl.testschema.WithIntKeys.NamesEntry.key" 1 Optional (ScalarType Int32Kind) None)
         (MkField "hcl.testschema.WithIntKeys.NamesEntry.value" 2 Optional (ScalarType StringKind) None))
      (attrOptions "names" false EmptyString Attribute_NOT_RAW) in
  ∃ err,
    GetFieldElem field = Ok (inr err)
    ∧ Decl err = Field_FullName field
    ∧ FullName_IsValid (Decl err) = true
    ∧ schemaError_Error err = "unsupported protobuf schema: HCL only supports maps with string keys"
    ∧ contains (schemaError_Error err) (Err err) = true
    ∧ contains (schemaError_Error err) (Decl err) = false
    ∧ contains (Detail (schemaError_Diagnostic err)) (Decl err) = true.
Proof.
  eexists. split; [reflexivity|]. vm_compute. repeat split; reflexivity.
Qed.

(** ** Inferred type constraints *)

Lemma primitiveForKind_auto (field : FieldDescriptor) (prim : CtyType) :
  primitiveForKind (Field_Kind field) = Some prim →
  autoTypeConstraintForFieldElement field = prim
  ∧ isNilType prim = false ∧ HasDynamicTypes prim = false.
Proof.
  unfold autoTypeConstraintForFieldElement.
  destruct (Field_Kind field); intros [= <-]; done.
Qed.

(** C7. For a non-raw attribute whose type expression is empty and whose
    element kind has a primitive type, the type constraint comes without
    diagnostics and is: the primitive type for a singular field; for a
    repeated field list(elem), or dynamic where the element constraint has
    dynamic parts; for a map field map(elem) under the same exception.
    The primitive types have no dynamic parts. *)
Theorem TypeConstraint_inferred `{Host} (fa : FieldAttribute) (prim : CtyType) :
  RawMode fa = Attribute_NOT_RAW →
  TypeExprString fa = EmptyString →
  primitiveForKind (Field_Kind (elementField (TargetField fa))) = Some prim →
  TypeConstraint fa =
    (if Field_IsList (TargetField fa) then
       if HasDynamicTypes prim then cty_DynamicPseudoType else cty_List prim
     else if Field_IsMap (TargetField fa) then
       if HasDynamicTypes prim then cty_DynamicPseudoType else cty_Map prim
     else prim, [])
  ∧ HasDynamicTypes prim = false.
Proof.
  intros Hraw Hexpr Hprim.
  destruct (primitiveForKind_auto _ _ Hprim) as (Hauto & Hnil & Hdyn).
  split; [|done].
  unfold TypeConstraint, autoTypeConstraint, autoTypeConstraintForField.
  rewrite Hexpr, Hraw. simpl.
  fold (elementField (TargetField fa)). rewrite Hauto, Hnil, Hdyn.
  destruct (Field_IsList (TargetField fa)); [done|].
  destruct (Field_IsMap (TargetField fa)); simpl; by rewrite ?Hnil.
Qed.

Lemma TypeConstraint_inferred_witness :
  TypeConstraint
    {| Name := "names"; Required_ := false; TypeExprString := EmptyString;
       RawMode := Attribute_NOT_RAW;
       TargetField := MkField "hcl.testschema.WithStringListAttr.names" 1 Repeated
                        (ScalarType StringKind) None |}
  = (cty_List cty_String, []).
Proof.
  exact (proj1 (TypeConstraint_inferred (H := basicHost)
    {| Name := "names"; Required_ := false; TypeExprString := EmptyString;
       RawMode := Attribute_NOT_RAW;
       TargetField := MkField "hcl.testschema.WithStringListAttr.names" 1 Repeated
                        (ScalarType StringKind) None |}
    cty_String eq_refl eq_refl eq_refl)).
Defined.

(** ** Annotation resolver *)

Lemma checkNestedBlock_inv field b e :
  checkNestedBlock field b = inl (Some e) →
  ∃ elem g, e = ElemNestedBlockType elem ∧ Field_Type field = MessageType g (Nested elem).
Proof.
  unfold checkNestedBlock. intros Hc.
  repeat case_match; simplify_eq; simpl; eauto.
Qed.

Lemma checkFlatten_inv field e :
  checkFlatten field = inl (Some e) →
  ∃ g nested, e = ElemFlattened nested ∧ Field_Type field = MessageType g nested.
Proof.
  unfold checkFlatten. intros Hc.
  repeat case_match; simplify_eq; simpl; eauto.
Qed.

Lemma checkAttribute_inv field a e :
  checkAttribute field a = inl (Some e) →
  ∃ elem, e = ElemAttribute elem ∧ TargetField elem = field ∧ Name elem = Attribute_Name a.
Proof.
  unfold checkAttribute. intros Hc.
  repeat case_match; simplify_eq; simpl; eauto.
Qed.

(** An element comes out of exactly one of the four cases of the
    resolver. *)
Lemma GetFieldElem_inv field e :
  GetFieldElem field = Ok (inl (Some e)) →
  (∃ a, checkAttribute field a = inl (Some e))
  ∨ (∃ b, checkNestedBlock field b = inl (Some e))
  ∨ checkFlatten field = inl (Some e)
  ∨ (∃ name, e = ElemBlockLabel name).
Proof.
  unfold GetFieldElem. intros Hg.
  repeat case_match; simplify_eq; eauto 6.
  all: unfold obind, derefAttrName in *; repeat case_match; simplify_eq.
Qed.

Lemma GetFieldElem_NestedBlock field elem :
  GetFieldElem field = Ok (inl (Some (ElemNestedBlockType elem))) →
  ∃ g, Field_Type field = MessageType g (Nested elem).
Proof.
  intros [(a & Ha)|[(b & Hb)|[Hf|(name & ?)]]]%GetFieldElem_inv; [| | |done].
  - apply checkAttribute_inv in Ha as (? & ? & _); done.
  - apply checkNestedBlock_inv in Hb as (? & g & [= <-] & ?); eauto.
  - apply checkFlatten_inv in Hf as (? & ? & ? & _); done.
Qed.

Lemma GetFieldElem_Flattened field nested :
  GetFieldElem field = Ok (inl (Some (ElemFlattened nested))) →
  ∃ g, Field_Type field = MessageType g nested.
Proof.
  intros [(a & Ha)|[(b & Hb)|[Hf|(name & ?)]]]%GetFieldElem_inv; [| | |done].
  - apply checkAttribute_inv in Ha as (? & ? & _); done.
  - apply checkNestedBlock_inv in Hb as (? & g & ? & ?); done.
  - apply checkFlatten_inv in Hf as (g & ? & [= <-] & ?); eauto.
Qed.

Lemma GetFieldElem_Attribute field elem :
  GetFieldElem field = Ok (inl (Some (ElemAttribute elem))) →
  TargetField elem = field.
Proof.
  intros [(a & Ha)|[(b & Hb)|[Hf|(name & ?)]]]%GetFieldElem_inv; [| | |done].
  - apply checkAttribute_inv in Ha as (? & [= <-] & ? & _); done.
  - apply checkNestedBlock_inv in Hb as (? & g & ? & ?); done.
  - apply checkFlatten_inv in Hf as (g & ? & ? & ?); done.
Qed.

Lemma nestedOf_MessageType {A : Type} (rec : MessageDescriptor → A) (nil : A) field g m :
  Field_Type field = MessageType g m → nestedOf rec nil field = rec m.
Proof. destruct field as [? ? ? ty ?]; simpl. by intros ->. Qed.

(** ** The loop of the decoder *)

Section FillLoop.
Context `{Host}.
Context (fill : MessageDescriptor → FillFn).
Context (content : BodyContent) (missingRange : Range).
Context (ctx : option EvalContext) (recovering : bool).

Local Notation fillFields' := (fillFields fill content missingRange ctx recovering).
Local Notation fillField' field :=
  (fillField (nestedOf fill fillNil field) content missingRange ctx recovering field).

(** The diagnostics so far are a prefix of the result. *)
Lemma fillFields_diags fields msg diags :
  fillFields' fields msg diags =
    let! (msg', more) := fillFields' fields msg [] in Ok (msg', diags ++ more).
Proof.
  revert msg diags. induction fields as [|field rest IH]; intros msg diags; simpl.
  - by rewrite app_nil_r.
  - destruct (fillField' field msg) as [[msg1 d1]|r]; simpl; [|done].
    rewrite (IH msg1 (diags ++ d1)), (IH msg1 d1).
    destruct (fillFields' rest msg1 []) as [[msg2 d2]|r]; simpl; [|done].
    by rewrite app_assoc.
Qed.

Lemma fillFields_cons field rest msg :
  fillFields' (field :: rest) msg [] =
    let! (msg1, d1) := fillField' field msg in
    let! (msg2, d2) := fillFields' rest msg1 [] in
    Ok (msg2, d1 ++ d2).
Proof.
  simpl. destruct (fillField' field msg) as [[msg1 d1]|r]; simpl; [|done].
  apply fillFields_diags.
Qed.

Lemma fillFields_app pre post msg :
  fillFields' (pre ++ post) msg [] =
    let! (msg1, d1) := fillFields' pre msg [] in
    let! (msg2, d2) := fillFields' post msg1 [] in
    Ok (msg2, d1 ++ d2).
Proof.
  revert msg. induction pre as [|field pre IH]; intros msg.
  - simpl. destruct (fillFields' post msg []) as [[msg2 d2]|r]; done.
  - rewrite <-app_comm_cons, !fillFields_cons.
    destruct (fillField' field msg) as [[msg1 d1]|r]; simpl; [|done].
    rewrite IH.
    destruct (fillFields' pre msg1 []) as [[msg2 d2]|r]; simpl; [|done].
    destruct (fillFields' post msg2 []) as [[msg3 d3]|r]; simpl; [|done].
    by rewrite app_assoc.
Qed.

End FillLoop.

(** ** One turn of the loop *)

Section FieldTurn.
Context `{Host}.

(** The attribute case leaves the field cleared, or stores the complete
    converted value. *)
Lemma fillAttribute_inv content missingRange ctx field elem msg msg' diags :
  fillAttribute content missingRange ctx field elem msg = Ok (msg', diags) →
  msg' = Message_Clear msg field
  ∨ ∃ pv, msg' = Message_Set (Message_Clear msg field) field pv
          ∧ convertedAttributeValue content ctx field elem pv.
Proof.
  unfold fillAttribute. intros Hfill.
  destruct (Content_Attributes content !! Name elem) as [attr|] eqn:Hattr;
    [|case_match; simplify_eq; by left].
  destruct (Expr_Value (HclAttribute_Expr attr) ctx) as [val d0] eqn:Hval.
  destruct (HasErrors d0) eqn:Hd0; [simplify_eq; by left|].
  destruct (TypeConstraint elem) as [wantTy dT] eqn:HT.
  destruct (HasErrors dT) eqn:HdT; [simplify_eq; by left|].
  destruct (convert_Convert val wantTy) as [val1|e] eqn:Hc1; [|simplify_eq; by left].
  destruct (IsNull val1) eqn:Hnull; [case_match; simplify_eq; by left|].
  destruct (valuePhysicalConstraintForFieldKind (Value_Type val1) field) as [needTy err] eqn:Hp.
  destruct (convert_Convert val1 needTy) as [val2|e] eqn:Hc2; [|simplify_eq; by left].
  apply obind_Ok in Hfill as ([pv dP] & Hpv & Hfill).
  destruct (HasErrors dP) eqn:HdP; simplify_eq; [by left|].
  right. exists pv. split; [done|].
  unfold convertedAttributeValue. do 10 eexists. repeat split; eauto.
Qed.

Lemma Message_Clear_lookup_ne msg field n :
  n ≠ Field_Number field → Message_Clear msg field !! n = msg !! n.
Proof. intros. unfold Message_Clear. by rewrite lookup_delete_ne. Qed.

Lemma Message_Set_lookup_ne msg field v n :
  n ≠ Field_Number field → Message_Set msg field v !! n = msg !! n.
Proof. intros. unfold Message_Set. by rewrite lookup_insert_ne. Qed.

Lemma Message_Set_lookup msg field v :
  Message_Set msg field v !! Field_Number field = Some v.
Proof. unfold Message_Set. by rewrite lookup_insert_eq. Qed.

Lemma Message_Clear_lookup msg field :
  Message_Clear msg field !! Field_Number field = None.
Proof. unfold Message_Clear. by rewrite lookup_delete_eq. Qed.

(** The singleton loop looks at the blocks of the type only. *)
Lemma fillSingletonBlock_filter fillNested field elem ctx blocks found msg diags :
  fillSingletonBlock fillNested field elem ctx blocks found msg diags =
  fillSingletonBlock fillNested field elem ctx
    (List.filter (λ b, String.eqb (Block_Type b) (TypeName elem)) blocks) found msg diags.
Proof.
  revert found msg diags. induction blocks as [|block rest IH]; intros found msg diags; [done|].
  simpl. destruct (String.eqb (Block_Type block) (TypeName elem)) eqn:Heq; simpl.
  - rewrite Heq. simpl. destruct found; [done|].
    destruct (newMessageForBlock _ _ _ _) as [[nestedMsg more]|r]; simpl; [|done].
    apply IH.
  - apply IH.
Qed.

(** A second block of the type ends the loop. *)
Lemma fillSingletonBlock_found fillNested field elem ctx block rest previous msg diags :
  String.eqb (Block_Type block) (TypeName elem) = true →
  fillSingletonBlock fillNested field elem ctx (block :: rest) (Some previous) msg diags =
  Ok (msg, diags ++ [duplicateBlockDiagnostic (TypeName elem) previous block]).
Proof. intros Heq. simpl. by rewrite Heq. Qed.

Lemma filter_head_eqb (blocks : list Block) name first rest :
  List.filter (λ b, String.eqb (Block_Type b) name) blocks = first :: rest →
  String.eqb (Block_Type first) name = true ∧ first ∈ blocks.
Proof.
  intros Hf.
  assert (In first (List.filter (λ b, String.eqb (Block_Type b) name) blocks)) as Hin
    by (rewrite Hf; by left).
  apply filter_In in Hin as [Hin Heq]. split; [done|]. by apply list_elem_of_In.
Qed.

Lemma filter_second_eqb (blocks : list Block) name first second rest :
  List.filter (λ b, String.eqb (Block_Type b) name) blocks = first :: second :: rest →
  String.eqb (Block_Type second) name = true.
Proof.
  intros Hf.
  assert (In second (List.filter (λ b, String.eqb (Block_Type b) name) blocks)) as Hin
    by (rewrite Hf; right; by left).
  by apply filter_In in Hin as [_ Heq].
Qed.

(** With two or more blocks of the type, the first is decoded and
    stored and the second is reported, once. *)
Lemma fillSingletonBlock_duplicate fillNested field elem ctx blocks first second others
    msg nestedMsg d1 :
  List.filter (λ b, String.eqb (Block_Type b) (TypeName elem)) blocks = first :: second :: others →
  newMessageForBlock fillNested first elem ctx = Ok (nestedMsg, d1) →
  fillSingletonBlock fillNested field elem ctx blocks None msg [] =
  Ok (Message_Set msg field (PVMessage nestedMsg),
      d1 ++ [duplicateBlockDiagnostic (TypeName elem) first second]).
Proof.
  intros Hf Hnew. rewrite fillSingletonBlock_filter, Hf.
  pose proof (filter_head_eqb _ _ _ _ Hf) as [Hfirst _].
  pose proof (filter_second_eqb _ _ _ _ _ Hf) as Hsecond.
  cbn [fillSingletonBlock]. rewrite Hfirst. cbn [negb].
  rewrite Hnew. cbn [obind]. rewrite Hsecond. by cbn [negb].
Qed.

(** What the singleton loop leaves in the message. *)
Lemma fillSingletonBlock_inv fillNested field elem ctx blocks found msg diags msg' diags' :
  fillSingletonBlock fillNested field elem ctx blocks found msg diags = Ok (msg', diags') →
  msg' = msg
  ∨ ∃ block nestedMsg d,
      block ∈ blocks ∧ Block_Type block = TypeName elem
      ∧ newMessageForBlock fillNested block elem ctx = Ok (nestedMsg, d)
      ∧ msg' = Message_Set msg field (PVMessage nestedMsg).
Proof.
  revert found msg diags. induction blocks as [|block rest IH]; intros found msg diags Hl.
  - simpl in Hl. simplify_eq. by left.
  - simpl in Hl. destruct (String.eqb (Block_Type block) (TypeName elem)) eqn:Heq; simpl in Hl.
    + destruct found as [previous|]; [simplify_eq; by left|].
      apply obind_Ok in Hl as ([nestedMsg more] & Hnew & Hl).
      apply IH in Hl as [->|(block' & nestedMsg' & d & Hin & Hty & Hnew' & ->)].
      * right. exists block, nestedMsg, more. apply String.eqb_eq in Heq.
        split; [by left | done].
      * right. exists block', nestedMsg', d. split; [by right|].
        split; [done|]. split; [done|].
        unfold Message_Set. by rewrite insert_insert_eq.
    + apply IH in Hl as [->|(block' & nestedMsg' & d & Hin & Hty & Hnew' & ->)]; [by left|].
      right. exists block', nestedMsg', d. split; [by right | done].
Qed.


(** One turn of the loop writes the field it is at and no other. *)
Lemma fillField_frame fillNested content missingRange ctx recovering field msg msg' diags n :
  fillField fillNested content missingRange ctx recovering field msg = Ok (msg', diags) →
  n ≠ Field_Number field → msg' !! n = msg !! n.
Proof.
  unfold fillField. intros Hf Hn.
  apply obind_Ok in Hf as (elem & _ & Hf).
  destruct elem as [[[elem|elem|nested|name]|]|err]; simplify_eq; try done.
  - apply fillAttribute_inv in Hf as [->|(pv & -> & _)].
    + by apply Message_Clear_lookup_ne.
    + rewrite Message_Set_lookup_ne by done. by apply Message_Clear_lookup_ne.
  - destruct (Repeated_ elem).
    + apply obind_Ok in Hf as ([items d] & _ & Hf). simplify_eq.
      by apply Message_Clear_lookup_ne.
    + apply fillSingletonBlock_inv in Hf as [->|(block & nestedMsg & d & _ & _ & _ & ->)].
      * by apply Message_Clear_lookup_ne.
      * rewrite Message_Set_lookup_ne by done. by apply Message_Clear_lookup_ne.
  - apply obind_Ok in Hf as ([nestedMsg d] & _ & Hf). simplify_eq.
    rewrite Message_Set_lookup_ne by done. by apply Message_Clear_lookup_ne.
Qed.

Lemma fillFields_frame fill content missingRange ctx recovering fields msg diags msg' diags' n :
  fillFields fill content missingRange ctx recovering fields msg diags = Ok (msg', diags') →
  n ∉ map Field_Number fields → msg' !! n = msg !! n.
Proof.
  revert msg diags. induction fields as [|field rest IH]; intros msg diags Hf Hn.
  - simpl in Hf. by simplify_eq.
  - simpl in Hf. apply obind_Ok in Hf as ([msg1 d1] & Hfield & Hrest).
    simpl in Hn. apply not_elem_of_cons in Hn as [Hne Hn].
    rewrite (IH _ _ Hrest Hn). by eapply fillField_frame.
Qed.

Lemma fillMessageFromContent_unfold desc content missingRange msg ctx recovering :
  fillMessageFromContent desc content missingRange msg ctx recovering =
  fillFields fillMessageFromContent content missingRange ctx recovering
    (Message_Fields desc) msg [].
Proof. by destruct desc. Qed.

(** The decoding of a message, split at one of its fields. *)
Lemma fillMessageFromContent_split desc pre field post content missingRange msg0 ctx recovering :
  Message_Fields desc = pre ++ field :: post →
  fillMessageFromContent desc content missingRange msg0 ctx recovering =
    let! (msg1, dpre) :=
      fillFields fillMessageFromContent content missingRange ctx recovering pre msg0 [] in
    let! (msg2, d) :=
      fillField (nestedOf fillMessageFromContent fillNil field)
        content missingRange ctx recovering field msg1 in
    let! (msg3, dpost) :=
      fillFields fillMessageFromContent content missingRange ctx recovering post msg2 [] in
    Ok (msg3, dpre ++ d ++ dpost).
Proof.
  intros Hfields. rewrite fillMessageFromContent_unfold, Hfields, fillFields_app.
  destruct (fillFields _ _ _ _ _ pre msg0 []) as [[msg1 dpre]|r]; cbn [obind]; [|done].
  rewrite fillFields_cons.
  destruct (fillField _ _ _ _ _ field msg1) as [[msg2 d]|r]; cbn [obind]; [|done].
  destruct (fillFields _ _ _ _ _ post msg2 []) as [[msg3 dpost]|r]; cbn [obind]; done.
Qed.

(** C2. A non-repeated nested-block field, in a content with two or more
    blocks of its type: when the fields before it, the first block and
    the fields after it decode, the message decodes; the field holds the
    message decoded from the first block; and the diagnostics of the
    field are those of the first block followed by one
    duplicate-block diagnostic, whose detail names the range of the
    first block and whose subject is the type range of the second. *)
Theorem fillMessageFromContent_duplicate_singleton
    desc pre field post elem content missingRange ctx recovering
    first second others msg0 msg1 dpre nestedMsg d1 msg3 dpost :
  Message_Fields desc = pre ++ field :: post →
  Field_Number field ∉ map Field_Number post →
  GetFieldElem field = Ok (inl (Some (ElemNestedBlockType elem))) →
  Repeated_ elem = false →
  List.filter (λ b, String.eqb (Block_Type b) (TypeName elem)) (Content_Blocks content)
    = first :: second :: others →
  fillFields fillMessageFromContent content missingRange ctx recovering pre msg0 [] = Ok (msg1, dpre) →
  newMessageForBlock (fillMessageFromContent (Nested elem)) first elem ctx = Ok (nestedMsg, d1) →
  fillFields fillMessageFromContent content missingRange ctx recovering post
    (Message_Set (Message_Clear msg1 field) field (PVMessage nestedMsg)) [] = Ok (msg3, dpost) →
  let duplicate := duplicateBlockDiagnostic (TypeName elem) first second in
  fillMessageFromContent desc content missingRange msg0 ctx recovering
    = Ok (msg3, dpre ++ (d1 ++ [duplicate]) ++ dpost)
  ∧ msg3 !! Field_Number field = Some (PVMessage nestedMsg)
  ∧ Summary duplicate = "Duplicate " +:+ TypeName elem +:+ " block"
  ∧ Detail duplicate = "There may be no more than one " +:+ TypeName elem
       +:+ " block. Previous block declared at " +:+ Range_String (Block_DefRange first) +:+ "."
  ∧ Subject duplicate = Some (Block_TypeRange second).
Proof.
  intros Hfields Hpost Helem Hrep Hblocks Hpre Hnew Hrest duplicate.
  split; [|split; [|done]].
  - rewrite (fillMessageFromContent_split _ _ _ _ _ _ _ _ _ Hfields), Hpre. cbn [obind].
    unfold fillField. rewrite Helem. cbn [obind]. rewrite Hrep.
    destruct (GetFieldElem_NestedBlock _ _ Helem) as [g Hty].
    rewrite (nestedOf_MessageType _ _ _ _ _ Hty).
    rewrite (fillSingletonBlock_duplicate _ _ _ _ _ _ _ _ _ _ _ Hblocks Hnew).
    cbn [obind]. by rewrite Hrest.
  - rewrite (fillFields_frame _ _ _ _ _ _ _ _ _ _ _ Hrest Hpost).
    apply Message_Set_lookup.
Qed.

End FieldTurn.

(** Two [doodad] blocks given to the singleton block of the package's
    tests: the first wins, and the second is reported. *)
Lemma fillMessageFromContent_duplicate_singleton_witness :
  let first := doodadBlock "Jackson" 2 in
  let second := doodadBlock "Snakob" 5 in
  let duplicate := duplicateBlockDiagnostic "doodad" first second in
  ∃ msg,
    fillMessageFromContent WithNestedBlockNoLabelsSingleton
      (MkBodyContent ∅ [first; second]) (rangeAt 1 1 0 0) ∅ None false
    = Ok (msg, [duplicate])
    ∧ msg !! 1%Z = Some (PVMessage (<[1%Z := PVString "Jackson"]> ∅))
    ∧ Detail duplicate
      = "There may be no more than one doodad block. Previous block declared at test.tf:2,4-10."
    ∧ Subject duplicate = Some (rangeAt 5 4 4 6).
Proof.
  cbv zeta. eexists.
  pose proof (fillMessageFromContent_duplicate_singleton (H := basicHost)
    WithNestedBlockNoLabelsSingleton []
    (MkField "hcl.testschema.WithNestedBlockNoLabelsSingleton.doodad" 1 Optional
       (MessageType false WithStringAttr) (blockOptions "doodad" NestedBlock_AUTO))
    [] _ (MkBodyContent ∅ [doodadBlock "Jackson" 2; doodadBlock "Snakob" 5])
    (rangeAt 1 1 0 0) None false
    (doodadBlock "Jackson" 2) (doodadBlock "Snakob" 5) [] ∅ ∅ []
    (<[1%Z := PVString "Jackson"]> ∅) []
    (<[1%Z := PVMessage (<[1%Z := PVString "Jackson"]> ∅)]> (delete 1%Z ∅)) []
    eq_refl (not_elem_of_nil _) eq_refl eq_refl eq_refl eq_refl) as Hdup.
  cbv zeta in Hdup.
  destruct Hdup as (Hrun & Hfield & _ & Hdetail & Hsubject).
  - vm_compute. reflexivity.
  - vm_compute. reflexivity.
  - split; [exact Hrun|]. split; [exact Hfield|]. split; [|exact Hsubject].
    vm_compute. reflexivity.
Defined.

(** ** Raw-mode attributes and null *)

Lemma GetFieldElem_Attribute_raw field elem :
  GetFieldElem field = Ok (inl (Some (ElemAttribute elem))) →
  (RawMode elem ≠ Attribute_NOT_RAW →
     Field_Kind field = BytesKind ∧ Field_IsList field = false ∧ Field_IsMap field = false)
  ∧ (RawMode elem = Attribute_NOT_RAW → Field_Kind field ≠ BytesKind).
Proof.
  intros [(a & Ha)|[(b & Hb)|[Hf|(name & ?)]]]%GetFieldElem_inv; [| | |done].
  - unfold checkAttribute in Ha.
    repeat case_match; simplify_eq; simpl;
      repeat match goal with
      | H : negb _ = true |- _ => apply negb_true_iff in H
      | H : negb _ = false |- _ => apply negb_false_iff in H
      | H : bool_decide _ = true |- _ => apply bool_decide_eq_true in H
      | H : bool_decide _ = false |- _ => apply bool_decide_eq_false in H
      end; split; intros; try done.
  - apply checkNestedBlock_inv in Hb as (? & g & ? & ?); done.
  - apply checkFlatten_inv in Hf as (g & ? & ? & ?); done.
Qed.

Section RawNull.
Context `{Host}.

(** An attribute whose value is null leaves its field cleared. *)
Lemma fillAttribute_null content missingRange ctx field elem msg attr val d0 :
  convertKeepsNull →
  Content_Attributes content !! Name elem = Some attr →
  Expr_Value (HclAttribute_Expr attr) ctx = (val, d0) →
  IsNull val = true →
  ∃ diags, fillAttribute content missingRange ctx field elem msg
           = Ok (Message_Clear msg field, diags).
Proof.
  intros Hconv Hattr Hval Hnull. unfold fillAttribute. rewrite Hattr, Hval.
  destruct (HasErrors d0); [eauto|].
  destruct (TypeConstraint elem) as [wantTy dT].
  destruct (HasErrors dT); [eauto|].
  destruct (convert_Convert val wantTy) as [val1|e] eqn:Hc1; [|eauto].
  rewrite (Hconv _ _ _ Hnull Hc1).
  destruct (Required_ elem); eauto.
Qed.

(** C5. A raw-mode bytes attribute. Reflection of the empty byte string
    is the null value of dynamic type. Decoding a null value, where
    conversion keeps null values null, leaves the field cleared in the
    decoded message, so that the bytes read from it are empty and
    reflect to that null value again. *)
Theorem raw_bytes_null_round_trip
    desc pre field post elem content missingRange ctx recovering attr val d0
    msg0 msg1 dpre msg3 dpost objectValueOf path :
  convertKeepsNull →
  Message_Fields desc = pre ++ field :: post →
  Field_Number field ∉ map Field_Number post →
  GetFieldElem field = Ok (inl (Some (ElemAttribute elem))) →
  RawMode elem ≠ Attribute_NOT_RAW →
  Content_Attributes content !! Name elem = Some attr →
  Expr_Value (HclAttribute_Expr attr) ctx = (val, d0) →
  IsNull val = true →
  fillFields fillMessageFromContent content missingRange ctx recovering pre msg0 [] = Ok (msg1, dpre) →
  fillFields fillMessageFromContent content missingRange ctx recovering post
    (Message_Clear msg1 field) [] = Ok (msg3, dpost) →
  hclValueForProtoFieldValue objectValueOf (PVBytes []) path elem false
    = Ok (inl (NullVal cty_DynamicPseudoType))
  ∧ (∃ d, fillMessageFromContent desc content missingRange msg0 ctx recovering
          = Ok (msg3, dpre ++ d ++ dpost))
  ∧ msg3 !! Field_Number field = None
  ∧ Message_Get msg3 field = PVBytes []
  ∧ hclValueForProtoFieldValue objectValueOf (Message_Get msg3 field) path elem false
    = Ok (inl (NullVal cty_DynamicPseudoType)).
Proof.
  intros Hconv Hfields Hpost Helem Hraw Hattr Hval Hnull Hpre Hrest.
  destruct (fillAttribute_null content missingRange ctx field elem msg1 _ _ _
              Hconv Hattr Hval Hnull) as [d Hturn].
  assert (msg3 !! Field_Number field = None) as Hcleared.
  { rewrite (fillFields_frame _ _ _ _ _ _ _ _ _ _ _ Hrest Hpost).
    apply Message_Clear_lookup. }
  assert (Message_Get msg3 field = PVBytes []) as Hget.
  { destruct (GetFieldElem_Attribute_raw _ _ Helem) as [Hbytes _].
    destruct (Hbytes Hraw) as (Hkind & Hlist & Hmap).
    unfold Message_Get, Message_NewField. by rewrite Hcleared, Hlist, Hmap, Hkind. }
  split; [done|]. split; [|split; [done|split; [done|by rewrite Hget]]].
  exists d.
  rewrite (fillMessageFromContent_split _ _ _ _ _ _ _ _ _ Hfields), Hpre. cbn [obind].
  unfold fillField. rewrite Helem. cbn [obind]. rewrite Hturn. cbn [obind].
  by rewrite Hrest.
Qed.

End RawNull.

Lemma basicConvert_keeps_null : @convertKeepsNull basicHost.
Proof.
  intros v ty v' Hnull. simpl. unfold basicConvert.
  destruct (isDynamicPseudoType ty); [by intros [= <-]|].
  destruct (Type_Equals (Value_Type v) ty); [by intros [= <-]|].
  destruct v; try done; simpl.
  all: try (destruct ty; done).
  all: try (by intros [= <-]).
Qed.

Lemma raw_bytes_null_round_trip_witness :
  hclValueForProtoFieldValue objNil (PVBytes []) []
    {| Name := "raw"; Required_ := false; TypeExprString := "any"; RawMode := Attribute_JSON;
       TargetField := MkField "hcl.testschema.WithRawDynamicAttr.raw" 1 Optional
                        (ScalarType BytesKind) (attrOptions "raw" false "any" Attribute_JSON) |}
    false = Ok (inl (NullVal cty_DynamicPseudoType))
  ∧ (∃ d, fillMessageFromContent WithRawDynamicAttr
            (MkBodyContent {[ "raw" := literalAttribute "raw" (NullVal cty_DynamicPseudoType) 2 ]} [])
            (rangeAt 1 1 0 0) ∅ None false = Ok (∅, [] ++ d ++ []))
  ∧ (∅ : Message) !! 1%Z = None
  ∧ Message_Get ∅ (MkField "hcl.testschema.WithRawDynamicAttr.raw" 1 Optional
                     (ScalarType BytesKind) (attrOptions "raw" false "any" Attribute_JSON))
    = PVBytes []
  ∧ hclValueForProtoFieldValue objNil
      (Message_Get ∅ (MkField "hcl.testschema.WithRawDynamicAttr.raw" 1 Optional
                        (ScalarType BytesKind) (attrOptions "raw" false "any" Attribute_JSON)))
      []
      {| Name := "raw"; Required_ := false; TypeExprString := "any"; RawMode := Attribute_JSON;
         TargetField := MkField "hcl.testschema.WithRawDynamicAttr.raw" 1 Optional
                          (ScalarType BytesKind) (attrOptions "raw" false "any" Attribute_JSON) |}
      false = Ok (inl (NullVal cty_DynamicPseudoType)).
Proof.
  apply (raw_bytes_null_round_trip (H := basicHost)
    WithRawDynamicAttr []
    (MkField "hcl.testschema.WithRawDynamicAttr.raw" 1 Optional
       (ScalarType BytesKind) (attrOptions "raw" false "any" Attribute_JSON))
    [] _
    (MkBodyContent {[ "raw" := literalAttribute "raw" (NullVal cty_DynamicPseudoType) 2 ]} [])
    (rangeAt 1 1 0 0) None false
    (literalAttribute "raw" (NullVal cty_DynamicPseudoType) 2)
    (NullVal cty_DynamicPseudoType) [] ∅ ∅ [] ∅ [] objNil []
    basicConvert_keeps_null).
  - reflexivity.
  - simpl. apply not_elem_of_nil.
  - reflexivity.
  - simpl. discriminate.
  - reflexivity.
  - reflexivity.
  - reflexivity.
  - reflexivity.
  - vm_compute. reflexivity.
Defined.

(** ** Integer fields *)

Lemma BigFloat_whole q z :
  (q == inject_Z z)%Q →
  BigFloat_IsInt (Finite q) = true ∧ BigFloat_Int (Finite q) = Some z.
Proof.
  destruct q as [num den]. unfold Qeq, inject_Z. simpl. intros Heq.
  assert (num = z * Z.pos den)%Z as -> by lia.
  split.
  - apply Z.eqb_eq. by apply Z.mod_mul.
  - f_equal. by apply Z.quot_mul.
Qed.

Lemma BigFloat_not_whole q :
  (∀ z, ¬ (q == inject_Z z)%Q) → BigFloat_IsInt (Finite q) = false.
Proof.
  intros Hq. simpl. apply Z.eqb_neq. intros Hmod.
  apply (Hq (Qnum q / Z.pos (Qden q))%Z).
  unfold Qeq, inject_Z. simpl.
  pose proof (Z.div_exact (Qnum q) (Z.pos (Qden q))) as Hex.
  rewrite Z.mul_1_r. rewrite Z.mul_comm. apply Hex; [lia | done].
Qed.

Lemma integerBounds_ordered k lo hi :
  integerBounds k = Some (lo, hi) → (lo ≤ hi)%Z.
Proof. destruct k; intros [= <- <-]; done. Qed.

(** The three ways a number fails the check, each with its one
    diagnostic; the integrality check comes first. *)
Lemma intValueForFixedIntegerField_rejects q rng lo hi :
  (lo ≤ hi)%Z →
  ((∀ z, ¬ (q == inject_Z z)%Q) →
     ∃ bi, BigFloat_Int (Finite q) = Some bi ∧
       intValueForFixedIntegerField (NumberVal (Finite q)) rng lo hi
       = Ok (Some bi, [integerDiagnostic "The value must be a whole number." rng]))
  ∧ (∀ z, (q == inject_Z z)%Q → (z < lo)%Z →
       intValueForFixedIntegerField (NumberVal (Finite q)) rng lo hi
       = Ok (Some z, [integerDiagnostic
           ("The value must be greater than or equal to " +:+ fmt_d lo +:+ ".") rng]))
  ∧ (∀ z, (q == inject_Z z)%Q → (hi < z)%Z →
       intValueForFixedIntegerField (NumberVal (Finite q)) rng lo hi
       = Ok (Some z, [integerDiagnostic
           ("The value must be less than or equal to " +:+ fmt_d hi +:+ ".") rng])).
Proof.
  intros Hord. unfold intValueForFixedIntegerField. cbn [Value_AsBigFloat obind].
  repeat split.
  - intros Hq. rewrite (BigFloat_not_whole _ Hq). simpl. eauto.
  - intros z Hq Hlo. destruct (BigFloat_whole _ _ Hq) as [-> ->]. cbn [negb].
    by rewrite (proj2 (Z.ltb_lt z lo) Hlo).
  - intros z Hq Hhi. destruct (BigFloat_whole _ _ Hq) as [-> ->]. cbn [negb].
    rewrite (proj2 (Z.ltb_ge z lo)) by lia.
    by rewrite (proj2 (Z.ltb_lt hi z) Hhi).
Qed.

Section IntegerFields.
Context `{Host}.

(** A value of an integer field that the check rejects is encoded with
    that one diagnostic, and without a panic. *)
Lemma protoValueForSingletonFieldKind_rejects val rng field lo hi bi diag :
  integerBounds (Field_Kind field) = Some (lo, hi) →
  intValueForFixedIntegerField val rng lo hi = Ok (Some bi, [diag]) →
  ∃ pv, protoValueForSingletonFieldKind val rng field = Ok (pv, [diag]).
Proof.
  intros Hb Hint. unfold protoValueForSingletonFieldKind.
  destruct (Field_Kind field); simplify_eq/=; rewrite Hint; simpl; eauto.
Qed.

Lemma integer_field_not_map field lo hi :
  integerBounds (Field_Kind field) = Some (lo, hi) →
  Field_IsMap field = false ∧ Field_MapValue field = None ∧ Field_Kind field ≠ BytesKind
  ∧ physicalConstraintForFieldKindSingle field = (cty_Number, None).
Proof.
  unfold Field_IsMap, Field_MapValue, physicalConstraintForFieldKindSingle, Field_Kind.
  destruct (Field_Type field) as [k|[] m|k v]; simpl; try done.
  destruct k; try done.
Qed.

Lemma fillAttribute_integer_rejected content missingRange ctx field elem msg
    attr val d0 wantTy dT val1 n lo hi bi diag :
  GetFieldElem field = Ok (inl (Some (ElemAttribute elem))) →
  Field_IsList field = false →
  integerBounds (Field_Kind field) = Some (lo, hi) →
  Content_Attributes content !! Name elem = Some attr →
  Expr_Value (HclAttribute_Expr attr) ctx = (val, d0) → HasErrors d0 = false →
  TypeConstraint elem = (wantTy, dT) → HasErrors dT = false →
  convert_Convert val wantTy = inl val1 → IsNull val1 = false →
  convert_Convert val1 cty_Number = inl (NumberVal n) →
  intValueForFixedIntegerField (NumberVal n) (Expr_Range (HclAttribute_Expr attr)) lo hi
    = Ok (Some bi, [diag]) →
  isError diag = true →
  fillAttribute content missingRange ctx field elem msg
    = Ok (Message_Clear msg field, d0 ++ dT ++ [diag]).
Proof.
  intros Helem Hlist Hb Hattr Hval Hd0 HT HdT Hc1 Hnull Hc2 Hint Herr.
  destruct (integer_field_not_map _ _ _ Hb) as (Hmap & Hmv & Hkind & Hphys).
  destruct (protoValueForSingletonFieldKind_rejects _ _ _ _ _ _ _ Hb Hint) as [pv Hpv].
  destruct (GetFieldElem_Attribute_raw _ _ Helem) as [Hraw _].
  assert (RawMode elem = Attribute_NOT_RAW) as Hnotraw.
  { destruct (decide (RawMode elem = Attribute_NOT_RAW)) as [|Hne]; [done|].
    by destruct (Hraw Hne) as [? _]. }
  unfold fillAttribute. rewrite Hattr, Hval, Hd0, HT, HdT, Hc1, Hnull.
  unfold valuePhysicalConstraintForFieldKind. rewrite Hlist, Hmv, Hphys, Hc2.
  unfold protoValueForField. rewrite Hlist, Hmap.
  unfold protoValueForSingletonField. rewrite Helem. cbn [obind].
  rewrite Hnotraw. rewrite bool_decide_eq_true_2 by done. cbn [negb].
  rewrite bool_decide_eq_false_2 by done. cbn [IsKnown negb].
  rewrite Hpv. cbn [obind]. simpl. rewrite Herr. simpl.
  by rewrite app_assoc.
Qed.

End IntegerFields.

Section IntegerClaim.
Context `{Host}.

(** C3, amended. A non-repeated attribute field of a 32- or 64-bit
    integer kind whose value, converted, is a finite number. A value that
    is not a whole number is reported as such; a whole number below the
    minimum of the kind, or above its maximum, is reported with that
    bound. In each case the diagnostic is the only one of the checks,
    the message decodes, and the field is cleared in it. *)
Theorem integer_attribute_rejected
    desc pre field post elem content missingRange ctx recovering
    attr val d0 wantTy dT val1 q lo hi msg0 msg1 dpre msg3 dpost :
  Message_Fields desc = pre ++ field :: post →
  Field_Number field ∉ map Field_Number post →
  GetFieldElem field = Ok (inl (Some (ElemAttribute elem))) →
  Field_IsList field = false →
  integerBounds (Field_Kind field) = Some (lo, hi) →
  Content_Attributes content !! Name elem = Some attr →
  Expr_Value (HclAttribute_Expr attr) ctx = (val, d0) → HasErrors d0 = false →
  TypeConstraint elem = (wantTy, dT) → HasErrors dT = false →
  convert_Convert val wantTy = inl val1 → IsNull val1 = false →
  convert_Convert val1 cty_Number = inl (NumberVal (Finite q)) →
  fillFields fillMessageFromContent content missingRange ctx recovering pre msg0 [] = Ok (msg1, dpre) →
  fillFields fillMessageFromContent content missingRange ctx recovering post
    (Message_Clear msg1 field) [] = Ok (msg3, dpost) →
  let rejected (detail : string) :=
    fillMessageFromContent desc content missingRange msg0 ctx recovering
      = Ok (msg3, dpre ++ (d0 ++ dT
              ++ [integerDiagnostic detail (Expr_Range (HclAttribute_Expr attr))]) ++ dpost)
    ∧ msg3 !! Field_Number field = None in
  ((∀ z, ¬ (q == inject_Z z)%Q) → rejected "The value must be a whole number.")
  ∧ (∀ z, (q == inject_Z z)%Q → (z < lo)%Z →
       rejected ("The value must be greater than or equal to " +:+ fmt_d lo +:+ "."))
  ∧ (∀ z, (q == inject_Z z)%Q → (hi < z)%Z →
       rejected ("The value must be less than or equal to " +:+ fmt_d hi +:+ ".")).
Proof.
  intros Hfields Hpost Helem Hlist Hb Hattr Hval Hd0 HT HdT Hc1 Hnull Hc2 Hpre Hrest rejected.
  assert (∀ detail bi,
    intValueForFixedIntegerField (NumberVal (Finite q)) (Expr_Range (HclAttribute_Expr attr)) lo hi
      = Ok (Some bi, [integerDiagnostic detail (Expr_Range (HclAttribute_Expr attr))]) →
    rejected detail) as Hrejected.
  { intros detail bi Hint. split.
    - rewrite (fillMessageFromContent_split _ _ _ _ _ _ _ _ _ Hfields), Hpre. cbn [obind].
      unfold fillField. rewrite Helem. cbn [obind].
      rewrite (fillAttribute_integer_rejected _ _ _ _ _ _ _ _ _ _ _ _ _ _ _ _ _
                 Helem Hlist Hb Hattr Hval Hd0 HT HdT Hc1 Hnull Hc2 Hint eq_refl).
      cbn [obind]. by rewrite Hrest.
    - rewrite (fillFields_frame _ _ _ _ _ _ _ _ _ _ _ Hrest Hpost).
      apply Message_Clear_lookup. }
  destruct (intValueForFixedIntegerField_rejects q (Expr_Range (HclAttribute_Expr attr)) lo hi
              (integerBounds_ordered _ _ _ Hb)) as (Hwhole & Hlow & Hhigh).
  split; [|split].
  - intros Hq. destruct (Hwhole Hq) as (bi & _ & Hint). by eapply Hrejected.
  - intros z Hq Hz. eapply Hrejected, Hlow; done.
  - intros z Hq Hz. eapply Hrejected, Hhigh; done.
Qed.

End IntegerClaim.

(** The out-of-range scenario of the package's tests: the bound in the
    diagnostic is 2147483647 and the message is empty. *)
Lemma integer_attribute_rejected_witness :
  fillMessageFromContent WithNumberAttrAsInt32 (numContent (inject_Z aboveInt32))
    (rangeAt 1 1 0 0) ∅ None false
  = Ok (∅, [] ++ ([] ++ [] ++
        [integerDiagnostic "The value must be less than or equal to 2147483647."
           (rangeAt 2 11 11 4)]) ++ [])
  ∧ (∅ : Message) !! 1%Z = None.
Proof.
  refine (proj2 (proj2 (integer_attribute_rejected (H := basicHost)
    WithNumberAttrAsInt32 []
    (MkField "hcl.testschema.WithNumberAttrAsInt32.num" 1 Optional (ScalarType Int32Kind)
       (attrOptions "num" false EmptyString Attribute_NOT_RAW))
    [] _ (numContent (inject_Z aboveInt32)) (rangeAt 1 1 0 0) None false
    (literalAttribute "num" (NumberVal (Finite (inject_Z aboveInt32))) 2)
    (NumberVal (Finite (inject_Z aboveInt32))) [] cty_Number []
    (NumberVal (Finite (inject_Z aboveInt32))) (inject_Z aboveInt32)
    MinInt32 MaxInt32 ∅ ∅ [] ∅ []
    eq_refl _ eq_refl eq_refl eq_refl eq_refl eq_refl eq_refl eq_refl eq_refl
    eq_refl eq_refl eq_refl eq_refl eq_refl)) aboveInt32 _ _).
  - simpl. apply not_elem_of_nil.
  - reflexivity.
  - reflexivity.
Defined.

(** C3 as stated fails: a value below the minimum of the kind that is
    not a whole number. One half below zero, decoded into an unsigned
    32-bit field, is reported as not whole, and no diagnostic names the
    bound. *)
Lemma fraction_below_minimum_reported_as_not_whole :
  (-1 # 2 < inject_Z 0)%Q
  ∧ integerBounds (Field_Kind (MkField "hcl.testschema.WithNumberAttrAsUint32.num" 1 Optional
                                 (ScalarType Uint32Kind)
                                 (attrOptions "num" false EmptyString Attribute_NOT_RAW)))
    = Some (0%Z, MaxUint32)
  ∧ DecodeBody
      (syntaxBody (MkSyntaxBody [literalAttribute "num" (NumberVal (Finite (-1 # 2))) 2] []
                     (rangeAt 1 1 0 0)))
      WithNumberAttrAsUint32 None
    = Ok (∅, [integerDiagnostic "The value must be a whole number." (rangeAt 2 11 11 4)]).
Proof. split; [reflexivity|]. split; [reflexivity|]. vm_compute. reflexivity. Qed.

(** ** Settled fields *)

Section Settled.
Context `{Host}.

(** What one turn of the loop leaves in the field it is at, when the
    field was cleared before. *)
Lemma fillField_settled content missingRange ctx recovering field msg msg' diags :
  msg !! Field_Number field = None →
  fillField (nestedOf fillMessageFromContent fillNil field)
    content missingRange ctx recovering field msg = Ok (msg', diags) →
  fieldSettled content missingRange ctx recovering field (msg' !! Field_Number field).
Proof.
  intros Hnone Hturn. unfold fieldSettled. unfold fillField in Hturn.
  apply obind_Ok in Hturn as (elem & Helem & Hturn). rewrite Helem.
  destruct elem as [[[elem|elem|nested|name]|]|err]; simplify_eq; try done.
  - apply fillAttribute_inv in Hturn as [->|(pv & -> & Hpv)].
    + left. apply Message_Clear_lookup.
    + right. exists pv. split; [apply Message_Set_lookup | done].
  - destruct (GetFieldElem_NestedBlock _ _ Helem) as [g Hty].
    rewrite (nestedOf_MessageType _ _ _ _ _ Hty) in Hturn.
    destruct (Repeated_ elem) eqn:Hrep.
    + apply obind_Ok in Hturn as ([items d] & _ & Hturn). simplify_eq.
      left. apply Message_Clear_lookup.
    + apply fillSingletonBlock_inv in Hturn
        as [->|(block & nestedMsg & d & Hin & Htype & Hnew & ->)].
      * left. apply Message_Clear_lookup.
      * right. split; first done. exists block, nestedMsg.
        eexists. repeat split; try done. apply Message_Set_lookup.
  - destruct (GetFieldElem_Flattened _ _ Helem) as [g Hty].
    rewrite (nestedOf_MessageType _ _ _ _ _ Hty) in Hturn.
    apply obind_Ok in Hturn as ([nestedMsg d] & Hnested & Hturn). simplify_eq.
    exists nestedMsg. eexists. split; [done|]. apply Message_Set_lookup.
Qed.

Lemma fillMessageFromContent_settled desc content missingRange ctx recovering msg diags :
  NoDup (map Field_Number (Message_Fields desc)) →
  fillMessageFromContent desc content missingRange (newMessageMaybeDynamic desc) ctx recovering
    = Ok (msg, diags) →
  ∀ field, field ∈ Message_Fields desc →
    fieldSettled content missingRange ctx recovering field (msg !! Field_Number field).
Proof.
  intros Hnodup Hfill field Hin.
  apply list_elem_of_split in Hin as (pre & post & Hfields).
  rewrite Hfields, map_app in Hnodup. simpl in Hnodup.
  apply NoDup_app in Hnodup as (_ & Hpre & Hpost).
  apply NoDup_cons in Hpost as [Hpost _].
  rewrite (fillMessageFromContent_split _ _ _ _ _ _ _ _ _ Hfields) in Hfill.
  apply obind_Ok in Hfill as ([msg1 dpre] & Hrunpre & Hfill).
  apply obind_Ok in Hfill as ([msg2 d] & Hturn & Hfill).
  apply obind_Ok in Hfill as ([msg3 dpost] & Hrunpost & Hfill). simplify_eq.
  rewrite (fillFields_frame _ _ _ _ _ _ _ _ _ _ _ Hrunpost Hpost).
  eapply fillField_settled; [|done].
  rewrite (fillFields_frame _ _ _ _ _ _ _ _ _ _ _ Hrunpre); [done|].
  intros Hin. by apply (Hpre _ Hin), list_elem_of_here.
Qed.

(** C9. In the message a decode run returns, every field of the
    descriptor is settled for the content the body gave: an attribute
    field is cleared or holds its value converted without error at any
    stage; a nested-block field is cleared or holds the message decoded
    from a block of its type; a flattened field holds the message decoded
    from the same content; any other field is cleared. This holds
    whatever the diagnostics. *)
Theorem DecodeBody_fields_settled body desc ctx msg diags :
  NoDup (map Field_Number (Message_Fields desc)) →
  DecodeBody body desc ctx = Ok (msg, diags) →
  ∃ schema content contentDiags recovering,
    Body_Content body schema = Ok (content, contentDiags)
    ∧ ∀ field, field ∈ Message_Fields desc →
        fieldSettled content (Body_MissingItemRange body) ctx recovering field
          (msg !! Field_Number field).
Proof.
  intros Hnodup Hdecode. unfold DecodeBody, DecodeBodyWith in Hdecode.
  apply obind_Ok in Hdecode as (r & _ & Hdecode).
  destruct (match r with inl schema => _ | inr err => _ end) as [schema diags0].
  apply obind_Ok in Hdecode as ([content contentDiags] & Hcontent & Hdecode).
  apply obind_Ok in Hdecode as ([msg' fillDiags] & Hfill & Hdecode). simplify_eq.
  exists schema, content, contentDiags, (HasErrors (diags0 ++ contentDiags)).
  split; [done|]. by eapply fillMessageFromContent_settled.
Qed.

End Settled.

Lemma DecodeBody_fields_settled_witness :
  ∃ schema content contentDiags recovering,
    Body_Content
      (syntaxBody (MkSyntaxBody [literalAttribute "num" (NumberVal (Finite (inject_Z aboveInt32))) 2]
                     [] (rangeAt 1 1 0 0))) schema
      = Ok (content, contentDiags)
    ∧ ∀ field, field ∈ Message_Fields WithNumberAttrAsInt32 →
        fieldSettled content (rangeAt 1 1 0 0) None recovering field
          ((∅ : Message) !! Field_Number field).
Proof.
  apply (DecodeBody_fields_settled (H := basicHost)
    (syntaxBody (MkSyntaxBody [literalAttribute "num" (NumberVal (Finite (inject_Z aboveInt32))) 2]
                   [] (rangeAt 1 1 0 0)))
    WithNumberAttrAsInt32 None ∅
    [integerDiagnostic "The value must be less than or equal to 2147483647." (rangeAt 2 11 11 4)]).
  - simpl. apply NoDup_singleton.
  - vm_compute. reflexivity.
Defined.

(** ** Induction on descriptors *)

(** A property holds of every descriptor if it holds of a descriptor
    whenever it holds of the message types of its message fields. *)
Lemma MessageDescriptor_nested_ind (P : MessageDescriptor → Prop) :
  (∀ desc,
     (∀ field g m, field ∈ Message_Fields desc → Field_Type field = MessageType g m → P m) →
     P desc) →
  ∀ desc, P desc.
Proof.
  intros Hstep. fix IH 1. intros [name oneofs fields]. apply Hstep. simpl.
  assert (Forall (λ field, ∀ g m, Field_Type field = MessageType g m → P m) fields) as Hall.
  { induction fields as [|[fname number card ty opts] rest IHrest]; constructor; [|done].
    intros g m. simpl. destruct ty as [k|g' m'|key value]; try discriminate.
    intros [= <- <-]. apply IH. }
  intros field g m Hin. by apply (proj1 (Forall_forall _ _) Hall).
Qed.

Section Recovering.
Context `{Host}.

(** The recovering flag is never read. *)
Lemma fillMessageFromContent_recovering desc :
  ∀ content missingRange msg ctx b1 b2,
    fillMessageFromContent desc content missingRange msg ctx b1
    = fillMessageFromContent desc content missingRange msg ctx b2.
Proof.
  induction desc as [desc IH] using MessageDescriptor_nested_ind.
  intros content missingRange msg ctx b1 b2. rewrite !fillMessageFromContent_unfold.
  generalize (@nil Diagnostic). revert msg.
  induction (Message_Fields desc) as [|field rest IHrest]; intros msg diags; [done|].
  cbn [fillFields].
  assert (fillField (nestedOf fillMessageFromContent fillNil field)
            content missingRange ctx b1 field msg
          = fillField (nestedOf fillMessageFromContent fillNil field)
              content missingRange ctx b2 field msg) as ->.
  { unfold fillField. destruct (GetFieldElem field) as [elem|r] eqn:Helem; [|done].
    cbn [obind]. destruct elem as [[[elem|elem|nested|name]|]|err]; try done.
    destruct (GetFieldElem_Flattened _ _ Helem) as [g Hty].
    rewrite (nestedOf_MessageType _ _ _ _ _ Hty).
    by rewrite (IH field g nested (list_elem_of_here _ _) Hty _ _ _ _ b1 b2). }
  destruct (fillField _ _ _ _ b2 field msg) as [[msg1 d1]|r]; cbn [obind]; [|done].
  apply IHrest. intros field' g m Hin. apply IH. by right.
Qed.

(** C1. When the schema of the descriptor does not compile,
    [DecodeBody] keeps the schema error as a diagnostic and goes on to
    ask the body for its content with the schema pointer still nil. A
    body of the native syntax reads the schema through that pointer, so
    the call does not return the message and the diagnostic its comment
    promises the caller: it panics. *)
Theorem DecodeBody_schema_error_panics (b : SyntaxBody) desc ctx err :
  bodySchema desc = Ok (inr err) →
  DecodeBody (syntaxBody b) desc ctx
  = Panic "invalid memory address or nil pointer dereference".
Proof.
  intros Hschema. unfold DecodeBody, DecodeBodyWith. rewrite Hschema. cbn [obind].
  destruct b as [attributes blocks missingItemRange]. reflexivity.
Qed.

End Recovering.

(** The two attributes named [name] of [Conflicting] and a body that
    sets [name]. *)
Lemma DecodeBody_schema_error_panics_witness :
  bodySchema Conflicting
  = Ok (inr (schemaErrorf "hcl.testschema.Conflicting.second"
               ("declaration of attribute " +:+ fmt_q "name"
                +:+ " conflicts with hcl.testschema.Conflicting.first")))
  ∧ DecodeBody (syntaxBody (MkSyntaxBody [literalAttribute "name" (StringVal "Jackson") 2] []
                              (rangeAt 1 1 0 0)))
      Conflicting None
    = Panic "invalid memory address or nil pointer dereference".
Proof.
  split; [reflexivity|].
  apply (DecodeBody_schema_error_panics (H := basicHost)
           (MkSyntaxBody [literalAttribute "name" (StringVal "Jackson") 2] [] (rangeAt 1 1 0 0))
           Conflicting None
           (schemaErrorf "hcl.testschema.Conflicting.second"
              ("declaration of attribute " +:+ fmt_q "name"
               +:+ " conflicts with hcl.testschema.Conflicting.first"))).
  reflexivity.
Defined.

(** ** Reflection of nested blocks *)

Lemma CtyType_eqb_refl : ∀ ty, CtyType_eqb ty ty = true.
Proof.
  fix IH 1. intros [| | | | |ety|ety|ety|etys|atys]; simpl; try done; try apply IH.
  - induction etys as [|ety etys IHetys]; [done|]. rewrite IH. apply IHetys.
  - induction atys as [|[k aty] atys IHatys]; [done|].
    rewrite String.eqb_refl, IH. apply IHatys.
Qed.

(** [ListVal] of values of one type, not the dynamic pseudo-type. *)
Lemma unifyElementTypes_same ty vals :
  isDynamicPseudoType ty = false →
  (∀ v, v ∈ vals → Value_Type v = ty) →
  unifyElementTypes ty vals = Some ty.
Proof.
  intros Hdyn. induction vals as [|v vals IH]; intros Hall; [done|].
  simpl. rewrite Hdyn. rewrite (Hall v) by apply list_elem_of_here.
  rewrite Hdyn. unfold Type_Equals. rewrite CtyType_eqb_refl. simpl.
  apply IH. intros v' Hin. apply Hall. by right.
Qed.

Lemma ListVal_same ty vals :
  vals ≠ [] →
  isDynamicPseudoType ty = false →
  (∀ v, v ∈ vals → Value_Type v = ty) →
  ListVal vals = Ok (ListValOf ty vals).
Proof.
  intros Hne Hdyn Hall. destruct vals as [|v vals]; [done|].
  unfold ListVal. cbn [unifyElementTypes isDynamicPseudoType].
  rewrite (Hall v) by apply list_elem_of_here.
  rewrite unifyElementTypes_same; [done|done|].
  intros v' Hin. apply Hall. by right.
Qed.

Section ReflectLoop.
Context `{Host}.

Lemma objectValueForMessageWith_object build msg path obj :
  objectValueForMessageWith build msg path = Ok (inl obj) →
  isDynamicPseudoType (Value_Type obj) = false.
Proof.
  unfold objectValueForMessageWith. intros Hobj.
  apply obind_Ok in Hobj as ([attrs|err] & _ & Hobj); by simplify_eq.
Qed.

(** The elements of a repeated nested block are reflected one by one, in
    the order of the list. *)
Lemma reflectNestedElems_all (objectValueOf : ObjFn) items path objs acc :
  Forall2 (λ item obj, ∃ child, item = PVMessage child
                                 ∧ objectValueOf child path = Ok (inl obj)) items objs →
  reflectNestedElems objectValueOf items path acc = Ok (inl (acc ++ objs)).
Proof.
  intros Hall. revert acc. induction Hall as [|item obj items objs (child & -> & Hobj) _ IH];
    intros acc; simpl.
  - by rewrite app_nil_r.
  - rewrite Hobj. cbn [obind]. rewrite IH. by rewrite <-app_assoc.
Qed.

Lemma buildObjectValueAttrsForMessage_unfold desc msg path attrs :
  buildObjectValueAttrsForMessage desc msg path attrs =
  buildObjectValueAttrsFields buildObjectValueAttrsForMessage (Message_Fields desc) msg path attrs.
Proof. by destruct desc. Qed.

Local Notation buildTurn field :=
  (buildObjectValueAttrsField
     (nestedOf (λ m, objectValueForMessageWith (buildObjectValueAttrsForMessage m)) objNil field)
     (valueMessageOf (λ m, objectValueForMessageWith (buildObjectValueAttrsForMessage m)) objNil field)
     (nestedOf buildObjectValueAttrsForMessage attrsNil field) field).

Lemma buildObjectValueAttrsFields_app pre post msg path attrs :
  buildObjectValueAttrsFields buildObjectValueAttrsForMessage (pre ++ post) msg path attrs =
    let! r := buildObjectValueAttrsFields buildObjectValueAttrsForMessage pre msg path attrs in
    match r with
    | inr err => Ok (inr err)
    | inl attrs1 =>
        buildObjectValueAttrsFields buildObjectValueAttrsForMessage post msg path attrs1
    end.
Proof.
  revert attrs. induction pre as [|field pre IH]; intros attrs; [done|].
  cbn [app buildObjectValueAttrsFields].
  destruct (buildTurn field msg path attrs) as [[attrs1|err]|r]; cbn [obind]; try done.
Qed.

Lemma writtenNames_unfold desc :
  writtenNames desc = writtenNamesFields writtenNames (Message_Fields desc).
Proof. by destruct desc. Qed.

(** The reflector writes the names of the message and no other. *)
Lemma buildObjectValueAttrsForMessage_frame desc :
  ∀ msg path attrs attrs' k,
    buildObjectValueAttrsForMessage desc msg path attrs = Ok (inl attrs') →
    k ∉ writtenNames desc → attrs' !! k = attrs !! k.
Proof.
  induction desc as [desc IH] using MessageDescriptor_nested_ind.
  intros msg path attrs attrs' k. rewrite buildObjectValueAttrsForMessage_unfold, writtenNames_unfold.
  revert attrs. induction (Message_Fields desc) as [|field rest IHrest]; intros attrs Hb Hk.
  - simpl in Hb. by simplify_eq.
  - cbn [buildObjectValueAttrsFields] in Hb.
    apply obind_Ok in Hb as ([attrs1|err] & Hturn & Hb); [|done].
    cbn [writtenNamesFields] in Hk. apply not_elem_of_app in Hk as [Hk1 Hk2].
    rewrite (IHrest (λ f g m Hin, IH f g m (list_elem_of_further _ _ _ Hin)) attrs1 Hb Hk2).
    clear Hb IHrest Hk2. unfold buildObjectValueAttrsField in Hturn.
    unfold writtenNamesField in Hk1.
    apply obind_Ok in Hturn as (elem & Helem & Hturn). rewrite Helem in Hk1.
    destruct elem as [[[elem|elem|nested|name]|]|err]; simplify_eq; try done.
    + apply obind_Ok in Hturn as ([v|err] & _ & Hturn); [|done].
      destruct (TypeConstraint elem) as [ty d]. destruct (HasErrors d); [done|].
      destruct (convert_Convert v ty); simplify_eq.
      apply lookup_insert_ne. intros <-. apply Hk1, list_elem_of_here.
    + assert (TypeName elem ≠ k) as Hne by (intros <-; apply Hk1, list_elem_of_here).
      unfold reflectNestedBlock in Hturn.
      repeat (first
        [ progress simplify_eq
        | match goal with
          | H : obind _ _ = Ok _ |- _ => apply obind_Ok in H as (? & ? & H)
          | H : context [match ?x with _ => _ end] |- _ => destruct x eqn:?
          end ]); try done; by apply lookup_insert_ne.
    + destruct (GetFieldElem_Flattened _ _ Helem) as [g Hty].
      rewrite (nestedOf_MessageType _ _ _ _ _ Hty) in Hk1.
      rewrite (nestedOf_MessageType _ _ _ _ _ Hty) in Hturn.
      apply obind_Ok in Hturn as (nestedMsg & _ & Hturn).
      by eapply (IH field g nested (list_elem_of_here _ _) Hty).
    + destruct (Message_Get msg field); simplify_eq.
      apply lookup_insert_ne. intros <-. apply Hk1, list_elem_of_here.
Qed.

End ReflectLoop.

Section ReflectList.
Context `{Host}.

(** C6, amended. A repeated nested-block field of kind LIST holding n
    child messages that reflect to objects, all of one type where
    n > 0: the reflected object has, under the type name of the block,
    a list of those n objects in the order of the children; for n = 0,
    where the object constraint of the child message compiles, the empty
    list of that element type. The fields before and after the block
    are taken to reflect, and no later field to write under the type
    name of the block. *)
Theorem ObjectValueForMessage_list_block
    desc pre field post elem msg items objs attrs1 listVal attrs3 :
  Message_Fields desc = pre ++ field :: post →
  TypeName elem ∉ writtenNamesFields writtenNames post →
  GetFieldElem field = Ok (inl (Some (ElemNestedBlockType elem))) →
  CollectionKind elem = NestedBlock_LIST →
  Message_Get msg field = PVList items →
  Forall2 (λ item obj, ∃ child,
             item = PVMessage child
             ∧ objectValueForMessage (Nested elem) child [GetAttrStep (TypeName elem)]
               = Ok (inl obj)) items objs →
  (objs = [] ∧ ∃ nestedTy,
      ObjectTypeConstraintForMessageDesc (Nested elem) = Ok (inl nestedTy)
      ∧ listVal = ListValOf nestedTy [])
  ∨ (objs ≠ [] ∧ ∃ ty, (∀ obj, obj ∈ objs → Value_Type obj = ty)
                       ∧ listVal = ListValOf ty objs) →
  buildObjectValueAttrsFields buildObjectValueAttrsForMessage pre msg [] ∅ = Ok (inl attrs1) →
  buildObjectValueAttrsFields buildObjectValueAttrsForMessage post msg []
    (<[TypeName elem := listVal]> attrs1) = Ok (inl attrs3) →
  ObjectValueForMessage desc msg = Ok (inl (ObjectVal attrs3))
  ∧ attrs3 !! TypeName elem = Some listVal
  ∧ ∃ ety, listVal = ListValOf ety objs ∧ length objs = length items.
Proof.
  intros Hfields Hpost Helem Hkind Hget Hobjs Hlist Hpre Hrest.
  destruct (GetFieldElem_NestedBlock _ _ Helem) as [g Hty].
  assert (Field_Message field = Some (Nested elem)) as Hmsg
    by (unfold Field_Message; by rewrite Hty).
  assert (buildObjectValueAttrsField
            (nestedOf (λ m, objectValueForMessageWith (buildObjectValueAttrsForMessage m)) objNil field)
            (valueMessageOf (λ m, objectValueForMessageWith (buildObjectValueAttrsForMessage m))
               objNil field)
            (nestedOf buildObjectValueAttrsForMessage attrsNil field) field msg [] attrs1
          = Ok (inl (<[TypeName elem := listVal]> attrs1))) as Hturn.
  { unfold buildObjectValueAttrsField. rewrite Helem. cbn [obind].
    unfold reflectNestedBlock. rewrite Hkind, Hget.
    rewrite bool_decide_eq_false_2 by done. cbn [ProtoValue_List obind].
    rewrite (nestedOf_MessageType _ _ _ _ _ Hty).
    rewrite (reflectNestedElems_all _ _ _ _ _ Hobjs). cbn [obind app].
    destruct Hlist as [(-> & nestedTy & Hcons & ->)|(Hne & ty & Hall & ->)].
    - cbn [length Nat.eqb]. rewrite Hmsg, Hcons. done.
    - destruct objs as [|obj objs]; [done|]. cbn [length Nat.eqb].
      rewrite (ListVal_same ty); [done|done| |done].
      inversion Hobjs as [|item obj' items' objs' (child & _ & Hobj) _]; subst.
      rewrite <-(Hall obj) by apply list_elem_of_here.
      by eapply objectValueForMessageWith_object. }
  split; [|split].
  - unfold ObjectValueForMessage, objectValueForMessage, objectValueForMessageWith.
    rewrite buildObjectValueAttrsForMessage_unfold, Hfields, buildObjectValueAttrsFields_app, Hpre.
    cbn [obind buildObjectValueAttrsFields]. rewrite Hturn. cbn [obind]. by rewrite Hrest.
  - assert (attrs3 !! TypeName elem = <[TypeName elem := listVal]> attrs1 !! TypeName elem) as ->.
    { clear Hturn Hpre Hfields. revert Hrest Hpost. generalize (<[TypeName elem := listVal]> attrs1).
      induction post as [|field' post IHpost]; intros attrs Hrest Hpost.
      - simpl in Hrest. by simplify_eq.
      - cbn [buildObjectValueAttrsFields] in Hrest.
        apply obind_Ok in Hrest as ([attrs2|err] & Hturn' & Hrest); [|done].
        cbn [writtenNamesFields] in Hpost. apply not_elem_of_app in Hpost as [Hp1 Hp2].
        rewrite (IHpost attrs2 Hrest Hp2).
        assert (buildObjectValueAttrsFields buildObjectValueAttrsForMessage [field'] msg [] attrs
                = Ok (inl attrs2)) as Hone
          by (cbn [buildObjectValueAttrsFields]; by rewrite Hturn').
        pose proof (buildObjectValueAttrsForMessage_frame
          (MkMessage EmptyString [] [field']) msg [] attrs attrs2 (TypeName elem)) as Hframe.
        apply Hframe; [done|]. simpl. by rewrite app_nil_r. }
    apply lookup_insert_eq.
  - apply Forall2_length in Hobjs.
    destruct Hlist as [(-> & nestedTy & _ & ->)|(_ & ty & _ & ->)]; eauto.
Qed.

End ReflectList.

(** The repeated LIST block of the package's tests, with two children. *)
Lemma ObjectValueForMessage_list_block_witness :
  ∃ obj1 obj2 ty,
    ObjectValueForMessage WithNestedBlockOneLabelRepeated
      (<[1%Z := PVList [PVMessage snakob; PVMessage jackson]]> ∅)
    = Ok (inl (ObjectVal (<["doodad" := ListValOf ty [obj1; obj2]]> ∅)))
    ∧ obj1 = ObjectVal (<["name" := StringVal "Snakob"]> (<["nickname" := StringVal "Snekob"]> ∅))
    ∧ obj2 = ObjectVal (<["name" := StringVal "Jackson"]> (<["nickname" := StringVal "doofus"]> ∅)).
Proof.
  eexists _, _, _. split; [|split; reflexivity].
  refine (proj1 (ObjectValueForMessage_list_block (H := basicHost)
    WithNestedBlockOneLabelRepeated []
    (MkField "hcl.testschema.WithNestedBlockOneLabelRepeated.doodad" 1 Repeated
       (MessageType false WithOneBlockLabel) (blockOptions "doodad" NestedBlock_LIST))
    [] _ (<[1%Z := PVList [PVMessage snakob; PVMessage jackson]]> ∅)
    [PVMessage snakob; PVMessage jackson] _ ∅ _ _
    eq_refl _ eq_refl eq_refl eq_refl _ _ eq_refl eq_refl)).
  - simpl. apply not_elem_of_nil.
  - repeat constructor; eexists; (split; [reflexivity|]); vm_compute; reflexivity.
  - right. split; [done|]. eexists. split; [|reflexivity].
    intros obj Hin. repeat (apply elem_of_cons in Hin as [->|Hin]); [reflexivity..|].
    by apply elem_of_nil in Hin.
Defined.

(** C6 as stated fails: two children of a LIST block that reflect to
    objects of two types. Each child has a repeated block [leaf] of its
    own, reflected as a tuple; the first child holds one leaf and the
    second none, so the two objects differ in type and the list is not
    built: the call panics. *)
Lemma ObjectValueForMessage_list_block_mixed_types :
  let one : Message := <[1%Z := PVList [PVMessage ∅]]> ∅ in
  let none : Message := ∅ in
  let path := [GetAttrStep "doodad"] in
  (∃ elem,
     GetFieldElem (MkField "hcl.testschema.WithListOfRepeatedLeaf.doodad" 1 Repeated
                     (MessageType false WithRepeatedLeaf) (blockOptions "doodad" NestedBlock_LIST))
       = Ok (inl (Some (ElemNestedBlockType elem)))
     ∧ CollectionKind elem = NestedBlock_LIST)
  ∧ objectValueForMessage WithRepeatedLeaf one path
    = Ok (inl (ObjectVal (<["leaf" := TupleVal [ObjectVal ∅]]> ∅)))
  ∧ objectValueForMessage WithRepeatedLeaf none path
    = Ok (inl (ObjectVal (<["leaf" := TupleVal []]> ∅)))
  ∧ ObjectValueForMessage WithListOfRepeatedLeaf
      (<[1%Z := PVList [PVMessage one; PVMessage none]]> ∅)
    = Panic "inconsistent list element types".
Proof.
  cbv zeta. split; [|split; [|split]].
  - eexists. split; reflexivity.
  - vm_compute. reflexivity.
  - vm_compute. reflexivity.
  - vm_compute. reflexivity.
Qed.

(** ** The schema compiler and the surface schema *)

Lemma not_usedNames st name :
  name ∉ usedNames st ↔
  attrs st !! name = None ∧ blockTypes st !! name = None ∧ blockLabels st !! name = None.
Proof.
  unfold usedNames. rewrite !not_elem_of_union, !not_elem_of_dom. naive_solver.
Qed.

Lemma usedNames_lookup st name :
  name ∈ usedNames st ↔
  is_Some (attrs st !! name) ∨ is_Some (blockTypes st !! name) ∨ is_Some (blockLabels st !! name).
Proof. unfold usedNames. rewrite !elem_of_union, !elem_of_dom. naive_solver. Qed.

Lemma usedNames_appendAttribute st attrS declaredBy :
  usedNames (appendAttribute st attrS declaredBy)
  = usedNames st ∪ {[AttributeSchema_Name attrS]}.
Proof. unfold usedNames, appendAttribute. simpl. rewrite dom_insert_L. set_solver. Qed.

Lemma usedNames_appendBlock st blockS declaredBy :
  usedNames (appendBlock st blockS declaredBy)
  = usedNames st ∪ {[BlockHeaderSchema_Type blockS]}.
Proof. unfold usedNames, appendBlock. simpl. rewrite dom_insert_L. set_solver. Qed.

Lemma usedNames_recordLabel st name declaredBy :
  usedNames (recordLabel st name declaredBy) = usedNames st ∪ {[name]}.
Proof. unfold usedNames, recordLabel. simpl. rewrite dom_insert_L. set_solver. Qed.

(** Each declaration goes through exactly when its name is not in use. *)
Lemma declareAttribute_spec field attrS st :
  match declareAttribute field attrS st with
  | inl st' => ((AttributeSchema_Name attrS ∉ usedNames st)
               ∧ st' = appendAttribute st attrS (Field_FullName field))
  | inr _ => AttributeSchema_Name attrS ∈ usedNames st
  end.
Proof.
  unfold declareAttribute.
  destruct (attrs st !! _) eqn:Ha; [apply usedNames_lookup; eauto|].
  destruct (blockTypes st !! _) eqn:Hb; [apply usedNames_lookup; eauto|].
  destruct (blockLabels st !! _) eqn:Hl; [apply usedNames_lookup; eauto|].
  split; [by apply not_usedNames|done].
Qed.

Lemma declareBlock_spec field blockS st :
  match declareBlock field blockS st with
  | inl st' => ((BlockHeaderSchema_Type blockS ∉ usedNames st)
               ∧ st' = appendBlock st blockS (Field_FullName field))
  | inr _ => BlockHeaderSchema_Type blockS ∈ usedNames st
  end.
Proof.
  unfold declareBlock.
  destruct (attrs st !! _) eqn:Ha; [apply usedNames_lookup; eauto|].
  destruct (blockTypes st !! _) eqn:Hb; [apply usedNames_lookup; eauto|].
  destruct (blockLabels st !! _) eqn:Hl; [apply usedNames_lookup; eauto|].
  split; [by apply not_usedNames|done].
Qed.

Lemma declareLabel_spec field name st :
  match declareLabel field name st with
  | inl st' => ((name ∉ usedNames st) ∧ st' = recordLabel st name (Field_FullName field))
  | inr _ => name ∈ usedNames st
  end.
Proof.
  unfold declareLabel.
  destruct (attrs st !! _) eqn:Ha; [apply usedNames_lookup; eauto|].
  destruct (blockTypes st !! _) eqn:Hb; [apply usedNames_lookup; eauto|].
  destruct (blockLabels st !! _) eqn:Hl; [apply usedNames_lookup; eauto|].
  split; [by apply not_usedNames|done].
Qed.

Lemma newNames_nil st : newNames [] st.
Proof. split; [constructor|]. intros name Hin. by apply elem_of_nil in Hin. Qed.

Lemma newNames_cons name names st st' :
  usedNames st' = usedNames st ∪ {[name]} →
  newNames (name :: names) st ↔ (name ∉ usedNames st) ∧ newNames names st'.
Proof.
  intros Hused. unfold newNames. rewrite NoDup_cons, Hused. split.
  - intros [[Hnotin Hnodup] Hfresh]. split; [apply Hfresh, list_elem_of_here|].
    split; [done|]. intros n Hn. apply not_elem_of_union. split.
    + by apply Hfresh, list_elem_of_further.
    + intros ->%elem_of_singleton. done.
  - intros [Hname [Hnodup Hfresh]]. split; [split; [|done]|].
    + intros Hin. apply (Hfresh _ Hin). set_solver.
    + intros n [->|Hn]%elem_of_cons; [done|].
      specialize (Hfresh _ Hn). set_solver.
Qed.

Lemma newNames_app names1 names2 st st' :
  usedNames st' = usedNames st ∪ list_to_set names1 →
  newNames (names1 ++ names2) st ↔ newNames names1 st ∧ newNames names2 st'.
Proof.
  intros Hused. unfold newNames. rewrite NoDup_app, Hused. split.
  - intros [(Hn1 & Hdisj & Hn2) Hfresh]. split; [split; [done|]|split; [done|]].
    + intros n Hn. apply Hfresh, elem_of_app. by left.
    + intros n Hn. apply not_elem_of_union. split.
      * apply Hfresh, elem_of_app. by right.
      * intros Hin%elem_of_list_to_set. by apply (Hdisj _ Hin).
  - intros [[Hn1 Hf1] [Hn2 Hf2]]. split; [split; [done|split; [|done]]|].
    + intros n Hin1 Hin2. apply (Hf2 _ Hin2). apply elem_of_union. right.
      by apply elem_of_list_to_set.
    + intros n [Hn|Hn]%elem_of_app; [by apply Hf1|].
      specialize (Hf2 _ Hn). set_solver.
Qed.

Lemma flattenAttributes_spec field nest : ∀ st,
  match flattenAttributes field nest st with
  | inl st' =>
      newNames (map AttributeSchema_Name nest) st
      ∧ Schema_Attributes (ret st') = Schema_Attributes (ret st) ++ nest
      ∧ Schema_Blocks (ret st') = Schema_Blocks (ret st)
      ∧ usedNames st' = usedNames st ∪ list_to_set (map AttributeSchema_Name nest)
  | inr _ => ¬ newNames (map AttributeSchema_Name nest) st
  end.
Proof.
  induction nest as [|attrS rest IH]; intros st.
  - simpl. split; [apply newNames_nil|]. rewrite app_nil_r. set_solver.
  - cbn [flattenAttributes map].
    pose proof (usedNames_appendAttribute st attrS (Field_FullName field)) as Hused.
    pose proof (declareAttribute_spec field attrS st) as Hdecl. unfold declareAttribute in Hdecl.
    destruct (attrs st !! _) eqn:Ha;
      [intros [Hf _]%(newNames_cons _ _ _ _ Hused); done|].
    destruct (blockTypes st !! _) eqn:Hb;
      [intros [Hf _]%(newNames_cons _ _ _ _ Hused); done|].
    destruct (blockLabels st !! _) eqn:Hl;
      [intros [Hf _]%(newNames_cons _ _ _ _ Hused); done|].
    destruct Hdecl as [Hfresh _].
    specialize (IH (appendAttribute st attrS (Field_FullName field))).
    destruct (flattenAttributes field rest _) as [st'|err].
    + destruct IH as (Hnew & Hattrs & Hblocks & Hused').
      split; [by apply (newNames_cons _ _ _ _ Hused)|].
      rewrite Hattrs, Hblocks, Hused', Hused. simpl. rewrite <-app_assoc.
      repeat split; try done. set_solver.
    + intros [_ Hnew]%(newNames_cons _ _ _ _ Hused). done.
Qed.

Lemma flattenBlocks_spec field nest : ∀ st,
  match flattenBlocks field nest st with
  | inl st' =>
      newNames (map BlockHeaderSchema_Type nest) st
      ∧ Schema_Attributes (ret st') = Schema_Attributes (ret st)
      ∧ Schema_Blocks (ret st') = Schema_Blocks (ret st) ++ nest
      ∧ usedNames st' = usedNames st ∪ list_to_set (map BlockHeaderSchema_Type nest)
  | inr _ => ¬ newNames (map BlockHeaderSchema_Type nest) st
  end.
Proof.
  induction nest as [|blockS rest IH]; intros st.
  - simpl. split; [apply newNames_nil|]. rewrite app_nil_r. set_solver.
  - cbn [flattenBlocks map].
    pose proof (usedNames_appendBlock st blockS (Field_FullName field)) as Hused.
    pose proof (declareBlock_spec field blockS st) as Hdecl. unfold declareBlock in Hdecl.
    destruct (attrs st !! _) eqn:Ha;
      [intros [Hf _]%(newNames_cons _ _ _ _ Hused); done|].
    destruct (blockTypes st !! _) eqn:Hb;
      [intros [Hf _]%(newNames_cons _ _ _ _ Hused); done|].
    destruct (blockLabels st !! _) eqn:Hl;
      [intros [Hf _]%(newNames_cons _ _ _ _ Hused); done|].
    destruct Hdecl as [Hfresh _].
    specialize (IH (appendBlock st blockS (Field_FullName field))).
    destruct (flattenBlocks field rest _) as [st'|err].
    + destruct IH as (Hnew & Hattrs & Hblocks & Hused').
      split; [by apply (newNames_cons _ _ _ _ Hused)|].
      rewrite Hattrs, Hblocks, Hused', Hused. simpl. rewrite <-app_assoc.
      repeat split; try done. set_solver.
    + intros [_ Hnew]%(newNames_cons _ _ _ _ Hused). done.
Qed.

(** The label scan of [blockTypeSchema] returns the label names when
    every field of the nested message can be read, and only then. *)
Lemma blockLabelNames_spec fields : ∀ acc,
  match blockLabelNames fields acc with
  | Ok names => (Forall (λ f, returns (GetFieldElem f)) fields ∧ names = acc ++ labelNames fields)
  | Panic _ => ¬ Forall (λ f, returns (GetFieldElem f)) fields
  end.
Proof.
  induction fields as [|field rest IH]; intros acc.
  - simpl. split; [constructor|]. by rewrite app_nil_r.
  - cbn [blockLabelNames labelNames flat_map]. unfold labelNamesField at 1.
    destruct (GetFieldElem field) as [elem|reason] eqn:Helem; cbn [obind].
    + assert (returns (GetFieldElem field)) as Hret by (rewrite Helem; by eexists).
      destruct elem as [[[a|b|nested|name]|]|err];
        try (specialize (IH acc); destruct (blockLabelNames rest acc);
             [destruct IH as [Hall ->]; split; [by constructor|done]
             |intros Hall%Forall_cons; by destruct Hall]).
      specialize (IH (acc ++ [name])). destruct (blockLabelNames rest (acc ++ [name])).
      * destruct IH as [Hall ->]. split; [by constructor|]. by rewrite <-app_assoc.
      * intros Hall%Forall_cons; by destruct Hall.
    + intros [[a Ha] _]%Forall_cons. congruence.
Qed.

Lemma newNames_singleton name st : newNames [name] st ↔ name ∉ usedNames st.
Proof.
  unfold newNames. split.
  - intros [_ Hfresh]. apply Hfresh, list_elem_of_here.
  - intros Hfresh. split; [apply NoDup_singleton|].
    by intros n ->%list_elem_of_singleton.
Qed.

Lemma bodySchemaField_spec descName field st :
  (∀ g m, Field_Type field = MessageType g m → compiles m) →
  match bodySchemaField descName (nestedOf bodySchema nilDeref field) field st with
  | Ok (inl st') =>
      (annotationInOrder noConflicts field ∧ newNames (fieldNames field) st)
      ∧ ret st' = mergeSchema (ret st) (surfaceField surfaceSchema field)
      ∧ usedNames st' = usedNames st ∪ list_to_set (fieldNames field)
  | _ => ¬ (annotationInOrder noConflicts field ∧ newNames (fieldNames field) st)
  end.
Proof.
  intros Hnested.
  unfold bodySchemaField, annotationInOrder, fieldNames, surfaceField, labelNamesField.
  destruct (GetFieldElem field) as [[[[a|b|nested|name]|]|err]|reason] eqn:Helem;
    cbn [obind]; try (by intros [[] _]).
  - pose proof (declareAttribute_spec field (attributeSchema a) st) as Hdecl.
    destruct (declareAttribute _ _ _) as [st'|err].
    + destruct Hdecl as [Hfresh ->]. simpl.
      split; [split; [done|by apply newNames_singleton]|].
      split; [unfold mergeSchema; simpl; by rewrite ?app_nil_r|].
      rewrite usedNames_appendAttribute. simpl. set_solver.
    + simpl. intros [_ Hnew%newNames_singleton]. done.
  - unfold blockTypeSchema.
    pose proof (blockLabelNames_spec (Message_Fields (Nested b)) []) as Hscan.
    destruct (blockLabelNames _ _) as [names|reason]; cbn [obind]; [|by intros [? _]].
    destruct Hscan as [Hall ->]. simpl.
    pose proof (declareBlock_spec field (blockHeader b) st) as Hdecl.
    unfold blockHeader in Hdecl at 1 2. 
    destruct (declareBlock _ _ _) as [st'|err].
    + destruct Hdecl as [Hfresh ->].
      split; [split; [done|by apply newNames_singleton]|].
      split; [unfold mergeSchema; simpl; by rewrite ?app_nil_r|].
      rewrite usedNames_appendBlock. simpl. set_solver.
    + intros [_ Hnew%newNames_singleton]. done.
  - destruct (GetFieldElem_Flattened _ _ Helem) as [g Hty].
    rewrite !(nestedOf_MessageType _ _ _ _ _ Hty).
    specialize (Hnested _ _ Hty). unfold compiles in Hnested.
    destruct (bodySchema nested) as [[nest|err]|reason]; cbn [obind];
      try (by intros [? _]).
    destruct Hnested as [Hok ->]. rewrite app_nil_r. unfold schemaNames.
    pose proof (flattenAttributes_spec field (Schema_Attributes (surfaceSchema nested)) st)
      as Hattrs.
    destruct (flattenAttributes _ _ _) as [st1|err].
    + destruct Hattrs as (Hnew1 & Ha1 & Hb1 & Hused1).
      pose proof (flattenBlocks_spec field (Schema_Blocks (surfaceSchema nested)) st1)
        as Hblocks.
      destruct (flattenBlocks _ _ _) as [st2|err].
      * destruct Hblocks as (Hnew2 & Ha2 & Hb2 & Hused2).
        split; [split; [done|by apply (newNames_app _ _ _ _ Hused1)]|].
        split.
        -- unfold mergeSchema. destruct (ret st2). simpl in *. by rewrite Ha2, Hb2, Ha1, Hb1.
        -- rewrite Hused2, Hused1, list_to_set_app_L. set_solver.
      * intros [_ [_ Hnew]%(newNames_app _ _ _ _ Hused1)]. done.
    + intros [_ Hnew]. apply Hattrs.
      destruct Hnew as [Hnodup Hfresh]. apply NoDup_app in Hnodup as (? & _ & _).
      split; [done|]. intros n Hn. apply Hfresh, elem_of_app. by left.
  - pose proof (declareLabel_spec field name st) as Hdecl.
    destruct (declareLabel _ _ _) as [st'|err].
    + destruct Hdecl as [Hfresh ->]. simpl.
      split; [split; [done|by apply newNames_singleton]|].
      split; [unfold mergeSchema; destruct (ret st); simpl; by rewrite !app_nil_r|].
      rewrite usedNames_recordLabel. set_solver.
    + simpl. intros [_ Hnew%newNames_singleton]. done.
  - simpl. split; [split; [done|apply newNames_nil]|].
    split; [unfold mergeSchema; destruct (ret st); simpl; by rewrite !app_nil_r|].
    set_solver.
Qed.

Lemma mergeSchema_assoc a b c :
  mergeSchema (mergeSchema a b) c = mergeSchema a (mergeSchema b c).
Proof. unfold mergeSchema. simpl. by rewrite !app_assoc. Qed.

Lemma mergeSchema_noEntries_r a : mergeSchema a noEntries = a.
Proof. destruct a. unfold mergeSchema. simpl. by rewrite !app_nil_r. Qed.

Lemma mergeSchema_noEntries_l a : mergeSchema noEntries a = a.
Proof. by destruct a. Qed.

Lemma bodySchemaFields_spec descName fields :
  Forall (λ field, ∀ g m, Field_Type field = MessageType g m → compiles m) fields →
  ∀ st,
  match bodySchemaFields bodySchema descName fields st with
  | Ok (inl schema) =>
      (annotationsInOrder noConflicts fields ∧ newNames (flat_map fieldNames fields) st)
      ∧ schema = mergeSchema (ret st) (surfaceFields surfaceSchema fields)
  | _ => ¬ (annotationsInOrder noConflicts fields ∧ newNames (flat_map fieldNames fields) st)
  end.
Proof.
  induction 1 as [|field rest Hfield Hrest IH]; intros st.
  - simpl. rewrite mergeSchema_noEntries_r. split; [split; [done|apply newNames_nil]|done].
  - cbn [bodySchemaFields annotationsInOrder flat_map surfaceFields].
    pose proof (bodySchemaField_spec descName field st Hfield) as Hturn.
    destruct (bodySchemaField _ _ _ _) as [[st1|err]|reason]; cbn [obind].
    + destruct Hturn as ([Hok Hnew] & Hret & Hused). specialize (IH st1).
      destruct (bodySchemaFields _ _ rest st1) as [[schema|err]|reason].
      * destruct IH as ([Hoks Hnews] & ->).
        split; [split; [done|by apply (newNames_app _ _ _ _ Hused)]|].
        by rewrite Hret, mergeSchema_assoc.
      * intros [[_ Hoks] [_ Hnews]%(newNames_app _ _ _ _ Hused)]. by apply IH.
      * intros [[_ Hoks] [_ Hnews]%(newNames_app _ _ _ _ Hused)]. by apply IH.
    + intros [[Hok _] Hnew]. apply Hturn. split; [done|].
      destruct Hnew as [Hnodup Hfresh]. apply NoDup_app in Hnodup as (? & _ & _).
      split; [done|]. intros n Hn. apply Hfresh, elem_of_app. by left.
    + intros [[Hok _] Hnew]. apply Hturn. split; [done|].
      destruct Hnew as [Hnodup Hfresh]. apply NoDup_app in Hnodup as (? & _ & _).
      split; [done|]. intros n Hn. apply Hfresh, elem_of_app. by left.
Qed.

Lemma bodySchema_unfold desc :
  bodySchema desc =
    match firstRealOneof (Message_Oneofs desc) with
    | Some oneOf =>
        Ok (inr (schemaErrorf (Oneof_FullName oneOf)
                   "oneof declarations are not yet supported in messages used for HCL decoding"))
    | None =>
        bodySchemaFields bodySchema (Message_FullName desc) (Message_Fields desc) emptySchemaState
    end.
Proof. by destruct desc. Qed.

Lemma noConflicts_unfold desc :
  noConflicts desc ↔
    firstRealOneof (Message_Oneofs desc) = None
    ∧ annotationsInOrder noConflicts (Message_Fields desc)
    ∧ NoDup (flat_map fieldNames (Message_Fields desc)).
Proof. by destruct desc. Qed.

Lemma surfaceSchema_unfold desc :
  surfaceSchema desc = surfaceFields surfaceSchema (Message_Fields desc).
Proof. by destruct desc. Qed.

Lemma newNames_emptySchemaState names : newNames names emptySchemaState ↔ NoDup names.
Proof.
  unfold newNames. split; [by intros [? _]|]. intros Hnodup. split; [done|].
  intros n _. unfold usedNames. simpl. set_solver.
Qed.

Lemma bodySchema_compiles desc : compiles desc.
Proof.
  induction desc as [desc IH] using MessageDescriptor_nested_ind.
  unfold compiles. rewrite bodySchema_unfold.
  destruct (firstRealOneof _) as [oneOf|] eqn:Honeof;
    [intros [? _]%noConflicts_unfold; congruence|].
  assert (Forall (λ field, ∀ g m, Field_Type field = MessageType g m → compiles m)
            (Message_Fields desc)) as Hall.
  { apply Forall_forall. intros field Hin g m Hty. by apply (IH field g m). }
  pose proof (bodySchemaFields_spec (Message_FullName desc) _ Hall emptySchemaState) as Hrun.
  destruct (bodySchemaFields _ _ _ _) as [[schema|err]|reason].
  - destruct Hrun as ([Hok Hnew%newNames_emptySchemaState] & ->).
    split; [by apply noConflicts_unfold|].
    rewrite surfaceSchema_unfold. apply mergeSchema_noEntries_l.
  - intros (_ & Hok & Hnodup)%noConflicts_unfold.
    apply Hrun. split; [done|by apply newNames_emptySchemaState].
  - intros (_ & Hok & Hnodup)%noConflicts_unfold.
    apply Hrun. split; [done|by apply newNames_emptySchemaState].
Qed.

Lemma bodySchema_Ok desc schema :
  bodySchema desc = Ok (inl schema) ↔ noConflicts desc ∧ schema = surfaceSchema desc.
Proof.
  pose proof (bodySchema_compiles desc) as Hc. unfold compiles in Hc.
  destruct (bodySchema desc) as [[schema'|err]|reason].
  - split; [by intros [= <-]|]. by intros [_ ->]; destruct Hc as [_ ->].
  - split; [done|]. by intros [? _].
  - split; [done|]. by intros [? _].
Qed.

Lemma surfaceFields_app rec pre post :
  surfaceFields rec (pre ++ post) = mergeSchema (surfaceFields rec pre) (surfaceFields rec post).
Proof.
  induction pre as [|field pre IH]; simpl.
  - by rewrite mergeSchema_noEntries_l.
  - by rewrite IH, mergeSchema_assoc.
Qed.

Lemma annotationsInOrder_app rec pre post :
  annotationsInOrder rec (pre ++ post)
  ↔ annotationsInOrder rec pre ∧ annotationsInOrder rec post.
Proof. induction pre as [|field pre IH]; simpl; naive_solver. Qed.

(** The names the fields declare are the names of their entries and
    their label names. *)
Lemma fieldNames_surfaceFields fields :
  flat_map fieldNames fields
  ≡ₚ schemaNames (surfaceFields surfaceSchema fields) ++ labelNames fields.
Proof.
  induction fields as [|field rest IH]; [done|].
  cbn [flat_map surfaceFields labelNames]. rewrite IH.
  unfold fieldNames, schemaNames, mergeSchema. cbn [Schema_Attributes Schema_Blocks].
  rewrite !map_app. fold (labelNames rest). solve_Permutation.
Qed.

Lemma schemaNames_mergeSchema a b :
  schemaNames (mergeSchema a b) ≡ₚ schemaNames a ++ schemaNames b.
Proof.
  unfold schemaNames, mergeSchema. cbn [Schema_Attributes Schema_Blocks].
  rewrite !map_app. solve_Permutation.
Qed.

(** C4, amended. The schema of a descriptor compiles, to its surface
    schema, where the descriptor has no oneof other than synthetic ones,
    its annotations are in order and no name is declared twice, the same
    holding of the messages it flattens. In every compiled schema each attribute name,
    block type name and label name of the message appears once among the
    three kinds together. And flattening is transparent: where the
    schema of the message without the flattening field and the schema of
    the flattened message compile, and no name of the second is a name
    of the first or a label name of the message, the schema of the
    message compiles, to the entries of the two together. *)
Theorem bodySchema_unique_names_transparent_flatten desc :
  (noConflicts desc → bodySchema desc = Ok (inl (surfaceSchema desc)))
  ∧ (∀ schema, bodySchema desc = Ok (inl schema) →
       NoDup (schemaNames schema ++ labelNames (Message_Fields desc)))
  ∧ (∀ pre field post child own nested,
       Message_Fields desc = pre ++ field :: post →
       GetFieldElem field = Ok (inl (Some (ElemFlattened child))) →
       bodySchema (MkMessage (Message_FullName desc) (Message_Oneofs desc) (pre ++ post))
         = Ok (inl own) →
       bodySchema child = Ok (inl nested) →
       (∀ name, name ∈ schemaNames nested →
                name ∉ schemaNames own ++ labelNames (pre ++ post)) →
       ∃ schema,
         bodySchema desc = Ok (inl schema)
         ∧ Schema_Attributes schema ≡ₚ Schema_Attributes own ++ Schema_Attributes nested
         ∧ Schema_Blocks schema ≡ₚ Schema_Blocks own ++ Schema_Blocks nested).
Proof.
  split; [|split].
  - intros Hok. by apply bodySchema_Ok.
  - intros schema [Hok ->]%bodySchema_Ok.
    apply noConflicts_unfold in Hok as (_ & _ & Hnodup).
    by rewrite surfaceSchema_unfold, <-fieldNames_surfaceFields.
  - intros pre field post child own nested Hfields Helem Hown Hnested Hdisjoint.
    apply bodySchema_Ok in Hown as [Hown ->]. apply bodySchema_Ok in Hnested as [Hchild ->].
    apply noConflicts_unfold in Hown as (Honeof & Horder & Hnodup).
    cbn [Message_Oneofs Message_Fields] in Honeof, Horder, Hnodup.
    destruct (GetFieldElem_Flattened _ _ Helem) as [g Hty].
    assert (surfaceField surfaceSchema field = surfaceSchema child) as Hsurface.
    { unfold surfaceField. rewrite Helem. by apply nestedOf_MessageType with g. }
    assert (fieldNames field = schemaNames (surfaceSchema child)) as Hnames.
    { unfold fieldNames, labelNamesField. by rewrite Hsurface, Helem, app_nil_r. }
    assert (NoDup (schemaNames (surfaceSchema child))) as Hnodup'.
    { pose proof Hchild as (_ & _ & Hn)%noConflicts_unfold.
      rewrite fieldNames_surfaceFields, <-surfaceSchema_unfold in Hn.
      by apply NoDup_app in Hn as (? & _ & _). }
    assert (noConflicts desc) as Hdesc.
    { apply noConflicts_unfold. rewrite Hfields. split; [done|]. split.
      - apply annotationsInOrder_app in Horder as [Hpre Hpost].
        apply annotationsInOrder_app. split; [done|]. split; [|done].
        unfold annotationInOrder. rewrite Helem. by rewrite (nestedOf_MessageType _ _ _ _ _ Hty).
      - rewrite flat_map_app in Hnodup. rewrite flat_map_app. cbn [flat_map]. rewrite Hnames.
        assert (∀ name, name ∈ schemaNames (surfaceSchema child) →
                        name ∉ flat_map fieldNames pre ++ flat_map fieldNames post) as Hd.
        { intros name Hin. rewrite <-flat_map_app, fieldNames_surfaceFields.
          exact (Hdisjoint _ Hin). }
        apply NoDup_app in Hnodup as (Hn1 & Hn12 & Hn2).
        apply NoDup_app. split; [done|]. split.
        + intros name Hin1 [Hin|Hin]%elem_of_app.
          * apply (Hd _ Hin), elem_of_app. by left.
          * by apply (Hn12 _ Hin1).
        + apply NoDup_app. split; [done|]. split; [|done].
          intros name Hin Hin2. apply (Hd _ Hin), elem_of_app. by right. }
    exists (surfaceSchema desc). split; [by apply bodySchema_Ok|].
    rewrite (surfaceSchema_unfold desc), (surfaceSchema_unfold (MkMessage _ _ _)), Hfields.
    cbn [Message_Fields]. rewrite !surfaceFields_app.
    cbn [surfaceFields]. rewrite Hsurface. unfold mergeSchema.
    cbn [Schema_Attributes Schema_Blocks]. split; solve_Permutation.
Qed.

(** The flattening message of the package's tests: the attribute of the
    flattened message and the attribute of the message itself. *)
Lemma bodySchema_unique_names_transparent_flatten_witness :
  let name := {| AttributeSchema_Name := "name"; AttributeSchema_Required := false |} in
  let species := {| AttributeSchema_Name := "species"; AttributeSchema_Required := false |} in
  bodySchema WithFlattenStringAttr
  = Ok (inl {| Schema_Attributes := [name; species]; Schema_Blocks := [] |})
  ∧ NoDup (schemaNames {| Schema_Attributes := [name; species]; Schema_Blocks := [] |}
           ++ labelNames (Message_Fields WithFlattenStringAttr))
  ∧ ∃ schema,
      bodySchema WithFlattenStringAttr = Ok (inl schema)
      ∧ Schema_Attributes schema ≡ₚ [species] ++ [name]
      ∧ Schema_Blocks schema ≡ₚ [] ++ [].
Proof.
  cbv zeta.
  destruct (bodySchema_unique_names_transparent_flatten WithFlattenStringAttr)
    as (Hcompiles & Hunique & Htransparent).
  split; [|split].
  - change {| Schema_Attributes := _; Schema_Blocks := [] |}
      with (surfaceSchema WithFlattenStringAttr).
    apply Hcompiles. simpl. split; [reflexivity|]. split.
    + split; [|done]. split; [reflexivity|]. split; [done|].
      vm_compute. apply NoDup_singleton.
    + vm_compute. apply NoDup_cons. split; [|apply NoDup_singleton].
      by intros ?%list_elem_of_singleton.
  - apply Hunique. vm_compute. reflexivity.
  - apply (Htransparent []
      (MkField "hcl.testschema.WithFlattenStringAttr.base" 1 Optional
         (MessageType false WithStringAttr) flattenOptions)
      [MkField "hcl.testschema.WithFlattenStringAttr.species" 2 Optional (ScalarType StringKind)
         (attrOptions "species" false EmptyString Attribute_NOT_RAW)]
      WithStringAttr
      {| Schema_Attributes :=
           [{| AttributeSchema_Name := "species"; AttributeSchema_Required := false |}];
         Schema_Blocks := [] |}
      {| Schema_Attributes :=
           [{| AttributeSchema_Name := "name"; AttributeSchema_Required := false |}];
         Schema_Blocks := [] |}).
    + reflexivity.
    + reflexivity.
    + vm_compute. reflexivity.
    + vm_compute. reflexivity.
    + intros n Hn. vm_compute in Hn. vm_compute.
      apply list_elem_of_singleton in Hn as ->.
      by intros ?%list_elem_of_singleton.
Defined.

(** C4 as stated fails: a message whose annotations are in order and
    declare two names, with a oneof that is not synthetic. The schema
    does not compile. *)
Lemma bodySchema_rejects_oneof :
  annotationsInOrder noConflicts (Message_Fields WithOneof)
  ∧ flat_map fieldNames (Message_Fields WithOneof) = ["left"; "right"]
  ∧ NoDup (flat_map fieldNames (Message_Fields WithOneof))
  ∧ bodySchema WithOneof
    = Ok (inr (schemaErrorf "hcl.testschema.WithOneof.choice"
                 "oneof declarations are not yet supported in messages used for HCL decoding")).
Proof.
  split; [|split; [|split]].
  - simpl. unfold annotationInOrder. simpl. done.
  - reflexivity.
  - vm_compute. apply NoDup_cons. split; [|apply NoDup_singleton].
    by intros ?%list_elem_of_singleton.
  - reflexivity.
Qed.

(** ** Annotations: what a resolved element guarantees *)

Ltac bool_facts :=
  repeat match goal with
  | H : negb _ = true |- _ => apply negb_true_iff in H
  | H : negb _ = false |- _ => apply negb_false_iff in H
  | H : bool_decide _ = true |- _ => apply bool_decide_eq_true in H
  | H : bool_decide _ = false |- _ => apply bool_decide_eq_false in H
  | H : _ && _ = true |- _ => apply andb_true_iff in H as [? ?]
  | H : _ || _ = false |- _ => apply orb_false_iff in H as [? ?]
  | H : String.eqb _ _ = true |- _ => apply String.eqb_eq in H
  | H : String.eqb _ _ = false |- _ => apply String.eqb_neq in H
  end.

(** X1. An element that [GetFieldElem] returns satisfies the checks of
    its case. An attribute targets the field, is raw exactly on a bytes
    field, and a raw attribute is singular and carries a type
    expression; a map attribute has string keys. A nested block sits on
    a message field that is not a map, its nested message is the message
    type of the field, it is repeated exactly when the field is a list,
    and its collection kind is AUTO on a singular field and TUPLE, LIST
    or SET on a list. A flattened message is the message type of a
    singular message field. The name of the element is not empty. *)
Theorem GetFieldElem_element_invariants field e :
  GetFieldElem field = Ok (inl (Some e)) →
  match e with
  | ElemAttribute elem =>
      Name elem ≠ EmptyString ∧ TargetField elem = field
      ∧ (RawMode elem ≠ Attribute_NOT_RAW ↔ Field_Kind field = BytesKind)
      ∧ (RawMode elem ≠ Attribute_NOT_RAW →
           Field_IsList field = false ∧ Field_IsMap field = false
           ∧ TypeExprString elem ≠ EmptyString)
      ∧ (∀ key, Field_MapKey field = Some key → Field_Kind key = StringKind)
  | ElemNestedBlockType elem =>
      TypeName elem ≠ EmptyString
      ∧ Field_Kind field = MessageKind ∧ Field_IsMap field = false
      ∧ Field_Message field = Some (Nested elem)
      ∧ Repeated_ elem = Field_IsList field
      ∧ (if Repeated_ elem
         then CollectionKind elem = NestedBlock_TUPLE ∨ CollectionKind elem = NestedBlock_LIST
              ∨ CollectionKind elem = NestedBlock_SET
         else CollectionKind elem = NestedBlock_AUTO)
  | ElemFlattened nested =>
      Field_Kind field = MessageKind ∧ Field_Cardinality field ≠ Repeated
      ∧ Field_Message field = Some nested
  | ElemBlockLabel name => name ≠ EmptyString
  end.
Proof.
  unfold GetFieldElem. destruct (Field_Options field) as [opts|]; [|done].
  destruct (attrSet (E_Attr opts)) eqn:Hattr.
  { destruct (E_Attr opts) as [a|]; [|done]. simpl in Hattr.
    destruct (blockSet _); [done|]. destruct (E_Flatten opts); [done|].
    destruct (labelSet _); [done|]. intros [= Hcheck]. unfold checkAttribute in Hcheck.
    repeat case_match; simplify_eq; bool_facts; simpl;
      (split; [done|]); (split; [done|]).
    all: unfold Field_IsMap, Field_MapKey in *.
    all: repeat split; try done; try congruence; try (intros; simplify_eq; done).
    all: try (intros key Hkey; destruct (Field_Type field); simplify_eq; simpl in *; bool_facts;
              match goal with
              | H : ¬ ¬ _ |- _ => by apply dec_stable in H
              | _ => idtac
              end; try done). }
  destruct (blockSet (E_Block opts)) eqn:Hblock.
  { destruct (E_Block opts) as [b|]; [|done]. simpl in Hblock.
    destruct (E_Flatten opts); [by destruct (derefAttrName _)|].
    destruct (labelSet _); [by destruct (derefAttrName _)|].
    intros [= Hcheck]. unfold checkNestedBlock in Hcheck.
    repeat case_match; simplify_eq; bool_facts; simpl.
    all: unfold Field_Message.
    all: repeat match goal with H : Field_Type _ = _ |- _ => rewrite H end.
    all: repeat split; try done; try congruence.
    all: repeat match goal with
         | H : bool_decide _ && _ = false |- _ => apply andb_false_iff in H as [?|?]
         | H : _ && _ = false |- _ => apply andb_false_iff in H as [?|?]
         end; bool_facts;
         repeat match goal with H : ¬ ¬ _ |- _ => apply dec_stable in H end;
         try done; try congruence; eauto. }
  destruct (E_Flatten opts).
  { destruct (labelSet _); [done|]. intros [= Hcheck]. unfold checkFlatten in Hcheck.
    repeat case_match; simplify_eq; bool_facts.
    unfold Field_Message. repeat match goal with H : Field_Type _ = _ |- _ => rewrite H end.
    done. }
  destruct (labelSet (E_Label opts)) eqn:Hlabel; [|done].
  intros [= <-]. destruct (E_Label opts) as [l|]; [|done]. simpl in *. by bool_facts.
Qed.

(** The repeated LIST block of the package's tests. *)
Lemma GetFieldElem_element_invariants_witness :
  let field := MkField "hcl.testschema.WithNestedBlockOneLabelRepeated.doodad" 1 Repeated
                 (MessageType false WithOneBlockLabel) (blockOptions "doodad" NestedBlock_LIST) in
  let elem := {| TypeName := "doodad"; Nested := WithOneBlockLabel; Repeated_ := true;
                 CollectionKind := NestedBlock_LIST |} in
  TypeName elem ≠ EmptyString
  ∧ Field_Kind field = MessageKind ∧ Field_IsMap field = false
  ∧ Field_Message field = Some (Nested elem)
  ∧ Repeated_ elem = Field_IsList field
  ∧ (CollectionKind elem = NestedBlock_TUPLE ∨ CollectionKind elem = NestedBlock_LIST
     ∨ CollectionKind elem = NestedBlock_SET).
Proof.
  cbv zeta.
  exact (GetFieldElem_element_invariants
    (MkField "hcl.testschema.WithNestedBlockOneLabelRepeated.doodad" 1 Repeated
       (MessageType false WithOneBlockLabel) (blockOptions "doodad" NestedBlock_LIST))
    (ElemNestedBlockType
       {| TypeName := "doodad"; Nested := WithOneBlockLabel; Repeated_ := true;
          CollectionKind := NestedBlock_LIST |})
    eq_refl).
Defined.

(** ** Annotations: more than one payload *)

(** X2. A field with two or more annotation payloads set never resolves
    to an element: [GetFieldElem] returns a schema error that names the
    field, or, where a nested-block payload meets flatten or a label
    and the attribute payload is absent, it dereferences the nil
    attribute payload while formatting the error. *)
Theorem GetFieldElem_exclusive field opts :
  Field_Options field = Some opts →
  2 ≤ payloadCount opts →
  (∃ err, GetFieldElem field = Ok (inr err) ∧ Decl err = Field_FullName field)
  ∨ (E_Attr opts = None ∧ blockSet (E_Block opts) = true
     ∧ GetFieldElem field = Panic "invalid memory address or nil pointer dereference").
Proof.
  intros Hopts. unfold payloadCount, GetFieldElem. rewrite Hopts.
  destruct (attrSet (E_Attr opts)) eqn:Hattr.
  { destruct (E_Attr opts) as [a|]; [|done].
    destruct (blockSet _); [left; by eexists|].
    destruct (E_Flatten opts); [left; by eexists|].
    destruct (labelSet _); [left; by eexists|]. simpl. lia. }
  destruct (blockSet (E_Block opts)) eqn:Hblock.
  { destruct (E_Block opts) as [b|]; [|done].
    destruct (E_Flatten opts).
    { destruct (E_Attr opts); [left; by eexists|by right]. }
    destruct (labelSet _); [|simpl; lia].
    destruct (E_Attr opts); [left; by eexists|by right]. }
  destruct (E_Flatten opts); [|destruct (labelSet _); simpl; lia].
  destruct (labelSet _); [left; by eexists|simpl; lia].
Qed.

(** A field annotated as a nested block and flattened, with no
    attribute payload. *)
Lemma GetFieldElem_exclusive_witness :
  let opts := {| E_Attr := None; E_Block := Some (MkNestedBlock "doodad" NestedBlock_AUTO);
                 E_Flatten := true; E_Label := None |} in
  let field := MkField "hcl.testschema.Both.doodad" 1 Optional
                 (MessageType false WithStringAttr) (Some opts) in
  (∃ err, GetFieldElem field = Ok (inr err) ∧ Decl err = Field_FullName field)
  ∨ (E_Attr opts = None ∧ blockSet (E_Block opts) = true
     ∧ GetFieldElem field = Panic "invalid memory address or nil pointer dereference").
Proof.
  cbv zeta. apply GetFieldElem_exclusive; [reflexivity|]. vm_compute. constructor.
Defined.

(** ** Float and double fields *)

Section FloatFields.
Context `{Host}.

(** X3. An attribute on a singular float or double field. The physical
    constraint of the field is number, without error, and the inferred
    type constraint is number; but once the value of the attribute has
    been converted to a known number that is not null, the encoding of
    it for the field panics: the kind is not among the cases of
    [protoValueForSingletonFieldKind]. The message is not decoded. *)
Theorem fillMessageFromContent_float_panics
    desc pre field post elem content missingRange ctx recovering
    attr val d0 wantTy dT val1 n msg0 msg1 dpre :
  Message_Fields desc = pre ++ field :: post →
  GetFieldElem field = Ok (inl (Some (ElemAttribute elem))) →
  Field_IsList field = false →
  Field_Kind field = FloatKind ∨ Field_Kind field = DoubleKind →
  Content_Attributes content !! Name elem = Some attr →
  Expr_Value (HclAttribute_Expr attr) ctx = (val, d0) → HasErrors d0 = false →
  TypeConstraint elem = (wantTy, dT) → HasErrors dT = false →
  convert_Convert val wantTy = inl val1 → IsNull val1 = false →
  convert_Convert val1 cty_Number = inl (NumberVal n) →
  fillFields fillMessageFromContent content missingRange ctx recovering pre msg0 [] = Ok (msg1, dpre) →
  physicalConstraintForFieldKindSingle field = (cty_Number, None)
  ∧ autoTypeConstraintForField field = cty_Number
  ∧ fillMessageFromContent desc content missingRange msg0 ctx recovering
    = Panic ("unhandled " +:+ Kind_String (Field_Kind field) +:+ " for field "
             +:+ Field_FullName field).
Proof.
  intros Hfields Helem Hlist Hkind Hattr Hval Hd0 HT HdT Hc1 Hnull Hc2 Hpre.
  assert (Field_MapValue field = None ∧ Field_IsMap field = false) as [Hmapv Hmap].
  { unfold Field_MapValue, Field_IsMap, Field_Kind in *.
    destruct (Field_Type field) as [k|[] m|key value]; destruct Hkind; simplify_eq; done. }
  assert (physicalConstraintForFieldKindSingle field = (cty_Number, None)) as Hphys.
  { unfold physicalConstraintForFieldKindSingle. by destruct Hkind as [-> | ->]. }
  assert (Field_Kind field ≠ BytesKind) as Hbytes by (destruct Hkind; congruence).
  destruct (GetFieldElem_Attribute_raw _ _ Helem) as [Hraw _].
  assert (RawMode elem = Attribute_NOT_RAW) as Hnotraw.
  { destruct (decide (RawMode elem = Attribute_NOT_RAW)) as [|Hne]; [done|].
    by destruct (Hraw Hne) as [? _]. }
  split; [done|]. split.
  { unfold autoTypeConstraintForField, autoTypeConstraintForFieldElement.
    rewrite Hmapv, Hlist, Hmap. by destruct Hkind as [-> | ->]. }
  rewrite (fillMessageFromContent_split _ _ _ _ _ _ _ _ _ Hfields), Hpre. cbn [obind].
  unfold fillField. rewrite Helem. cbn [obind].
  unfold fillAttribute. rewrite Hattr, Hval, Hd0, HT, HdT, Hc1, Hnull.
  unfold valuePhysicalConstraintForFieldKind. rewrite Hlist, Hmapv, Hphys, Hc2.
  unfold protoValueForField. rewrite Hlist, Hmap.
  unfold protoValueForSingletonField. rewrite Helem. cbn [obind].
  rewrite Hnotraw. rewrite bool_decide_eq_true_2 by done. cbn [negb].
  rewrite bool_decide_eq_false_2 by done. cbn [IsKnown negb].
  unfold protoValueForSingletonFieldKind. by destruct Hkind as [-> | ->].
Qed.

End FloatFields.

(** The number three halves given to a float attribute. *)
Lemma fillMessageFromContent_float_panics_witness :
  DecodeBody
    (syntaxBody (MkSyntaxBody [literalAttribute "ratio" (NumberVal (Finite (3 # 2))) 2] []
                   (rangeAt 1 1 0 0)))
    WithFloatAttr None
  = Panic "unhandled float for field hcl.testschema.WithFloatAttr.ratio".
Proof.
  pose proof (fillMessageFromContent_float_panics (H := basicHost)
    WithFloatAttr []
    (MkField "hcl.testschema.WithFloatAttr.ratio" 1 Optional (ScalarType FloatKind)
       (attrOptions "ratio" false EmptyString Attribute_NOT_RAW))
    [] _
    (MkBodyContent {[ "ratio" := literalAttribute "ratio" (NumberVal (Finite (3 # 2))) 2 ]} [])
    (rangeAt 1 1 0 0) None false
    (literalAttribute "ratio" (NumberVal (Finite (3 # 2))) 2)
    (NumberVal (Finite (3 # 2))) [] cty_Number [] (NumberVal (Finite (3 # 2))) (Finite (3 # 2))
    ∅ ∅ []
    eq_refl eq_refl eq_refl (or_introl eq_refl) eq_refl eq_refl eq_refl eq_refl eq_refl
    eq_refl eq_refl eq_refl eq_refl) as (_ & _ & Hpanic).
  unfold DecodeBody, DecodeBodyWith. 
  change (bodySchema WithFloatAttr) with
    (Ok (inl {| Schema_Attributes := [{| AttributeSchema_Name := "ratio";
                                         AttributeSchema_Required := false |}];
                Schema_Blocks := [] |}) : outcome (BodySchema + schemaError)).
  cbn [obind]. 
  change (Body_Content _ _) with
    (Ok (MkBodyContent {[ "ratio" := literalAttribute "ratio" (NumberVal (Finite (3 # 2))) 2 ]} [],
         @nil Diagnostic) : outcome (BodyContent * Diagnostics)).
  cbn [obind]. 
  change (Body_MissingItemRange _) with (rangeAt 1 1 0 0).
  unfold newMessageMaybeDynamic.
  rewrite (fillMessageFromContent_recovering (H := basicHost) WithFloatAttr _ _ _ _ _ false).
  rewrite Hpanic. reflexivity.
Defined.

(** ** Scalars: encoding and reflection *)

Lemma BigInt_Int64_in_range z :
  (MinInt64 ≤ z ≤ MaxInt64)%Z → BigInt_Int64 (Some z) = Ok z.
Proof.
  unfold MinInt64, MaxInt64, BigInt_Int64, wrap_signed, wrap_unsigned. intros Hz.
  change (2 ^ 64)%Z with (18446744073709551616)%Z.
  change (2 ^ (64 - 1))%Z with (9223372036854775808)%Z.
  change (2 ^ 63)%Z with (9223372036854775808)%Z in Hz. f_equal.
  destruct (Z.ltb_spec z 0) as [Hneg|Hpos].
  - rewrite Z.abs_neq by lia.
    rewrite (Z.mod_small (- z)) by lia.
    destruct (Z.eq_dec z (-9223372036854775808)%Z) as [->|Hne]; [reflexivity|].
    rewrite (Z.mod_small (- z + _)) by lia.
    replace (- (- z + 9223372036854775808 - 9223372036854775808))%Z with z by lia.
    rewrite Z.mod_small by lia. lia.
  - rewrite Z.abs_eq by lia. rewrite (Z.mod_small z) by lia.
    rewrite Z.mod_small by lia. lia.
Qed.

Lemma BigInt_Uint64_in_range z :
  (0 ≤ z ≤ MaxUint64)%Z → BigInt_Uint64 (Some z) = Ok z.
Proof.
  unfold MaxUint64, BigInt_Uint64, wrap_unsigned. intros Hz.
  change (2 ^ 64)%Z with (18446744073709551616)%Z in *.
  rewrite Z.abs_eq by lia. by rewrite Z.mod_small by lia.
Qed.

Lemma wrap_signed_32_in_range z :
  (MinInt32 ≤ z ≤ MaxInt32)%Z → wrap_signed 32 z = z.
Proof.
  unfold MinInt32, MaxInt32, wrap_signed. intros Hz.
  change (2 ^ 32)%Z with (4294967296)%Z. change (2 ^ (32 - 1))%Z with (2147483648)%Z.
  change (2 ^ 31)%Z with (2147483648)%Z in Hz. rewrite Z.mod_small by lia. lia.
Qed.

Lemma wrap_unsigned_32_in_range z :
  (0 ≤ z ≤ MaxUint32)%Z → wrap_unsigned 32 z = z.
Proof.
  unfold MaxUint32, wrap_unsigned. intros Hz.
  change (2 ^ 32)%Z with (4294967296)%Z in *. by rewrite Z.mod_small by lia.
Qed.

(** A whole number within the bounds passes the integer checks. *)
Lemma intValueForFixedIntegerField_accepts z rng lo hi :
  (lo ≤ z ≤ hi)%Z →
  intValueForFixedIntegerField (NumberIntVal z) rng lo hi = Ok (Some z, []).
Proof.
  intros Hz. unfold intValueForFixedIntegerField, NumberIntVal. cbn [Value_AsBigFloat obind].
  destruct (BigFloat_whole (inject_Z z) z) as [-> ->]; [reflexivity|]. cbn [negb].
  destruct (Z.ltb_spec z lo); [lia|]. destruct (Z.ltb_spec hi z); [lia|]. done.
Qed.

Section ScalarRoundTrip.
Context `{Host}.

Lemma storableScalar_encodes field val rng :
  storableScalar (Field_Kind field) val →
  ∃ pv,
    protoValueForSingletonFieldKind val rng field = Ok (pv, [])
    ∧ ∀ (objectValueOf : ObjFn) path attr subElem,
        hclValueForProtoFieldValue objectValueOf pv path attr subElem = Ok (inl val).
Proof.
  unfold storableScalar, protoValueForSingletonFieldKind.
  destruct val as [| | |b|[q|]|s| | | | |]; try done.
  - intros ->. by eexists.
  - intros (z & lo & hi & -> & Hbounds & Hz).
    fold (NumberIntVal z).
    destruct (Field_Kind field); try discriminate Hbounds;
      injection Hbounds as <- <-;
      rewrite (intValueForFixedIntegerField_accepts z rng _ _ Hz); cbn [obind].
    all: first
      [ rewrite BigInt_Int64_in_range by (unfold MinInt64, MaxInt64, MinInt32, MaxInt32 in *; lia)
      | rewrite BigInt_Uint64_in_range by (unfold MaxUint64, MaxUint32 in *; lia) ];
      cbn [obind].
    all: try rewrite (wrap_signed_32_in_range z Hz).
    all: try rewrite (wrap_unsigned_32_in_range z Hz).
    all: by eexists.
  - intros ->. by eexists.
Qed.

(** X4. A bool, a string, or a whole number within the bounds of an
    integer kind, encoded for a field of that kind, is stored without a
    diagnostic, and the reflection of the stored value is the value
    itself. *)
Theorem scalar_encode_reflect_round_trip
    (objectValueOf : ObjFn) field val rng path attr subElem :
  storableScalar (Field_Kind field) val →
  ∃ pv,
    protoValueForSingletonFieldKind val rng field = Ok (pv, [])
    ∧ hclValueForProtoFieldValue objectValueOf pv path attr subElem = Ok (inl val).
Proof.
  intros Hstorable.
  destruct (storableScalar_encodes field val rng Hstorable) as (pv & Hencode & Hreflect).
  exists pv. split; [exact Hencode|apply Hreflect].
Qed.

End ScalarRoundTrip.

(** The number 2147483647 in an int32 field. *)
Lemma scalar_encode_reflect_round_trip_witness :
  ∃ pv,
    protoValueForSingletonFieldKind (NumberIntVal MaxInt32) (rangeAt 2 11 11 4)
      (MkField "hcl.testschema.WithNumberAttrAsInt32.num" 1 Optional (ScalarType Int32Kind)
         (attrOptions "num" false EmptyString Attribute_NOT_RAW))
    = Ok (pv, [])
    ∧ hclValueForProtoFieldValue objNil pv []
        {| Name := "num"; Required_ := false; TypeExprString := EmptyString;
           RawMode := Attribute_NOT_RAW;
           TargetField := MkField "hcl.testschema.WithNumberAttrAsInt32.num" 1 Optional
                            (ScalarType Int32Kind)
                            (attrOptions "num" false EmptyString Attribute_NOT_RAW) |} false
      = Ok (inl (NumberIntVal MaxInt32)).
Proof.
  apply (scalar_encode_reflect_round_trip (H := basicHost)).
  exists MaxInt32, MinInt32, MaxInt32. split; [reflexivity|]. split; [reflexivity|].
  unfold MinInt32, MaxInt32. lia.
Defined.

(** ** List fields: encoding and reflection *)

Section ListFields.
Context `{Host}.

Lemma protoValueForListFieldFrom_results vals rng field results : ∀ items diags,
  Forall2 (λ v r, protoValueForSingletonField v rng field = Ok r) vals results →
  protoValueForListFieldFrom vals rng field items diags
  = Ok (PVList (items ++ map fst (List.filter (λ r, negb (HasErrors (snd r))) results)),
        diags ++ concat (map snd results)).
Proof.
  intros items diags Hall. revert items diags.
  induction Hall as [|v [pv d] vals results Hv _ IH]; intros items diags.
  - simpl. by rewrite !app_nil_r.
  - cbn [protoValueForListFieldFrom]. rewrite Hv. cbn [obind map concat List.filter snd fst].
    destruct (HasErrors d); cbn [negb]; rewrite IH.
    + by rewrite app_assoc.
    + cbn [map fst]. by rewrite <-!app_assoc.
Qed.

(** X5. The list stored for a repeated field holds, in the order of the
    given values, the encodings of those values that were encoded
    without an error; a value whose encoding reports an error is left
    out of the list, not stored as a zero value. The diagnostics are
    those of all the values, in order. *)
Theorem protoValueForListField_keeps_clean_elements vals rng field results :
  Forall2 (λ v r, protoValueForSingletonField v rng field = Ok r) vals results →
  protoValueForListField vals rng field
  = Ok (PVList (map fst (List.filter (λ r, negb (HasErrors (snd r))) results)),
        concat (map snd results))
  ∧ length (map fst (List.filter (λ r, negb (HasErrors (snd r))) results)) ≤ length vals.
Proof.
  intros Hall. split.
  - unfold protoValueForListField.
    by rewrite (protoValueForListFieldFrom_results _ _ _ _ [] [] Hall).
  - rewrite length_map, (Forall2_length _ _ _ Hall). apply List.filter_length_le.
Qed.

(** An attribute of a scalar kind encodes a storable scalar of that
    kind without a diagnostic. *)
Lemma protoValueForSingletonField_storable field elem val rng :
  GetFieldElem field = Ok (inl (Some (ElemAttribute elem))) →
  storableScalar (Field_Kind field) val →
  ∃ pv, protoValueForSingletonField val rng field = Ok (pv, [])
        ∧ ∀ (objectValueOf : ObjFn) path attr subElem,
            hclValueForProtoFieldValue objectValueOf pv path attr subElem = Ok (inl val).
Proof.
  intros Helem Hstorable.
  assert (Field_Kind field ≠ BytesKind ∧ IsKnown val = true) as [Hbytes Hknown].
  { unfold storableScalar in Hstorable.
    destruct val as [| | |b|[q|]|s| | | | |]; try done; split; try done; try congruence.
    destruct Hstorable as (z & lo & hi & _ & Hb & _). intros Hk. by rewrite Hk in Hb. }
  destruct (GetFieldElem_Attribute_raw _ _ Helem) as [Hraw _].
  assert (RawMode elem = Attribute_NOT_RAW) as Hnotraw.
  { destruct (decide (RawMode elem = Attribute_NOT_RAW)) as [|Hne]; [done|].
    by destruct (Hraw Hne) as [? _]. }
  unfold protoValueForSingletonField. rewrite Helem. cbn [obind].
  rewrite Hnotraw. rewrite bool_decide_eq_true_2 by done. cbn [negb].
  rewrite bool_decide_eq_false_2 by done. rewrite Hknown. cbn [negb].
  destruct (storableScalar_encodes field val rng Hstorable) as (pv & -> & Hreflect).
  cbn [obind]. eauto.
Qed.

(** X6. The values of a repeated attribute of a scalar kind, all
    storable in that kind, are stored as a list of as many elements
    without a diagnostic, and the reflection of that list is the tuple
    of the values in their order. *)
Theorem list_encode_reflect_round_trip
    (objectValueOf : ObjFn) field elem vals rng path attr subElem :
  GetFieldElem field = Ok (inl (Some (ElemAttribute elem))) →
  Forall (storableScalar (Field_Kind field)) vals →
  ∃ pvs,
    protoValueForListField vals rng field = Ok (PVList pvs, [])
    ∧ length pvs = length vals
    ∧ hclValueForProtoFieldValue objectValueOf (PVList pvs) path attr subElem
      = Ok (inl (TupleVal vals)).
Proof.
  intros Helem Hall.
  assert (∃ pvs, Forall2 (λ v pv,
            protoValueForSingletonField v rng field = Ok (pv, [])
            ∧ ∀ path', hclValueForProtoFieldValue objectValueOf pv path' attr true = Ok (inl v))
            vals pvs) as [pvs Hpvs].
  { induction Hall as [|v vals Hv _ [pvs IH]]; [by exists []|].
    destruct (protoValueForSingletonField_storable _ _ _ rng Helem Hv) as (pv & Hpv & Hr).
    exists (pv :: pvs). constructor; [|done]. split; [done|]. intros path'. apply Hr. }
  exists pvs. split; [|split].
  - unfold protoValueForListField.
    assert (∀ items, protoValueForListFieldFrom vals rng field items []
                     = Ok (PVList (items ++ pvs), [])) as Hfrom.
    { clear Hall. induction Hpvs as [|v pv vals pvs [Hv _] _ IH]; intros items.
      - simpl. by rewrite app_nil_r.
      - cbn [protoValueForListFieldFrom]. rewrite Hv. cbn [obind HasErrors existsb app].
        rewrite IH. by rewrite <-app_assoc. }
    apply (Hfrom []).
  - symmetry. by apply Forall2_length in Hpvs.
  - destruct Hpvs as [|v pv vals pvs Hv Hrest]; [reflexivity|].
    cbn [hclValueForProtoFieldValue]. destruct Hv as [_ Hr]. rewrite Hr. cbn [obind].
    match goal with
    | |- obind (?F pvs ?i0 ?e0) _ = _ =>
        assert (∀ l vs i elems,
                  Forall2 (λ v pv,
                    protoValueForSingletonField v rng field = Ok (pv, [])
                    ∧ ∀ path', hclValueForProtoFieldValue objectValueOf pv path' attr true
                               = Ok (inl v)) vs l →
                  F l i elems = Ok (inl (elems ++ vs))) as Hgen
    end.
    { intros l vs i elems Hl. revert i elems.
      induction Hl as [|v' pv' vs l [_ Hr'] _ IH]; intros i elems.
      - simpl. by rewrite app_nil_r.
      - simpl. rewrite Hr'. cbn [obind]. rewrite IH. by rewrite <-app_assoc. }
    by rewrite (Hgen pvs vals _ _ Hrest).
Qed.

End ListFields.

(** Two strings given to a repeated string attribute. *)
Lemma list_encode_reflect_round_trip_witness :
  let field := MkField "hcl.testschema.WithStringListAttr.names" 1 Repeated
                 (ScalarType StringKind)
                 (attrOptions "names" false EmptyString Attribute_NOT_RAW) in
  ∃ elem pvs,
    GetFieldElem field = Ok (inl (Some (ElemAttribute elem)))
    ∧ protoValueForListField [StringVal "Jackson"; StringVal "Snakob"] (rangeAt 2 11 11 4) field
      = Ok (PVList pvs, [])
    ∧ length pvs = 2
    ∧ hclValueForProtoFieldValue objNil (PVList pvs) [] elem false
      = Ok (inl (TupleVal [StringVal "Jackson"; StringVal "Snakob"])).
Proof.
  cbv zeta. eexists.
  destruct (list_encode_reflect_round_trip (H := basicHost) objNil
    (MkField "hcl.testschema.WithStringListAttr.names" 1 Repeated (ScalarType StringKind)
       (attrOptions "names" false EmptyString Attribute_NOT_RAW))
    _ [StringVal "Jackson"; StringVal "Snakob"] (rangeAt 2 11 11 4) []
    {| Name := "names"; Required_ := false; TypeExprString := EmptyString;
       RawMode := Attribute_NOT_RAW;
       TargetField := MkField "hcl.testschema.WithStringListAttr.names" 1 Repeated
                        (ScalarType StringKind)
                        (attrOptions "names" false EmptyString Attribute_NOT_RAW) |}
    false eq_refl) as (pvs & Hencode & Hlen & Hreflect).
  - repeat constructor.
  - exists pvs. split; [reflexivity|]. split; [exact Hencode|]. split; [exact Hlen|exact Hreflect].
Defined.

(** A string and an unknown value given to a repeated string attribute:
    the unknown value is reported and left out. *)
Lemma protoValueForListField_keeps_clean_elements_witness :
  let field := MkField "hcl.testschema.WithStringListAttr.names" 1 Repeated
                 (ScalarType StringKind)
                 (attrOptions "names" false EmptyString Attribute_NOT_RAW) in
  let unknown := {| Severity := DiagError; Summary := unsuitableValueSummary;
                    Detail := "Unknown values are not allowed here.";
                    Subject := None; Context := Some (rangeAt 2 11 11 4) |} in
  protoValueForListField [StringVal "Jackson"; UnknownVal cty_String] (rangeAt 2 11 11 4) field
  = Ok (PVList [PVString "Jackson"], [unknown])
  ∧ 1 ≤ 2.
Proof.
  cbv zeta.
  apply (protoValueForListField_keeps_clean_elements (H := basicHost)
    [StringVal "Jackson"; UnknownVal cty_String] (rangeAt 2 11 11 4) _
    [(PVString "Jackson", []);
     (PVList [], [ {| Severity := DiagError; Summary := unsuitableValueSummary;
                      Detail := "Unknown values are not allowed here.";
                      Subject := None; Context := Some (rangeAt 2 11 11 4) |} ])]).
  repeat constructor.
Defined.

(** ** The decoder, field by field *)

Section DecoderFields.
Context `{Host}.

(** X7. An attribute that the content lacks: the field is cleared in
    the decoded message; a required attribute is reported as missing,
    at the missing-item range of the body, and an optional one adds no
    diagnostic. *)
Theorem fillMessageFromContent_attribute_absent
    desc pre field post elem content missingRange ctx recovering msg0 msg1 dpre msg3 dpost :
  Message_Fields desc = pre ++ field :: post →
  Field_Number field ∉ map Field_Number post →
  GetFieldElem field = Ok (inl (Some (ElemAttribute elem))) →
  Content_Attributes content !! Name elem = None →
  fillFields fillMessageFromContent content missingRange ctx recovering pre msg0 [] = Ok (msg1, dpre) →
  fillFields fillMessageFromContent content missingRange ctx recovering post
    (Message_Clear msg1 field) [] = Ok (msg3, dpost) →
  fillMessageFromContent desc content missingRange msg0 ctx recovering
    = Ok (msg3, dpre
            ++ (if Required_ elem then [missingArgumentDiagnostic (Name elem) missingRange] else [])
            ++ dpost)
  ∧ msg3 !! Field_Number field = None.
Proof.
  intros Hfields Hpost Helem Habsent Hpre Hrest. split.
  - rewrite (fillMessageFromContent_split _ _ _ _ _ _ _ _ _ Hfields), Hpre. cbn [obind].
    unfold fillField. rewrite Helem. cbn [obind]. unfold fillAttribute. rewrite Habsent.
    destruct (Required_ elem); cbn [obind]; by rewrite Hrest.
  - rewrite (fillFields_frame _ _ _ _ _ _ _ _ _ _ _ Hrest Hpost).
    apply Message_Clear_lookup.
Qed.

(** X8. A required attribute whose value, converted to its type
    constraint, is null: the field is cleared and the attribute is
    reported as required, at the range of its expression. *)
Theorem fillMessageFromContent_required_null
    desc pre field post elem content missingRange ctx recovering
    attr val d0 wantTy dT val1 msg0 msg1 dpre msg3 dpost :
  Message_Fields desc = pre ++ field :: post →
  Field_Number field ∉ map Field_Number post →
  GetFieldElem field = Ok (inl (Some (ElemAttribute elem))) →
  Required_ elem = true →
  Content_Attributes content !! Name elem = Some attr →
  Expr_Value (HclAttribute_Expr attr) ctx = (val, d0) → HasErrors d0 = false →
  TypeConstraint elem = (wantTy, dT) → HasErrors dT = false →
  convert_Convert val wantTy = inl val1 → IsNull val1 = true →
  fillFields fillMessageFromContent content missingRange ctx recovering pre msg0 [] = Ok (msg1, dpre) →
  fillFields fillMessageFromContent content missingRange ctx recovering post
    (Message_Clear msg1 field) [] = Ok (msg3, dpost) →
  fillMessageFromContent desc content missingRange msg0 ctx recovering
    = Ok (msg3, dpre
            ++ ((d0 ++ dT)
                ++ [unsuitableValueDiagnostic
                      ("Attribute " +:+ fmt_q (Name elem) +:+ " is required, so must not be null.")
                      attr])
            ++ dpost)
  ∧ msg3 !! Field_Number field = None.
Proof.
  intros Hfields Hpost Helem Hreq Hattr Hval Hd0 HT HdT Hc1 Hnull Hpre Hrest. split.
  - rewrite (fillMessageFromContent_split _ _ _ _ _ _ _ _ _ Hfields), Hpre. cbn [obind].
    unfold fillField. rewrite Helem. cbn [obind]. unfold fillAttribute.
    rewrite Hattr, Hval, Hd0, HT, HdT, Hc1, Hnull, Hreq. cbn [obind]. by rewrite Hrest.
  - rewrite (fillFields_frame _ _ _ _ _ _ _ _ _ _ _ Hrest Hpost).
    apply Message_Clear_lookup.
Qed.

(** A turn of the loop leaves the message as it is where the field
    resolves to no element: it has no annotation, or its annotation is
    in error. *)
Lemma fillField_no_element fillNested content missingRange ctx recovering field msg msg' diags :
  (GetFieldElem field = Ok (inl None) ∨ ∃ err, GetFieldElem field = Ok (inr err)) →
  fillField fillNested content missingRange ctx recovering field msg = Ok (msg', diags) →
  msg' = msg.
Proof.
  unfold fillField. intros [-> | [err ->]]; cbn [obind]; by intros [= <- _].
Qed.

(** X9. The decoder writes only the fields that resolve to an element:
    a field number that belongs to no field of the descriptor, or only
    to fields without annotation or with an annotation in error, holds
    after the decoding what it held before. *)
Theorem fillMessageFromContent_frame desc content missingRange msg ctx recovering msg' diags n :
  fillMessageFromContent desc content missingRange msg ctx recovering = Ok (msg', diags) →
  (∀ field, field ∈ Message_Fields desc → Field_Number field = n →
     GetFieldElem field = Ok (inl None) ∨ ∃ err, GetFieldElem field = Ok (inr err)) →
  msg' !! n = msg !! n.
Proof.
  rewrite fillMessageFromContent_unfold. generalize (@nil Diagnostic).
  revert msg. induction (Message_Fields desc) as [|field rest IH]; intros msg diags0 Hrun Hn.
  - simpl in Hrun. by simplify_eq.
  - cbn [fillFields] in Hrun. apply obind_Ok in Hrun as ([msg1 d1] & Hturn & Hrun).
    rewrite (IH _ _ Hrun); [|intros f Hf; apply Hn; by right].
    destruct (decide (Field_Number field = n)) as [Heq|Hne].
    + by rewrite (fillField_no_element _ _ _ _ _ _ _ _ _ (Hn field (list_elem_of_here _ _) Heq) Hturn).
    + by apply (fillField_frame _ _ _ _ _ _ _ _ _ _ Hturn).
Qed.

(** X10. A field whose annotation is in error is reported with the
    schema error and left as it was, and the decoding goes on with the
    fields after it. *)
Theorem fillMessageFromContent_annotation_error
    desc pre field post err content missingRange ctx recovering msg0 msg1 dpre msg3 dpost :
  Message_Fields desc = pre ++ field :: post →
  Field_Number field ∉ map Field_Number post →
  GetFieldElem field = Ok (inr err) →
  fillFields fillMessageFromContent content missingRange ctx recovering pre msg0 [] = Ok (msg1, dpre) →
  fillFields fillMessageFromContent content missingRange ctx recovering post msg1 []
    = Ok (msg3, dpost) →
  fillMessageFromContent desc content missingRange msg0 ctx recovering
    = Ok (msg3, dpre ++ [schemaErrorDiagnostic err] ++ dpost)
  ∧ msg3 !! Field_Number field = msg1 !! Field_Number field.
Proof.
  intros Hfields Hpost Helem Hpre Hrest. split.
  - rewrite (fillMessageFromContent_split _ _ _ _ _ _ _ _ _ Hfields), Hpre. cbn [obind].
    unfold fillField. rewrite Helem. cbn [obind]. by rewrite Hrest.
  - by rewrite (fillFields_frame _ _ _ _ _ _ _ _ _ _ _ Hrest Hpost).
Qed.

(** X11. The recovering flag has no effect on the decoding: with either
    value the message and the diagnostics are the same. *)
Theorem fillMessageFromContent_recovering_unused desc content missingRange msg ctx :
  fillMessageFromContent desc content missingRange msg ctx true
  = fillMessageFromContent desc content missingRange msg ctx false.
Proof. apply fillMessageFromContent_recovering. Qed.

End DecoderFields.

(** A required attribute and an empty content. *)
Lemma fillMessageFromContent_attribute_absent_witness :
  fillMessageFromContent WithRequiredAttr (MkBodyContent ∅ []) (rangeAt 1 1 0 0) ∅ None false
  = Ok (delete 1%Z ∅,
        [] ++ [missingArgumentDiagnostic "name" (rangeAt 1 1 0 0)] ++ [])
  ∧ (delete 1%Z ∅ : Message) !! 1%Z = None.
Proof.
  apply (fillMessageFromContent_attribute_absent (H := basicHost)
    WithRequiredAttr []
    (MkField "hcl.testschema.WithRequiredAttr.name" 1 Optional (ScalarType StringKind)
       (attrOptions "name" true EmptyString Attribute_NOT_RAW))
    [] {| Name := "name"; Required_ := true; TypeExprString := EmptyString;
          RawMode := Attribute_NOT_RAW;
          TargetField := MkField "hcl.testschema.WithRequiredAttr.name" 1 Optional
                           (ScalarType StringKind)
                           (attrOptions "name" true EmptyString Attribute_NOT_RAW) |}
    (MkBodyContent ∅ []) (rangeAt 1 1 0 0) None false ∅ ∅ [] (delete 1%Z ∅) []).
  - reflexivity.
  - simpl. apply not_elem_of_nil.
  - reflexivity.
  - reflexivity.
  - reflexivity.
  - reflexivity.
Defined.

(** A required attribute set to null. *)
Lemma fillMessageFromContent_required_null_witness :
  let attr := literalAttribute "name" (NullVal cty_String) 2 in
  fillMessageFromContent WithRequiredAttr (MkBodyContent {[ "name" := attr ]} [])
    (rangeAt 1 1 0 0) ∅ None false
  = Ok (delete 1%Z ∅,
        [] ++ (([] ++ [])
               ++ [unsuitableValueDiagnostic
                     ("Attribute " +:+ fmt_q "name" +:+ " is required, so must not be null.")
                     attr]) ++ [])
  ∧ (delete 1%Z ∅ : Message) !! 1%Z = None.
Proof.
  cbv zeta.
  apply (fillMessageFromContent_required_null (H := basicHost)
    WithRequiredAttr []
    (MkField "hcl.testschema.WithRequiredAttr.name" 1 Optional (ScalarType StringKind)
       (attrOptions "name" true EmptyString Attribute_NOT_RAW))
    [] {| Name := "name"; Required_ := true; TypeExprString := EmptyString;
          RawMode := Attribute_NOT_RAW;
          TargetField := MkField "hcl.testschema.WithRequiredAttr.name" 1 Optional
                           (ScalarType StringKind)
                           (attrOptions "name" true EmptyString Attribute_NOT_RAW) |}
    (MkBodyContent {[ "name" := literalAttribute "name" (NullVal cty_String) 2 ]} [])
    (rangeAt 1 1 0 0) None false
    (literalAttribute "name" (NullVal cty_String) 2)
    (NullVal cty_String) [] cty_String [] (NullVal cty_String) ∅ ∅ [] (delete 1%Z ∅) []).
  - reflexivity.
  - simpl. apply not_elem_of_nil.
  - reflexivity.
  - reflexivity.
  - reflexivity.
  - reflexivity.
  - reflexivity.
  - reflexivity.
  - reflexivity.
  - reflexivity.
  - reflexivity.
  - reflexivity.
  - reflexivity.
Defined.

(** Field 7 of a message decoded for a descriptor whose one field has
    number 1. *)
Lemma fillMessageFromContent_frame_witness :
  ∃ msg' diags,
    fillMessageFromContent WithStringAttr
      (MkBodyContent {[ "name" := literalAttribute "name" (StringVal "Jackson") 2 ]} [])
      (rangeAt 1 1 0 0) (<[7%Z := PVString "kept"]> ∅) None false = Ok (msg', diags)
    ∧ msg' !! 7%Z = Some (PVString "kept").
Proof.
  eexists _, _. split; [vm_compute; reflexivity|].
  refine (fillMessageFromContent_frame (H := basicHost) WithStringAttr
    (MkBodyContent {[ "name" := literalAttribute "name" (StringVal "Jackson") 2 ]} [])
    (rangeAt 1 1 0 0) (<[7%Z := PVString "kept"]> ∅) None false _ [] 7%Z _ _).
  - vm_compute. reflexivity.
  - intros field Hin Hn. simpl in Hin. apply list_elem_of_singleton in Hin as ->.
    discriminate Hn.
Defined.

(** A field annotated as attribute and label, then a string attribute. *)
Lemma fillMessageFromContent_annotation_error_witness :
  let err := schemaErrorf "hcl.testschema.WithBrokenField.both"
               ("cannot be both attribute " +:+ fmt_q "both"
                +:+ " and block label " +:+ fmt_q "both") in
  fillMessageFromContent WithBrokenField
    (MkBodyContent {[ "name" := literalAttribute "name" (StringVal "Jackson") 2 ]} [])
    (rangeAt 1 1 0 0) ∅ None false
  = Ok (<[2%Z := PVString "Jackson"]> (delete 2%Z ∅), [] ++ [schemaErrorDiagnostic err] ++ [])
  ∧ (<[2%Z := PVString "Jackson"]> (delete 2%Z ∅) : Message) !! 1%Z = (∅ : Message) !! 1%Z.
Proof.
  cbv zeta.
  apply (fillMessageFromContent_annotation_error (H := basicHost)
    WithBrokenField []
    (MkField "hcl.testschema.WithBrokenField.both" 1 Optional (ScalarType StringKind)
        (Some {| E_Attr := Some (MkAttribute "both" false EmptyString Attribute_NOT_RAW);
                 E_Block := None; E_Flatten := false;
                 E_Label := Some (MkBlockLabel "both") |}))
    [MkField "hcl.testschema.WithBrokenField.name" 2 Optional (ScalarType StringKind)
        (attrOptions "name" false EmptyString Attribute_NOT_RAW)]
    _ (MkBodyContent {[ "name" := literalAttribute "name" (StringVal "Jackson") 2 ]} [])
    (rangeAt 1 1 0 0) None false ∅ ∅ []).
  - reflexivity.
  - simpl. intros Hin. apply list_elem_of_singleton in Hin. discriminate Hin.
  - reflexivity.
  - reflexivity.
  - vm_compute. reflexivity.
Defined.

(** ** Nested blocks in the decoder *)

Lemma GetFieldElem_NestedBlock_repeated field elem :
  GetFieldElem field = Ok (inl (Some (ElemNestedBlockType elem))) →
  Repeated_ elem = Field_IsList field.
Proof.
  intros [(a & Ha)|[(b & Hb)|[Hf|(name & ?)]]]%GetFieldElem_inv; [| | |done].
  - apply checkAttribute_inv in Ha as (? & ? & _); done.
  - unfold checkNestedBlock in Hb. repeat case_match; by simplify_eq.
  - apply checkFlatten_inv in Hf as (? & ? & ? & _); done.
Qed.

Section NestedBlocks.
Context `{Host}.

(** X12. A repeated nested-block field is never stored: the decoder
    decodes every block of the type into a list that it builds with
    [NewField] and does not [Set]. In every message that [DecodeBody]
    returns the field is cleared, and reads as the empty list, whatever
    blocks the body holds. *)
Theorem DecodeBody_repeated_block_not_stored body desc ctx msg diags field elem :
  NoDup (map Field_Number (Message_Fields desc)) →
  DecodeBody body desc ctx = Ok (msg, diags) →
  field ∈ Message_Fields desc →
  GetFieldElem field = Ok (inl (Some (ElemNestedBlockType elem))) →
  Repeated_ elem = true →
  msg !! Field_Number field = None ∧ Message_Get msg field = PVList [].
Proof.
  intros Hnodup Hdecode Hin Helem Hrep. unfold DecodeBody, DecodeBodyWith in Hdecode.
  apply obind_Ok in Hdecode as (r & _ & Hdecode).
  destruct (match r with inl schema => _ | inr err => _ end) as [schema diags0].
  apply obind_Ok in Hdecode as ([content contentDiags] & Hcontent & Hdecode).
  apply obind_Ok in Hdecode as ([msg' fillDiags] & Hfill & Hdecode). simplify_eq.
  pose proof (fillMessageFromContent_settled _ _ _ _ _ _ _ Hnodup Hfill field Hin) as Hsettled.
  unfold fieldSettled in Hsettled. rewrite Helem in Hsettled.
  assert (msg !! Field_Number field = None) as Hnone.
  { destruct Hsettled as [?|[Hsingle _]]; [done|congruence]. }
  split; [done|]. unfold Message_Get, Message_NewField. rewrite Hnone.
  by rewrite <-(GetFieldElem_NestedBlock_repeated _ _ Helem), Hrep.
Qed.

Lemma fillSingletonBlock_none fillNested field elem ctx blocks msg :
  List.filter (λ b, String.eqb (Block_Type b) (TypeName elem)) blocks = [] →
  fillSingletonBlock fillNested field elem ctx blocks None msg [] = Ok (msg, []).
Proof. intros Hf. by rewrite fillSingletonBlock_filter, Hf. Qed.

Lemma fillSingletonBlock_single fillNested field elem ctx blocks block msg nestedMsg d1 :
  List.filter (λ b, String.eqb (Block_Type b) (TypeName elem)) blocks = [block] →
  newMessageForBlock fillNested block elem ctx = Ok (nestedMsg, d1) →
  fillSingletonBlock fillNested field elem ctx blocks None msg []
  = Ok (Message_Set msg field (PVMessage nestedMsg), d1).
Proof.
  intros Hf Hnew. rewrite fillSingletonBlock_filter, Hf.
  pose proof (filter_head_eqb _ _ _ _ Hf) as [Hfirst _].
  cbn [fillSingletonBlock]. rewrite Hfirst. cbn [negb]. rewrite Hnew. by cbn [obind].
Qed.

(** X13. A non-repeated nested-block field whose type has no block in
    the content: the field is cleared and no diagnostic is added. *)
Theorem fillMessageFromContent_singleton_block_absent
    desc pre field post elem content missingRange ctx recovering msg0 msg1 dpre msg3 dpost :
  Message_Fields desc = pre ++ field :: post →
  Field_Number field ∉ map Field_Number post →
  GetFieldElem field = Ok (inl (Some (ElemNestedBlockType elem))) →
  Repeated_ elem = false →
  List.filter (λ b, String.eqb (Block_Type b) (TypeName elem)) (Content_Blocks content) = [] →
  fillFields fillMessageFromContent content missingRange ctx recovering pre msg0 [] = Ok (msg1, dpre) →
  fillFields fillMessageFromContent content missingRange ctx recovering post
    (Message_Clear msg1 field) [] = Ok (msg3, dpost) →
  fillMessageFromContent desc content missingRange msg0 ctx recovering = Ok (msg3, dpre ++ dpost)
  ∧ msg3 !! Field_Number field = None.
Proof.
  intros Hfields Hpost Helem Hrep Hblocks Hpre Hrest. split.
  - rewrite (fillMessageFromContent_split _ _ _ _ _ _ _ _ _ Hfields), Hpre. cbn [obind].
    unfold fillField. rewrite Helem. cbn [obind]. rewrite Hrep.
    rewrite (fillSingletonBlock_none _ _ _ _ _ _ Hblocks). cbn [obind]. by rewrite Hrest.
  - rewrite (fillFields_frame _ _ _ _ _ _ _ _ _ _ _ Hrest Hpost).
    apply Message_Clear_lookup.
Qed.

(** X14. A non-repeated nested-block field whose type has exactly one
    block in the content: the field holds the message decoded from that
    block, and the diagnostics of the field are those of the block. *)
Theorem fillMessageFromContent_singleton_block_once
    desc pre field post elem content missingRange ctx recovering
    block msg0 msg1 dpre nestedMsg d1 msg3 dpost :
  Message_Fields desc = pre ++ field :: post →
  Field_Number field ∉ map Field_Number post →
  GetFieldElem field = Ok (inl (Some (ElemNestedBlockType elem))) →
  Repeated_ elem = false →
  List.filter (λ b, String.eqb (Block_Type b) (TypeName elem)) (Content_Blocks content)
    = [block] →
  fillFields fillMessageFromContent content missingRange ctx recovering pre msg0 [] = Ok (msg1, dpre) →
  newMessageForBlock (fillMessageFromContent (Nested elem)) block elem ctx = Ok (nestedMsg, d1) →
  fillFields fillMessageFromContent content missingRange ctx recovering post
    (Message_Set (Message_Clear msg1 field) field (PVMessage nestedMsg)) [] = Ok (msg3, dpost) →
  fillMessageFromContent desc content missingRange msg0 ctx recovering
    = Ok (msg3, dpre ++ d1 ++ dpost)
  ∧ msg3 !! Field_Number field = Some (PVMessage nestedMsg).
Proof.
  intros Hfields Hpost Helem Hrep Hblocks Hpre Hnew Hrest. split.
  - rewrite (fillMessageFromContent_split _ _ _ _ _ _ _ _ _ Hfields), Hpre. cbn [obind].
    unfold fillField. rewrite Helem. cbn [obind]. rewrite Hrep.
    destruct (GetFieldElem_NestedBlock _ _ Helem) as [g Hty].
    rewrite (nestedOf_MessageType _ _ _ _ _ Hty).
    rewrite (fillSingletonBlock_single _ _ _ _ _ _ _ _ _ Hblocks Hnew).
    cbn [obind]. by rewrite Hrest.
  - rewrite (fillFields_frame _ _ _ _ _ _ _ _ _ _ _ Hrest Hpost).
    apply Message_Set_lookup.
Qed.

End NestedBlocks.

(** ** Block labels *)

Lemma labelFields_numbers fields n :
  n ∈ map Field_Number (labelFields fields) → n ∈ map Field_Number fields.
Proof.
  intros (f & -> & Hf)%list_elem_of_fmap. apply list_elem_of_fmap. exists f. split; [done|].
  apply list_elem_of_In. apply list_elem_of_In in Hf. by apply filter_In in Hf as [? _].
Qed.

Lemma labelFields_cons field rest :
  labelFields (field :: rest)
  = if isLabelField field then field :: labelFields rest else labelFields rest.
Proof. reflexivity. Qed.

(** A string fits a singular string field. *)
Lemma valueFitsField_string field label :
  Field_Kind field = StringKind → Field_IsList field = false → Field_IsMap field = false →
  valueFitsField field (PVString label) = true.
Proof.
  intros Hkind Hlist Hmap. unfold valueFitsField. by rewrite Hlist, Hmap, Hkind.
Qed.

Lemma bindBlockLabels_spec block fields : ∀ k msg,
  Forall (λ f, returns (GetFieldElem f)) fields →
  NoDup (map Field_Number fields) →
  Forall (λ f, Field_Kind f = StringKind ∧ Field_IsList f = false ∧ Field_IsMap f = false)
    (labelFields fields) →
  k + length (labelFields fields) ≤ length (Block_Labels block) →
  ∃ msg',
    bindBlockLabels block fields k msg = Ok msg'
    ∧ (∀ i f l, labelFields fields !! i = Some f → Block_Labels block !! (k + i) = Some l →
                msg' !! Field_Number f = Some (PVString l))
    ∧ (∀ n, n ∉ map Field_Number (labelFields fields) → msg' !! n = msg !! n).
Proof.
  induction fields as [|field rest IH]; intros k msg Hret Hnodup Hfit Hlen.
  - exists msg. split; [done|]. split; [|done]. intros i f l Hf. by destruct i.
  - apply Forall_cons in Hret as [[elem Helem] Hret].
    cbn [map] in Hnodup. apply NoDup_cons in Hnodup as [Hfresh Hnodup].
    cbn [bindBlockLabels]. rewrite Helem. cbn [obind].
    rewrite labelFields_cons in *. unfold isLabelField in *. rewrite Helem in *.
    destruct elem as [[[a|b|nested|name]|]|err];
      try (destruct (IH k msg Hret Hnodup Hfit Hlen) as (msg' & ? & ? & ?); by exists msg').
    cbn [length] in Hlen.
    apply Forall_cons in Hfit as [(Hkind & Hlist & Hmap) Hfit].
    destruct (lookup_lt_is_Some_2 (Block_Labels block) k) as [label Hlabel]; [lia|].
    rewrite Hlabel. unfold Message_SetChecked.
    rewrite (valueFitsField_string field label Hkind Hlist Hmap). cbn [obind].
    destruct (IH (S k) (Message_Set msg field (PVString label)) Hret Hnodup Hfit)
      as (msg' & Hrun & Hbound & Hframe); [lia|].
    exists msg'. split; [done|]. split.
    + intros [|i] f l Hf Hl.
      * injection Hf as <-. rewrite Nat.add_0_r, Hlabel in Hl. injection Hl as <-.
        rewrite Hframe; [apply Message_Set_lookup|].
        intros Hin. by apply Hfresh, labelFields_numbers.
      * apply (Hbound i f l Hf). rewrite Nat.add_succ_r in Hl. exact Hl.
    + intros n Hn. cbn [map] in Hn. apply not_elem_of_cons in Hn as [Hne Hn].
      rewrite (Hframe n Hn). by apply Message_Set_lookup_ne.
Qed.

(** X15. The labels of a block reach the label fields of the nested
    message in order. For a block with as many labels as the header
    schema of its block type names, and a nested message whose field
    numbers are distinct and whose label fields are singular string
    fields (what [Set] with a string value needs of a field), the label
    loop of [newMessageForBlock] returns; the label field at position i
    holds label i of the block; and every field that is not a label
    field holds what the body decoded into it. *)
Theorem bindBlockLabels_binds_in_order block elem header msg :
  blockTypeSchema elem = Ok header →
  length (Block_Labels block) = length (BlockHeaderSchema_LabelNames header) →
  NoDup (map Field_Number (Message_Fields (Nested elem))) →
  Forall (λ f, Field_Kind f = StringKind ∧ Field_IsList f = false ∧ Field_IsMap f = false)
    (labelFields (Message_Fields (Nested elem))) →
  ∃ msg',
    bindBlockLabels block (Message_Fields (Nested elem)) 0 msg = Ok msg'
    ∧ (∀ i f l, labelFields (Message_Fields (Nested elem)) !! i = Some f →
                Block_Labels block !! i = Some l →
                msg' !! Field_Number f = Some (PVString l))
    ∧ (∀ n, n ∉ map Field_Number (labelFields (Message_Fields (Nested elem))) →
            msg' !! n = msg !! n).
Proof.
  intros Hschema Hlen Hnodup Hfit. unfold blockTypeSchema in Hschema.
  pose proof (blockLabelNames_spec (Message_Fields (Nested elem)) []) as Hscan.
  destruct (blockLabelNames _ _) as [names|reason]; [|done].
  destruct Hscan as [Hret ->]. cbn [obind] in Hschema. injection Hschema as <-.
  cbn [BlockHeaderSchema_LabelNames app] in Hlen.
  assert (∀ fields, Forall (λ f, returns (GetFieldElem f)) fields →
                    length (labelNames fields) = length (labelFields fields)) as Hcount.
  { clear. induction fields as [|f rest IH]; [done|]. intros [[e He] Hrest]%Forall_cons.
    unfold labelNames, labelFields in *. cbn [flat_map List.filter].
    unfold labelNamesField, isLabelField. rewrite He.
    destruct e as [[[a|b|nested|name]|]|err]; simpl; rewrite ?length_app; auto. }
  apply (bindBlockLabels_spec block _ 0 msg Hret Hnodup Hfit).
  rewrite <-(Hcount _ Hret). lia.
Qed.

(** X16. A block with fewer labels than the nested message has label
    fields makes the label loop index past the labels of the block.
    When the label fields are singular string fields, so that no [Set]
    before that point panics, the call panics with index out of
    range. *)
Theorem bindBlockLabels_too_few_labels block fields : ∀ k msg,
  Forall (λ f, returns (GetFieldElem f)) fields →
  Forall (λ f, Field_Kind f = StringKind ∧ Field_IsList f = false ∧ Field_IsMap f = false)
    (labelFields fields) →
  k ≤ length (Block_Labels block) →
  length (Block_Labels block) < k + length (labelFields fields) →
  bindBlockLabels block fields k msg = Panic "index out of range".
Proof.
  induction fields as [|field rest IH]; intros k msg Hret Hfit Hk Hlen.
  - simpl in Hlen. lia.
  - apply Forall_cons in Hret as [[elem Helem] Hret].
    cbn [bindBlockLabels]. rewrite Helem. cbn [obind].
    rewrite labelFields_cons in Hlen, Hfit. unfold isLabelField in Hlen, Hfit.
    rewrite Helem in Hlen, Hfit.
    destruct elem as [[[a|b|nested|name]|]|err]; try (by apply IH).
    cbn [length] in Hlen.
    apply Forall_cons in Hfit as [(Hkind & Hlist & Hmap) Hfit].
    destruct (Block_Labels block !! k) as [label|] eqn:Hlabel; [|done].
    apply lookup_lt_Some in Hlabel. unfold Message_SetChecked.
    rewrite (valueFitsField_string field label Hkind Hlist Hmap). cbn [obind].
    apply IH; [done|done|lia|lia].
Qed.

(** Two labelled blocks given to the repeated block of the package's
    tests. *)
Lemma DecodeBody_repeated_block_not_stored_witness :
  let field := MkField "hcl.testschema.WithNestedBlockOneLabelRepeated.doodad" 1 Repeated
                 (MessageType false WithOneBlockLabel) (blockOptions "doodad" NestedBlock_LIST) in
  ∃ msg diags,
    DecodeBody
      (syntaxBody (MkSyntaxBody []
         [labelledDoodad "Jackson" "doofus" 2; labelledDoodad "Snakob" "Snekob" 5]
         (rangeAt 1 1 0 0)))
      WithNestedBlockOneLabelRepeated None = Ok (msg, diags)
    ∧ msg !! Field_Number field = None ∧ Message_Get msg field = PVList [].
Proof.
  cbv zeta. eexists _, _. split; [vm_compute; reflexivity|].
  apply (DecodeBody_repeated_block_not_stored (H := basicHost)
    (syntaxBody (MkSyntaxBody []
       [labelledDoodad "Jackson" "doofus" 2; labelledDoodad "Snakob" "Snekob" 5]
       (rangeAt 1 1 0 0)))
    WithNestedBlockOneLabelRepeated None _ [] _ doodadListElem).
  - simpl. apply NoDup_singleton.
  - vm_compute. reflexivity.
  - apply list_elem_of_here.
  - reflexivity.
  - reflexivity.
Defined.

(** The singleton block of the package's tests and a content without
    blocks. *)
Lemma fillMessageFromContent_singleton_block_absent_witness :
  fillMessageFromContent WithNestedBlockNoLabelsSingleton (MkBodyContent ∅ [])
    (rangeAt 1 1 0 0) ∅ None false
  = Ok (delete 1%Z ∅, [] ++ [])
  ∧ (delete 1%Z ∅ : Message) !! 1%Z = None.
Proof.
  apply (fillMessageFromContent_singleton_block_absent (H := basicHost)
    WithNestedBlockNoLabelsSingleton []
    (MkField "hcl.testschema.WithNestedBlockNoLabelsSingleton.doodad" 1 Optional
       (MessageType false WithStringAttr) (blockOptions "doodad" NestedBlock_AUTO))
    [] {| TypeName := "doodad"; Nested := WithStringAttr; Repeated_ := false;
          CollectionKind := NestedBlock_AUTO |}
    (MkBodyContent ∅ []) (rangeAt 1 1 0 0) None false ∅ ∅ [] (delete 1%Z ∅) []).
  - reflexivity.
  - simpl. apply not_elem_of_nil.
  - reflexivity.
  - reflexivity.
  - reflexivity.
  - reflexivity.
  - reflexivity.
Defined.

(** The same descriptor and one [doodad] block. *)
Lemma fillMessageFromContent_singleton_block_once_witness :
  let nested : Message := <[1%Z := PVString "Jackson"]> (delete 1%Z ∅) in
  fillMessageFromContent WithNestedBlockNoLabelsSingleton
    (MkBodyContent ∅ [doodadBlock "Jackson" 2]) (rangeAt 1 1 0 0) ∅ None false
  = Ok (<[1%Z := PVMessage nested]> (delete 1%Z ∅), [] ++ [] ++ [])
  ∧ (<[1%Z := PVMessage nested]> (delete 1%Z ∅) : Message) !! 1%Z = Some (PVMessage nested).
Proof.
  cbv zeta.
  apply (fillMessageFromContent_singleton_block_once (H := basicHost)
    WithNestedBlockNoLabelsSingleton []
    (MkField "hcl.testschema.WithNestedBlockNoLabelsSingleton.doodad" 1 Optional
       (MessageType false WithStringAttr) (blockOptions "doodad" NestedBlock_AUTO))
    [] {| TypeName := "doodad"; Nested := WithStringAttr; Repeated_ := false;
          CollectionKind := NestedBlock_AUTO |}
    (MkBodyContent ∅ [doodadBlock "Jackson" 2]) (rangeAt 1 1 0 0) None false
    (doodadBlock "Jackson" 2) ∅ ∅ []).
  - reflexivity.
  - simpl. apply not_elem_of_nil.
  - reflexivity.
  - reflexivity.
  - reflexivity.
  - reflexivity.
  - vm_compute. reflexivity.
  - vm_compute. reflexivity.
Defined.

(** A block with the label Jackson and the one label field of
    [WithOneBlockLabel]. *)
Lemma bindBlockLabels_binds_in_order_witness :
  ∃ msg',
    bindBlockLabels (labelledDoodadBlock ["Jackson"] "doofus" 2)
      (Message_Fields WithOneBlockLabel) 0 (<[2%Z := PVString "doofus"]> ∅) = Ok msg'
    ∧ msg' !! 1%Z = Some (PVString "Jackson")
    ∧ msg' !! 2%Z = Some (PVString "doofus").
Proof.
  destruct (bindBlockLabels_binds_in_order (labelledDoodadBlock ["Jackson"] "doofus" 2)
    doodadListElem
    {| BlockHeaderSchema_Type := "doodad"; BlockHeaderSchema_LabelNames := ["name"] |}
    (<[2%Z := PVString "doofus"]> ∅)) as (msg' & Hrun & Hbound & Hframe).
  - reflexivity.
  - reflexivity.
  - simpl. apply NoDup_cons. split; [|apply NoDup_singleton].
    intros Hin. apply list_elem_of_singleton in Hin. discriminate Hin.
  - repeat constructor.
  - exists msg'. split; [exact Hrun|]. split.
    + apply (Hbound 0
        (MkField "hcl.testschema.WithOneBlockLabel.name" 1 Optional (ScalarType StringKind)
           (labelOptions "name")) "Jackson"); reflexivity.
    + rewrite (Hframe 2%Z); [reflexivity|]. simpl.
      intros Hin. apply list_elem_of_singleton in Hin. discriminate Hin.
Defined.

(** A block without labels and the one label field of
    [WithOneBlockLabel]. *)
Lemma bindBlockLabels_too_few_labels_witness :
  bindBlockLabels (labelledDoodadBlock [] "doofus" 2) (Message_Fields WithOneBlockLabel) 0 ∅
  = Panic "index out of range".
Proof.
  apply bindBlockLabels_too_few_labels.
  - repeat constructor; by eexists.
  - repeat constructor.
  - simpl. lia.
  - simpl. lia.
Defined.

(** ** The attribute names of reflected objects and of object types *)

Section AttributeNames.
Context `{Host}.

(** The reflector adds exactly the names of the message. *)
Lemma buildObjectValueAttrsForMessage_dom desc :
  ∀ msg path attrs attrs',
    buildObjectValueAttrsForMessage desc msg path attrs = Ok (inl attrs') →
    dom attrs' = dom attrs ∪ list_to_set (writtenNames desc).
Proof.
  induction desc as [desc IH] using MessageDescriptor_nested_ind.
  intros msg path attrs attrs'. rewrite buildObjectValueAttrsForMessage_unfold, writtenNames_unfold.
  revert attrs. induction (Message_Fields desc) as [|field rest IHrest]; intros attrs Hb.
  - simpl in Hb. simplify_eq. simpl. set_solver.
  - cbn [buildObjectValueAttrsFields] in Hb.
    apply obind_Ok in Hb as ([attrs1|err] & Hturn & Hb); [|done].
    cbn [writtenNamesFields]. rewrite list_to_set_app_L.
    rewrite (IHrest (λ f g m Hin, IH f g m (list_elem_of_further _ _ _ Hin)) attrs1 Hb).
    assert (dom attrs1 = dom attrs ∪ list_to_set (writtenNamesField writtenNames field)) as ->;
      [|set_solver].
    clear Hb IHrest. unfold buildObjectValueAttrsField in Hturn. unfold writtenNamesField.
    apply obind_Ok in Hturn as (elem & Helem & Hturn). rewrite Helem.
    destruct elem as [[[elem|elem|nested|name]|]|err]; simplify_eq.
    + apply obind_Ok in Hturn as ([v|err] & _ & Hturn); [|done].
      destruct (TypeConstraint elem) as [ty d]. destruct (HasErrors d); [done|].
      destruct (convert_Convert v ty); simplify_eq.
      rewrite dom_insert_L. simpl. set_solver.
    + unfold reflectNestedBlock in Hturn.
      repeat (first
        [ progress simplify_eq
        | match goal with
          | H : obind _ _ = Ok _ |- _ => apply obind_Ok in H as (? & ? & H)
          | H : context [match ?x with _ => _ end] |- _ => destruct x eqn:?
          end ]); try done; rewrite dom_insert_L; simpl; set_solver.
    + destruct (GetFieldElem_Flattened _ _ Helem) as [g Hty].
      rewrite (nestedOf_MessageType _ _ _ _ _ Hty).
      rewrite (nestedOf_MessageType _ _ _ _ _ Hty) in Hturn.
      apply obind_Ok in Hturn as (nestedMsg & _ & Hturn).
      by eapply (IH field g nested (list_elem_of_here _ _) Hty).
    + destruct (Message_Get msg field); simplify_eq.
      rewrite dom_insert_L. simpl. set_solver.
    + simpl. set_solver.
Qed.

Lemma buildObjectTypeAtysForMessageDesc_unfold desc atys :
  buildObjectTypeAtysForMessageDesc desc atys
  = buildObjectTypeAtysFields buildObjectTypeAtysForMessageDesc (Message_Fields desc) atys.
Proof. by destruct desc. Qed.

(** The object type gets exactly the names of the message. *)
Lemma buildObjectTypeAtysForMessageDesc_dom desc :
  ∀ atys atys',
    buildObjectTypeAtysForMessageDesc desc atys = Ok (inl atys') →
    dom atys' = dom atys ∪ list_to_set (writtenNames desc).
Proof.
  induction desc as [desc IH] using MessageDescriptor_nested_ind.
  intros atys atys'. rewrite buildObjectTypeAtysForMessageDesc_unfold, writtenNames_unfold.
  revert atys. induction (Message_Fields desc) as [|field rest IHrest]; intros atys Hb.
  - simpl in Hb. simplify_eq. simpl. set_solver.
  - cbn [buildObjectTypeAtysFields] in Hb.
    apply obind_Ok in Hb as ([atys1|err] & Hturn & Hb); [|done].
    cbn [writtenNamesFields]. rewrite list_to_set_app_L.
    rewrite (IHrest (λ f g m Hin, IH f g m (list_elem_of_further _ _ _ Hin)) atys1 Hb).
    assert (dom atys1 = dom atys ∪ list_to_set (writtenNamesField writtenNames field)) as ->;
      [|set_solver].
    clear Hb IHrest. unfold buildObjectTypeAtysField in Hturn. unfold writtenNamesField.
    apply obind_Ok in Hturn as (elem & Helem & Hturn). rewrite Helem.
    destruct elem as [[[elem|elem|nested|name]|]|err]; simplify_eq.
    + destruct (TypeConstraint elem) as [ty d]. destruct (HasErrors d); simplify_eq.
      rewrite dom_insert_L. simpl. set_solver.
    + apply obind_Ok in Hturn as ([nestedTy|err] & _ & Hturn); [|done].
      destruct (CollectionKind elem); try destruct (HasDynamicTypes nestedTy); simplify_eq;
        rewrite dom_insert_L; simpl; set_solver.
    + destruct (GetFieldElem_Flattened _ _ Helem) as [g Hty].
      rewrite (nestedOf_MessageType _ _ _ _ _ Hty).
      rewrite (nestedOf_MessageType _ _ _ _ _ Hty) in Hturn.
      by eapply (IH field g nested (list_elem_of_here _ _) Hty).
    + destruct (_ || _); simplify_eq. rewrite dom_insert_L. simpl. set_solver.
    + simpl. set_solver.
Qed.

(** X18. The object that [ObjectValueForMessage] returns has exactly
    the attributes the descriptor declares: the names of its attributes,
    block types and labels, and those of the messages it flattens. *)
Theorem ObjectValueForMessage_attribute_names desc msg v :
  ObjectValueForMessage desc msg = Ok (inl v) →
  ∃ attrs, v = ObjectVal attrs ∧ dom attrs = list_to_set (writtenNames desc).
Proof.
  unfold ObjectValueForMessage, objectValueForMessage, objectValueForMessageWith.
  intros ([attrs|err] & Hbuild & Hv)%obind_Ok; [|done]. simplify_eq.
  exists attrs. split; [done|].
  rewrite (buildObjectValueAttrsForMessage_dom _ _ _ _ _ Hbuild). set_solver.
Qed.

(** X19. The object type that [ObjectTypeConstraintForMessageDesc]
    returns has exactly the attributes the descriptor declares, so that
    a reflected object and the object type of its descriptor have the
    same attribute names. *)
Theorem ObjectTypeConstraintForMessageDesc_attribute_names desc ty :
  ObjectTypeConstraintForMessageDesc desc = Ok (inl ty) →
  ∃ atys,
    ty = cty_Object atys ∧ dom atys = list_to_set (writtenNames desc)
    ∧ ∀ msg v, ObjectValueForMessage desc msg = Ok (inl v) →
        ∃ attrs, v = ObjectVal attrs ∧ dom attrs = dom atys.
Proof.
  unfold ObjectTypeConstraintForMessageDesc, ObjectTypeConstraintWith.
  intros ([atys|err] & Hbuild & Hty)%obind_Ok; [|done]. simplify_eq.
  exists atys. split; [done|].
  assert (dom atys = list_to_set (writtenNames desc)) as Hdom.
  { rewrite (buildObjectTypeAtysForMessageDesc_dom _ _ _ Hbuild). set_solver. }
  split; [done|]. intros msg v.
  unfold ObjectValueForMessage, objectValueForMessage, objectValueForMessageWith.
  intros ([attrs|err] & Hvalue & Hv)%obind_Ok; [|done]. simplify_eq.
  exists attrs. split; [done|].
  rewrite (buildObjectValueAttrsForMessage_dom _ _ _ _ _ Hvalue), Hdom. set_solver.
Qed.

End AttributeNames.

(** The flattening message of the package's tests. *)
Lemma ObjectValueForMessage_attribute_names_witness :
  ∃ attrs,
    ObjectValueForMessage WithFlattenStringAttr
      (<[1%Z := PVMessage (<[1%Z := PVString "Joey"]> ∅)]> (<[2%Z := PVString "bird"]> ∅))
    = Ok (inl (ObjectVal attrs))
    ∧ dom attrs = list_to_set ["name"; "species"].
Proof.
  destruct (ObjectValueForMessage_attribute_names (H := basicHost) WithFlattenStringAttr
    (<[1%Z := PVMessage (<[1%Z := PVString "Joey"]> ∅)]> (<[2%Z := PVString "bird"]> ∅))
    (ObjectVal (<["name" := StringVal "Joey"]> (<["species" := StringVal "bird"]> ∅))))
    as (attrs & Hv & Hdom).
  - vm_compute. reflexivity.
  - exists attrs. split; [|exact Hdom]. rewrite <-Hv. vm_compute. reflexivity.
Defined.

Lemma ObjectTypeConstraintForMessageDesc_attribute_names_witness :
  ∃ atys,
    ObjectTypeConstraintForMessageDesc WithFlattenStringAttr = Ok (inl (cty_Object atys))
    ∧ dom atys = list_to_set ["name"; "species"].
Proof.
  destruct (ObjectTypeConstraintForMessageDesc_attribute_names (H := basicHost)
    WithFlattenStringAttr
    (cty_Object (<["name" := cty_String]> (<["species" := cty_String]> ∅))))
    as (atys & Hty & Hdom & _).
  - vm_compute. reflexivity.
  - exists atys. split; [|exact Hdom]. rewrite <-Hty. vm_compute. reflexivity.
Defined.

(** ** What a compiled schema implies *)

Lemma annotationsInOrder_resolve rec fields :
  annotationsInOrder rec fields →
  ∀ field, field ∈ fields → ∃ e, GetFieldElem field = Ok (inl e).
Proof.
  induction fields as [|f rest IH]; intros Hok field Hin.
  - by apply elem_of_nil in Hin.
  - destruct Hok as [Hf Hrest]. apply elem_of_cons in Hin as [->|Hin]; [|by apply IH].
    unfold annotationInOrder in Hf.
    destruct (GetFieldElem f) as [[e|err]|reason]; [by eexists|done|done].
Qed.

(** X17. [bodySchema] returns a schema only for a descriptor without
    conflicts: it has no oneof other than synthetic ones and every
    field of it resolves without error. The schema then lists the
    attributes and the block headers in field order, the entries of a
    flattened message in the place of the field that flattens it; label
    fields add no entry. *)
Theorem bodySchema_only_without_conflicts desc schema :
  bodySchema desc = Ok (inl schema) →
  firstRealOneof (Message_Oneofs desc) = None
  ∧ (∀ field, field ∈ Message_Fields desc → ∃ e, GetFieldElem field = Ok (inl e))
  ∧ noConflicts desc
  ∧ schema = surfaceSchema desc.
Proof.
  intros [Hok ->]%bodySchema_Ok.
  pose proof Hok as (Honeof & Horder & _)%noConflicts_unfold.
  split; [done|]. split; [by eapply annotationsInOrder_resolve|]. done.
Qed.

Lemma bodySchema_only_without_conflicts_witness :
  firstRealOneof (Message_Oneofs WithFlattenStringAttr) = None
  ∧ (∀ field, field ∈ Message_Fields WithFlattenStringAttr →
       ∃ e, GetFieldElem field = Ok (inl e))
  ∧ noConflicts WithFlattenStringAttr
  ∧ {| Schema_Attributes :=
         [ {| AttributeSchema_Name := "name"; AttributeSchema_Required := false |};
           {| AttributeSchema_Name := "species"; AttributeSchema_Required := false |} ];
       Schema_Blocks := [] |} = surfaceSchema WithFlattenStringAttr.
Proof.
  apply bodySchema_only_without_conflicts. vm_compute. reflexivity.
Defined.

(** ** Raw attributes: what is stored is what is read back *)

Section RawRoundTrip.
Context `{Host}.

(** X20. A raw-mode attribute stores the bytes its codec makes of the
    value under the type constraint of the attribute, without a
    diagnostic, and reflection decodes those bytes with the same codec
    under the same type constraint: where the codec reads its own bytes
    back as the value and the bytes are not empty, the reflection of
    the stored field is the value. *)
Theorem raw_attribute_round_trip
    (objectValueOf : ObjFn) field elem val rng ty dT raw path :
  GetFieldElem field = Ok (inl (Some (ElemAttribute elem))) →
  RawMode elem = Attribute_JSON ∨ RawMode elem = Attribute_MESSAGEPACK →
  TypeConstraint elem = (ty, dT) → HasErrors dT = false →
  (if bool_decide (RawMode elem = Attribute_JSON)
   then ctyjson_Marshal val ty = inl raw ∧ ctyjson_Unmarshal raw ty = inl val
   else ctymsgpack_Marshal val ty = inl raw ∧ ctymsgpack_Unmarshal raw ty = inl val) →
  raw ≠ [] →
  protoValueForSingletonField val rng field = Ok (PVBytes raw, [])
  ∧ hclValueForProtoFieldValue objectValueOf (PVBytes raw) path elem false = Ok (inl val).
Proof.
  intros Helem Hmode HT HdT Hcodec Hraw.
  destruct (GetFieldElem_Attribute_raw _ _ Helem) as [Hbytes _].
  assert (RawMode elem ≠ Attribute_NOT_RAW) as Hnotraw by (destruct Hmode; congruence).
  destruct (Hbytes Hnotraw) as (Hkind & _ & _).
  split.
  - unfold protoValueForSingletonField. rewrite Helem. cbn [obind].
    rewrite bool_decide_eq_false_2 by done. cbn [negb].
    rewrite bool_decide_eq_true_2 by done. cbn [negb].
    unfold protoValueForSingletonRawField. rewrite HT. cbn [HasErrors existsb].
    destruct Hmode as [Hm|Hm]; rewrite Hm in *.
    + rewrite bool_decide_eq_true_2 in Hcodec by done. by destruct Hcodec as [-> _].
    + rewrite bool_decide_eq_false_2 in Hcodec by done. by destruct Hcodec as [-> _].
  - cbn [hclValueForProtoFieldValue].
    destruct raw as [|b raw]; [done|]. cbn [length Nat.eqb]. rewrite HT, HdT.
    destruct Hmode as [Hm|Hm]; rewrite Hm in *.
    + rewrite bool_decide_eq_true_2 in Hcodec by done. by destruct Hcodec as [_ ->].
    + rewrite bool_decide_eq_false_2 in Hcodec by done. by destruct Hcodec as [_ ->].
Qed.

End RawRoundTrip.

(** The raw attribute of the package's tests, given a string. *)
Lemma raw_attribute_round_trip_witness :
  let field := MkField "hcl.testschema.WithRawDynamicAttr.raw" 1 Optional (ScalarType BytesKind)
                 (attrOptions "raw" false "any" Attribute_JSON) in
  let elem := {| Name := "raw"; Required_ := false; TypeExprString := "any";
                 RawMode := Attribute_JSON; TargetField := field |} in
  let raw := x02 :: list_byte_of_string "Jackson" in
  protoValueForSingletonField (StringVal "Jackson") (rangeAt 2 11 11 4) field
  = Ok (PVBytes raw, [])
  ∧ hclValueForProtoFieldValue objNil (PVBytes raw) [] elem false
    = Ok (inl (StringVal "Jackson")).
Proof.
  cbv zeta.
  apply (raw_attribute_round_trip (H := basicHost) objNil _ _ _ _ cty_DynamicPseudoType []).
  - reflexivity.
  - by left.
  - reflexivity.
  - reflexivity.
  - split; reflexivity.
  - discriminate.
Defined.

(** ** Object types of nested blocks *)

Section ObjectTypeBlocks.
Context `{Host}.

Lemma buildObjectTypeAtysFields_app pre post atys :
  buildObjectTypeAtysFields buildObjectTypeAtysForMessageDesc (pre ++ post) atys =
    let! r := buildObjectTypeAtysFields buildObjectTypeAtysForMessageDesc pre atys in
    match r with
    | inr err => Ok (inr err)
    | inl atys1 => buildObjectTypeAtysFields buildObjectTypeAtysForMessageDesc post atys1
    end.
Proof.
  revert atys. induction pre as [|field pre IH]; intros atys; [done|].
  cbn [app buildObjectTypeAtysFields].
  destruct (buildObjectTypeAtysField _ field atys) as [[atys1|err]|r]; cbn [obind]; try done.
Qed.

(** X21. A nested block of kind LIST or SET whose nested message has an
    object type with dynamic parts: the object type of the message is
    refused with a schema error at the field of the block. A repeated
    block of kind TUPLE makes its attribute dynamic, so a message with
    such a block cannot itself be the element of a LIST or SET block. *)
Theorem ObjectTypeConstraintForMessageDesc_rejects_dynamic_element
    desc pre field post elem atys1 nestedTy :
  Message_Fields desc = pre ++ field :: post →
  GetFieldElem field = Ok (inl (Some (ElemNestedBlockType elem))) →
  buildObjectTypeAtysFields buildObjectTypeAtysForMessageDesc pre ∅ = Ok (inl atys1) →
  ObjectTypeConstraintForMessageDesc (Nested elem) = Ok (inl nestedTy) →
  HasDynamicTypes nestedTy = true →
  (CollectionKind elem = NestedBlock_LIST →
     ObjectTypeConstraintForMessageDesc desc
     = Ok (inr (schemaErrorf (Field_FullName field)
         "can't use (hcl.block).kind = LIST with a block type containing an attribute with an 'any' constraint")))
  ∧ (CollectionKind elem = NestedBlock_SET →
     ObjectTypeConstraintForMessageDesc desc
     = Ok (inr (schemaErrorf (Field_FullName field)
         "can't use (hcl.block).kind = SET with a block type containing an attribute with an 'any' constraint")))
  ∧ (CollectionKind elem = NestedBlock_TUPLE →
     ∀ atys3,
       buildObjectTypeAtysFields buildObjectTypeAtysForMessageDesc post
         (<[TypeName elem := cty_DynamicPseudoType]> atys1) = Ok (inl atys3) →
       ObjectTypeConstraintForMessageDesc desc = Ok (inl (cty_Object atys3))).
Proof.
  intros Hfields Helem Hpre Hnested Hdyn.
  destruct (GetFieldElem_NestedBlock _ _ Helem) as [g Hty].
  assert (∀ atys, buildObjectTypeAtysField
            (nestedOf buildObjectTypeAtysForMessageDesc atysNil field) field atys
          = match CollectionKind elem with
            | NestedBlock_AUTO => Ok (inl (<[TypeName elem := nestedTy]> atys))
            | NestedBlock_TUPLE => Ok (inl (<[TypeName elem := cty_DynamicPseudoType]> atys))
            | NestedBlock_LIST =>
                Ok (inr (schemaErrorf (Field_FullName field)
                  "can't use (hcl.block).kind = LIST with a block type containing an attribute with an 'any' constraint"))
            | NestedBlock_SET =>
                Ok (inr (schemaErrorf (Field_FullName field)
                  "can't use (hcl.block).kind = SET with a block type containing an attribute with an 'any' constraint"))
            | k =>
                Ok (inr (schemaErrorf (Field_FullName field)
                  ("unsupported block collection kind " +:+ NestedBlock_CollectionKind_String k)))
            end) as Hturn.
  { intros atys. unfold buildObjectTypeAtysField. rewrite Helem. cbn [obind].
    rewrite (nestedOf_MessageType _ _ _ _ _ Hty).
    unfold ObjectTypeConstraintForMessageDesc in Hnested. rewrite Hnested. cbn [obind].
    by rewrite Hdyn. }
  assert (ObjectTypeConstraintForMessageDesc desc
          = let! r := (let! r1 := buildObjectTypeAtysField
                                    (nestedOf buildObjectTypeAtysForMessageDesc atysNil field)
                                    field atys1 in
                       match r1 with
                       | inr err => Ok (inr err)
                       | inl atys2 =>
                           buildObjectTypeAtysFields buildObjectTypeAtysForMessageDesc post atys2
                       end) in
            match r with
            | inr err => Ok (inr err)
            | inl atys => Ok (inl (cty_Object atys))
            end) as Hrun.
  { unfold ObjectTypeConstraintForMessageDesc, ObjectTypeConstraintWith.
    rewrite buildObjectTypeAtysForMessageDesc_unfold, Hfields, buildObjectTypeAtysFields_app.
    rewrite Hpre. by cbn [obind buildObjectTypeAtysFields]. }
  rewrite Hrun, Hturn. split; [|split].
  - by intros ->.
  - by intros ->.
  - intros -> atys3 Hpost. cbn [obind]. by rewrite Hpost.
Qed.

End ObjectTypeBlocks.

(** The message of the reflection counterexample: a LIST block whose
    nested message has a repeated block of its own. *)
Lemma ObjectTypeConstraintForMessageDesc_rejects_dynamic_element_witness :
  ObjectTypeConstraintForMessageDesc WithListOfRepeatedLeaf
  = Ok (inr (schemaErrorf "hcl.testschema.WithListOfRepeatedLeaf.doodad"
      "can't use (hcl.block).kind = LIST with a block type containing an attribute with an 'any' constraint")).
Proof.
  refine (proj1 (ObjectTypeConstraintForMessageDesc_rejects_dynamic_element (H := basicHost)
    WithListOfRepeatedLeaf []
    (MkField "hcl.testschema.WithListOfRepeatedLeaf.doodad" 1 Repeated
       (MessageType false WithRepeatedLeaf) (blockOptions "doodad" NestedBlock_LIST))
    [] {| TypeName := "doodad"; Nested := WithRepeatedLeaf; Repeated_ := true;
          CollectionKind := NestedBlock_LIST |}
    ∅ (cty_Object (<["leaf" := cty_DynamicPseudoType]> ∅))
    eq_refl eq_refl eq_refl _ _) eq_refl).
  - vm_compute. reflexivity.
  - vm_compute. reflexivity.
Defined.

(** ** Name conflicts in the schema compiler *)

(** The loop of [bodySchema], split at a field. *)
Lemma bodySchemaFields_app descName pre post st :
  bodySchemaFields bodySchema descName (pre ++ post) st =
    let! r := bodySchemaState descName pre st in
    match r with
    | inr err => Ok (inr err)
    | inl st1 => bodySchemaFields bodySchema descName post st1
    end.
Proof.
  revert st. induction pre as [|field pre IH]; intros st; [done|].
  cbn [app bodySchemaFields bodySchemaState].
  destruct (bodySchemaField _ _ field st) as [[st1|err]|r]; cbn [obind]; try done.
Qed.

(** A declaration that goes through keeps every entry of the attribute
    registry. *)
Lemma flattenAttributes_keeps field nest : ∀ st st' name declaredBy,
  flattenAttributes field nest st = inl st' →
  attrs st !! name = Some declaredBy → attrs st' !! name = Some declaredBy.
Proof.
  induction nest as [|attrS rest IH]; intros st st' name declaredBy Hrun Hin.
  - simpl in Hrun. by simplify_eq.
  - cbn [flattenAttributes] in Hrun.
    destruct (attrs st !! AttributeSchema_Name attrS) eqn:Ha; [done|].
    destruct (blockTypes st !! _); [done|]. destruct (blockLabels st !! _); [done|].
    apply (IH _ _ _ _ Hrun). unfold appendAttribute. simpl.
    rewrite lookup_insert_ne; [done|]. intros Heq. simpl in *. congruence.
Qed.

Lemma flattenBlocks_keeps field nest : ∀ st st',
  flattenBlocks field nest st = inl st' → attrs st' = attrs st.
Proof.
  induction nest as [|blockS rest IH]; intros st st' Hrun.
  - simpl in Hrun. by simplify_eq.
  - cbn [flattenBlocks] in Hrun.
    destruct (attrs st !! _); [done|].
    destruct (blockTypes st !! _); [done|]. destruct (blockLabels st !! _); [done|].
    by rewrite (IH _ _ Hrun).
Qed.

Lemma bodySchemaField_keeps descName nest field st st' name declaredBy :
  bodySchemaField descName nest field st = Ok (inl st') →
  attrs st !! name = Some declaredBy → attrs st' !! name = Some declaredBy.
Proof.
  unfold bodySchemaField. intros (elem & Helem & Hrun)%obind_Ok Hin.
  destruct elem as [[[a|b|nested|label]|]|err]; [| | | | |done].
  - injection Hrun as Hrun. unfold declareAttribute in Hrun.
    destruct (attrs st !! AttributeSchema_Name (attributeSchema a)) eqn:Ha; [done|].
    destruct (blockTypes st !! _); [done|]. destruct (blockLabels st !! _); [done|].
    injection Hrun as <-. unfold appendAttribute. simpl.
    rewrite lookup_insert_ne; [done|]. intros Heq. simpl in *. congruence.
  - apply obind_Ok in Hrun as (blockS & _ & Hrun). injection Hrun as Hrun.
    unfold declareBlock in Hrun.
    destruct (attrs st !! _); [done|].
    destruct (blockTypes st !! _); [done|]. destruct (blockLabels st !! _); [done|].
    by injection Hrun as <-.
  - apply obind_Ok in Hrun as ([nestSchema|err] & _ & Hrun); [|done].
    destruct (flattenAttributes _ _ st) as [st1|err] eqn:Hattrs; [|done].
    injection Hrun as Hrun.
    rewrite (flattenBlocks_keeps _ _ _ _ Hrun). by eapply flattenAttributes_keeps.
  - injection Hrun as Hrun. unfold declareLabel in Hrun.
    destruct (attrs st !! _); [done|].
    destruct (blockTypes st !! _); [done|]. destruct (blockLabels st !! _); [done|].
    by injection Hrun as <-.
  - by injection Hrun as <-.
Qed.

Lemma bodySchemaState_keeps descName fields : ∀ st st' name declaredBy,
  bodySchemaState descName fields st = Ok (inl st') →
  attrs st !! name = Some declaredBy → attrs st' !! name = Some declaredBy.
Proof.
  induction fields as [|field rest IH]; intros st st' name declaredBy Hrun Hin.
  - simpl in Hrun. by simplify_eq.
  - cbn [bodySchemaState] in Hrun.
    apply obind_Ok in Hrun as ([st1|err] & Hturn & Hrun); [|done].
    apply (IH _ _ _ _ Hrun). by eapply bodySchemaField_keeps.
Qed.

(** X22. Two attribute fields of one message with the same name: where
    the fields before the second one compile, [bodySchema] fails at the
    second field, and the error names the attribute and the field that
    declared it first. *)
Theorem bodySchema_duplicate_attribute
    desc before first between second post a1 a2 st :
  firstRealOneof (Message_Oneofs desc) = None →
  Message_Fields desc = before ++ first :: between ++ second :: post →
  GetFieldElem first = Ok (inl (Some (ElemAttribute a1))) →
  GetFieldElem second = Ok (inl (Some (ElemAttribute a2))) →
  Name a1 = Name a2 →
  bodySchemaState (Message_FullName desc) (before ++ first :: between) emptySchemaState
    = Ok (inl st) →
  bodySchema desc
  = Ok (inr (schemaErrorf (Field_FullName second)
               ("declaration of attribute " +:+ fmt_q (Name a2) +:+ " conflicts with "
                +:+ Field_FullName first))).
Proof.
  intros Honeof Hfields Hfirst Hsecond Hname Hstate.
  assert (attrs st !! Name a2 = Some (Field_FullName first)) as Hdeclared.
  { assert (∀ st0, bodySchemaState (Message_FullName desc) (before ++ first :: between) st0
                   = Ok (inl st) → attrs st !! Name a2 = Some (Field_FullName first)) as Hgen;
      [|by apply (Hgen emptySchemaState)].
    clear Hstate Hfields. induction before as [|f before IH]; intros st0 Hrun.
    - cbn [app bodySchemaState] in Hrun.
      apply obind_Ok in Hrun as ([st1|err] & Hturn & Hrun); [|done].
      apply (bodySchemaState_keeps _ _ _ _ _ _ Hrun).
      unfold bodySchemaField in Hturn. rewrite Hfirst in Hturn. cbn [obind] in Hturn.
      unfold declareAttribute in Hturn.
      destruct (attrs st0 !! _); [done|].
      destruct (blockTypes st0 !! _); [done|]. destruct (blockLabels st0 !! _); [done|].
      injection Hturn as <-. unfold appendAttribute. simpl. rewrite Hname. apply lookup_insert_eq.
    - cbn [app bodySchemaState] in Hrun.
      apply obind_Ok in Hrun as ([st1|err] & _ & Hrun); [|done]. by apply (IH st1). }
  rewrite bodySchema_unfold, Honeof, Hfields.
  replace (before ++ first :: between ++ second :: post)
    with ((before ++ first :: between) ++ second :: post) by by rewrite <-app_assoc.
  rewrite bodySchemaFields_app, Hstate. cbn [obind bodySchemaFields].
  unfold bodySchemaField. rewrite Hsecond. cbn [obind].
  unfold declareAttribute. cbn [attributeSchema AttributeSchema_Name].
  by rewrite Hdeclared.
Qed.

(** The two attributes named [name] of [Conflicting]. *)
Lemma bodySchema_duplicate_attribute_witness :
  bodySchema Conflicting
  = Ok (inr (schemaErrorf "hcl.testschema.Conflicting.second"
               ("declaration of attribute " +:+ fmt_q "name"
                +:+ " conflicts with hcl.testschema.Conflicting.first"))).
Proof.
  apply (bodySchema_duplicate_attribute Conflicting []
    (MkField "hcl.testschema.Conflicting.first" 1 Optional (ScalarType StringKind)
       (attrOptions "name" false EmptyString Attribute_NOT_RAW))
    []
    (MkField "hcl.testschema.Conflicting.second" 2 Optional (ScalarType StringKind)
       (attrOptions "name" false EmptyString Attribute_NOT_RAW))
    []
    {| Name := "name"; Required_ := false; TypeExprString := EmptyString;
       RawMode := Attribute_NOT_RAW;
       TargetField := MkField "hcl.testschema.Conflicting.first" 1 Optional
                        (ScalarType StringKind)
                        (attrOptions "name" false EmptyString Attribute_NOT_RAW) |}
    {| Name := "name"; Required_ := false; TypeExprString := EmptyString;
       RawMode := Attribute_NOT_RAW;
       TargetField := MkField "hcl.testschema.Conflicting.second" 2 Optional
                        (ScalarType StringKind)
                        (attrOptions "name" false EmptyString Attribute_NOT_RAW) |}
    (appendAttribute emptySchemaState
       {| AttributeSchema_Name := "name"; AttributeSchema_Required := false |}
       "hcl.testschema.Conflicting.first")).
  - reflexivity.
  - reflexivity.
  - reflexivity.
  - reflexivity.
  - reflexivity.
  - reflexivity.
Defined.

(** ** Message-typed attribute fields *)

Section MessageAttrFacts.
Context `{Host} `{StructPb}.

Lemma isMessageField_elementField (attr : FieldAttribute) :
  isMessageField attr = bool_decide (Field_Kind (elementField (TargetField attr)) = MessageKind).
Proof. reflexivity. Qed.

Lemma elementField_map (desc key value : FieldDescriptor) :
  Field_Type desc = MapEntryType key value →
  Field_IsMap desc = true ∧ Field_MapKey desc = Some key
  ∧ Field_MapValue desc = Some value ∧ elementField desc = value.
Proof.
  intros Hty. unfold Field_IsMap, Field_MapKey, Field_MapValue, elementField, Field_MapValue.
  rewrite Hty. done.
Qed.

Lemma elementField_not_map (desc : FieldDescriptor) :
  Field_IsMap desc = false → elementField desc = desc.
Proof.
  unfold Field_IsMap, elementField, Field_MapValue.
  by destruct (Field_Type desc).
Qed.

(** A map whose key is no string is refused before its element is
    looked at; otherwise the builder is looked for in the element field
    alone. *)
Lemma getFieldAttrMessageBuilder_key (desc key : FieldDescriptor) (wantTy : CtyType) :
  Field_MapKey desc = Some key → Field_Kind key ≠ StringKind →
  getFieldAttrMessageBuilder desc wantTy
  = Ok (inr (schemaErrorf (Field_FullName desc) "HCL can only support maps with string keys")).
Proof.
  intros Hkey Hkind. unfold getFieldAttrMessageBuilder.
  assert (Field_IsMap desc = true) as ->.
  { unfold Field_IsMap. unfold Field_MapKey in Hkey. by destruct (Field_Type desc). }
  rewrite Hkey, (bool_decide_eq_false_2 _ Hkind). reflexivity.
Qed.

Lemma getFieldAttrMessageBuilder_element (desc : FieldDescriptor) (wantTy : CtyType) :
  (∀ key, Field_MapKey desc = Some key → Field_Kind key = StringKind) →
  getFieldAttrMessageBuilder desc wantTy
  = match Field_Message (elementField desc) with
    | None => nilDeref
    | Some elemMsgDesc =>
        if String.eqb (Message_FullName elemMsgDesc) structpbValueName then
          Ok (structpbAttrMessageBuilder desc wantTy)
        else
          Ok (inr (schemaErrorf (Field_FullName desc)
                     ("can't decode attribute into message type "
                      +:+ Message_FullName elemMsgDesc)))
    end.
Proof.
  intros Hkey. unfold getFieldAttrMessageBuilder.
  destruct (Field_Type desc) as [k|group m|key value] eqn:Hty.
  - assert (Field_IsMap desc = false) as Hmap by (unfold Field_IsMap; by rewrite Hty).
    rewrite Hmap, (elementField_not_map _ Hmap). reflexivity.
  - assert (Field_IsMap desc = false) as Hmap by (unfold Field_IsMap; by rewrite Hty).
    rewrite Hmap, (elementField_not_map _ Hmap). reflexivity.
  - destruct (elementField_map _ _ _ Hty) as (Hmap & Hk & Hv & ->).
    rewrite Hmap, Hk, Hv, (bool_decide_eq_true_2 _ (Hkey _ Hk)). reflexivity.
Qed.

Lemma Field_MapKey_cases (desc : FieldDescriptor) :
  (∃ key, Field_MapKey desc = Some key ∧ Field_Kind key ≠ StringKind)
  ∨ (∀ key, Field_MapKey desc = Some key → Field_Kind key = StringKind).
Proof.
  destruct (Field_MapKey desc) as [key|]; [|by right].
  destruct (decide (Field_Kind key = StringKind)) as [Hkind|Hkind].
  - right. by intros ? [= <-].
  - left. eauto.
Qed.

Lemma autoTypeConstraint_message_field (attr : FieldAttribute) :
  isMessageField attr = true → ∃ ty err, autoTypeConstraint attr = (ty, Some err).
Proof.
  intros Hmsg%bool_decide_eq_true_1.
  change (Field_Kind (elementField (TargetField attr)) = MessageKind) in Hmsg.
  unfold autoTypeConstraint.
  destruct (negb _); [eauto|].
  unfold autoTypeConstraintForField.
  change (match Field_MapValue (TargetField attr) with
          | Some v => v
          | None => TargetField attr
          end) with (elementField (TargetField attr)).
  unfold autoTypeConstraintForFieldElement. rewrite Hmsg. simpl. eauto.
Qed.

Lemma TypeConstraint_message_field_inferred (attr : FieldAttribute) :
  TypeExprString attr = EmptyString → isMessageField attr = true →
  ∃ ty diags, TypeConstraint attr = (ty, diags) ∧ HasErrors diags = true.
Proof.
  intros Hexpr Hmsg. unfold TypeConstraint. rewrite Hexpr. simpl.
  destruct (autoTypeConstraint_message_field attr Hmsg) as (ty & err & ->).
  eexists _, _. split; [reflexivity|]. reflexivity.
Qed.

(** The type constraints a list builder is made for, and what each
    element is converted to. *)
Lemma structpbListElems_cons (wantTy : CtyType) (path : Path) (elemK elemV : Value)
    (rest : list (Value * Value)) (i : nat) (l : list ProtoValue) :
  isDynamicPseudoType wantTy || IsListType wantTy || IsSetType wantTy = true →
  structpbListElems wantTy path ((elemK, elemV) :: rest) i l
  = match ctystructpb_ToStructValue elemV (sequenceElementConstraint wantTy) with
    | inr err => Ok (inr (AttrErrValue (attrValueErrorWrap path err)))
    | inl protoElem => structpbListElems wantTy path rest (S i) (l ++ [PVMessage protoElem])
    end.
Proof.
  intros Hwant. destruct wantTy; try discriminate Hwant; reflexivity.
Qed.


Lemma structpbListElems_converted (wantTy : CtyType) (path : Path) (it : list (Value * Value)) :
  isDynamicPseudoType wantTy || IsListType wantTy || IsSetType wantTy = true →
  ∀ i l pv,
    structpbListElems wantTy path it i l = Ok (inl pv) →
    ∃ ms, pv = PVList (l ++ (PVMessage <$> ms))
          ∧ Forall2 (λ elemV m,
                       ctystructpb_ToStructValue elemV (sequenceElementConstraint wantTy) = inl m)
                    it.*2 ms.
Proof.
  intros Hwant. induction it as [|[elemK elemV] rest IH]; intros i l pv Hrun.
  - simpl in Hrun. injection Hrun as <-. exists []. simpl. by rewrite app_nil_r.
  - rewrite structpbListElems_cons in Hrun by done.
    destruct (ctystructpb_ToStructValue _ _) as [m|err] eqn:Hconv; [|discriminate].
    destruct (IH _ _ _ Hrun) as (ms & -> & Hall).
    exists (m :: ms). split.
    + by rewrite <-app_assoc.
    + simpl. by constructor.
Qed.


Lemma imap_indexed_values (f : nat → Value) (elems : list Value) :
  (imap (λ i elem, (f i, elem)) elems).*2 = elems.
Proof.
  revert f. induction elems as [|e elems IH]; intros f; [done|].
  simpl. f_equal. apply (IH (f ∘ S)).
Qed.

(** What the iterator hands out for a known sequence. *)
Lemma Value_ElementIterator_sequence (v : Value) :
  IsNull v = false → IsKnown v = true →
  IsListType (Value_Type v) || IsSetType (Value_Type v) || IsTupleType (Value_Type v) = true →
  ∃ it elems, Value_ElementIterator v = Ok it ∧ Value_AsValueSlice v = Ok elems
              ∧ it.*2 = elems.
Proof.
  intros Hnull Hknown Hty.
  destruct v as [|ty|ty| | |  |ety elems|ety elems|ety elems|elems|attrs];
    try discriminate; simpl.
  - eexists _, _. split; [reflexivity|]. split; [reflexivity|].
    apply (imap_indexed_values (λ i, NumberIntVal (Z.of_nat i))).
  - eexists _, _. split; [reflexivity|]. split; [reflexivity|].
    rewrite <-list_fmap_compose. by rewrite list_fmap_id.
  - eexists _, _. split; [reflexivity|]. split; [reflexivity|].
    apply (imap_indexed_values (λ i, NumberIntVal (Z.of_nat i))).
Qed.


(** The list builder on a known sequence is its loop. *)
Lemma structpbListBuilder_sequence (wantTy : CtyType) (v : Value) (path : Path)
    (it : list (Value * Value)) :
  isDynamicPseudoType wantTy || IsListType wantTy || IsSetType wantTy = true →
  IsNull v = false → IsKnown v = true →
  IsListType (Value_Type v) || IsSetType (Value_Type v) || IsTupleType (Value_Type v) = true →
  Value_ElementIterator v = Ok it →
  structpbListBuilder wantTy v path = structpbListElems wantTy path it 0 [].
Proof.
  intros Hwant Hnull Hknown Hty Hit. unfold structpbListBuilder.
  rewrite Hnull, Hknown, Hty, Hit. simpl.
  destruct wantTy; try discriminate Hwant; reflexivity.
Qed.





Lemma structpbAttrMessageBuilder_list (desc : FieldDescriptor) (wantTy : CtyType)
    (builder : attrMessageBuilder) :
  Field_IsList desc = true →
  structpbAttrMessageBuilder desc wantTy = inl builder →
  isDynamicPseudoType wantTy || IsListType wantTy || IsSetType wantTy = true
  ∧ builder = structpbListBuilder wantTy.
Proof.
  intros Hlist. unfold structpbAttrMessageBuilder. rewrite Hlist.
  destruct (isDynamicPseudoType wantTy || IsListType wantTy || IsSetType wantTy);
    simpl; [|discriminate].
  intros [= <-]. done.
Qed.

(** X23. An attribute on a message-typed field, singular, repeated or
    the value of a map, that leaves its type constraint to be inferred
    is never decoded: whatever the value and whatever the message type,
    [valueForMessageField] answers with the schema error
    "invalid HCL type constraint" for the field. *)
Theorem valueForMessageField_needs_explicit_type (v : Value) (attr : FieldAttribute) :
  TypeExprString attr = EmptyString →
  isMessageField attr = true →
  valueForMessageField v attr
  = Ok (inr (AttrErrSchema (schemaErrorf (Field_FullName (TargetField attr))
                              "invalid HCL type constraint"))).
Proof.
  intros Hexpr Hmsg. unfold valueForMessageField.
  destruct (TypeConstraint_message_field_inferred attr Hexpr Hmsg) as (ty & diags & -> & ->).
  reflexivity.
Qed.

(** X24. A message-typed field whose message type is not
    google.protobuf.Value never receives a value from
    [valueForMessageField]: for every value and every type constraint
    the answer is a schema error. *)
Theorem valueForMessageField_only_structpb (v : Value) (attr : FieldAttribute)
    (m : MessageDescriptor) :
  Field_Message (elementField (TargetField attr)) = Some m →
  Message_FullName m ≠ structpbValueName →
  ∃ err, valueForMessageField v attr = Ok (inr (AttrErrSchema err)).
Proof.
  intros Hm Hother. unfold valueForMessageField.
  destruct (TypeConstraint attr) as [wantTy diags].
  destruct (HasErrors diags); [eauto|].
  destruct (Field_MapKey_cases (TargetField attr)) as [(key & Hkey & Hkind)|Hkey].
  { rewrite (getFieldAttrMessageBuilder_key _ _ _ Hkey Hkind). simpl. eauto. }
  rewrite (getFieldAttrMessageBuilder_element _ _ Hkey), Hm.
  destruct (String.eqb_spec (Message_FullName m) structpbValueName) as [Heq|_]; [done|].
  simpl. eauto.
Qed.


(** X26. When the builder of a list field succeeds on a value, the
    result is a list with one message for each element of the value, in
    the order of the elements, each the conversion of its element to the
    element type of the constraint. *)
Theorem structpbAttrMessageBuilder_list_in_order (desc : FieldDescriptor) (wantTy : CtyType)
    (builder : attrMessageBuilder) (v : Value) (path : Path) (pv : ProtoValue) :
  Field_IsList desc = true →
  structpbAttrMessageBuilder desc wantTy = inl builder →
  builder v path = Ok (inl pv) →
  ∃ elems ms,
    Value_AsValueSlice v = Ok elems
    ∧ pv = PVList (PVMessage <$> ms)
    ∧ Forall2 (λ elemV m,
                 ctystructpb_ToStructValue elemV (sequenceElementConstraint wantTy) = inl m)
              elems ms.
Proof.
  intros Hlist Hmade Hrun.
  destruct (structpbAttrMessageBuilder_list _ _ _ Hlist Hmade) as [Hwant ->].
  destruct (IsNull v) eqn:Hnull.
  { unfold structpbListBuilder in Hrun. rewrite Hnull in Hrun. discriminate. }
  destruct (IsKnown v) eqn:Hknown.
  2: { unfold structpbListBuilder in Hrun. rewrite Hnull, Hknown in Hrun. discriminate. }
  destruct (IsListType (Value_Type v) || IsSetType (Value_Type v) || IsTupleType (Value_Type v))
    eqn:Hty.
  2: { unfold structpbListBuilder in Hrun. rewrite Hnull, Hknown, Hty in Hrun. discriminate. }
  destruct (Value_ElementIterator_sequence v Hnull Hknown Hty) as (it & elems & Hit & Hslice & <-).
  rewrite (structpbListBuilder_sequence _ _ _ _ Hwant Hnull Hknown Hty Hit) in Hrun.
  destruct (structpbListElems_converted _ _ _ Hwant _ _ _ Hrun) as (ms & -> & Hall).
  exists it.*2, ms. done.
Qed.


(** X28. [getFieldAttrMessageBuilder] panics exactly on the fields its
    callers must not send: those whose element is not message-typed,
    unless the field is a map whose key is no string, which is refused
    before the element is looked at. *)
Theorem getFieldAttrMessageBuilder_panics_iff (desc : FieldDescriptor) (wantTy : CtyType) :
  (∀ r, getFieldAttrMessageBuilder desc wantTy ≠ Ok r)
  ↔ Field_Message (elementField desc) = None
    ∧ (∀ key, Field_MapKey desc = Some key → Field_Kind key = StringKind).
Proof.
  destruct (Field_MapKey_cases desc) as [(key & Hkey & Hkind)|Hkey].
  - rewrite (getFieldAttrMessageBuilder_key _ _ _ Hkey Hkind). split.
    + intros Hno. by destruct (Hno _ eq_refl).
    + intros [_ Hall]. by destruct (Hkind (Hall _ Hkey)).
  - rewrite (getFieldAttrMessageBuilder_element _ _ Hkey).
    destruct (Field_Message (elementField desc)) as [m|].
    + split; [|intros [[=] _]]. intros Hno. exfalso.
      destruct (String.eqb _ _); by eapply Hno.
    + split; [done|]. intros _ r. unfold nilDeref. discriminate.
Qed.

End MessageAttrFacts.

Lemma valueForMessageField_needs_explicit_type_witness :
  valueForMessageField (H := basicHost) (H0 := basicStructPb)
    (TupleVal [StringVal "a"]) (tagsAttr EmptyString)
  = Ok (inr (AttrErrSchema (schemaErrorf "hcl.testschema.WithStructpb.tags"
                              "invalid HCL type constraint"))).
Proof.
  apply (valueForMessageField_needs_explicit_type (H := basicHost) (H0 := basicStructPb)
           (TupleVal [StringVal "a"]) (tagsAttr EmptyString)); reflexivity.
Defined.

Lemma valueForMessageField_only_structpb_witness :
  ∃ err,
    valueForMessageField (H := basicHost) (H0 := basicStructPb)
      (StringVal "a") (leafAttr "string")
    = Ok (inr (AttrErrSchema err)).
Proof.
  apply (valueForMessageField_only_structpb (H := basicHost) (H0 := basicStructPb)
           (StringVal "a") (leafAttr "string") Leaf); [reflexivity|].
  vm_compute. discriminate.
Defined.


Lemma structpbAttrMessageBuilder_list_in_order_witness :
  ∃ elems ms,
    Value_AsValueSlice (ListValOf cty_String [StringVal "a"; StringVal "b"]) = Ok elems
    ∧ PVList [PVMessage (<[3%Z := PVString "a"]> ∅); PVMessage (<[3%Z := PVString "b"]> ∅)]
      = PVList (PVMessage <$> ms)
    ∧ Forall2 (λ elemV m,
                 basicToStructValue elemV (sequenceElementConstraint (cty_List cty_String))
                 = inl m)
              elems ms.
Proof.
  apply (structpbAttrMessageBuilder_list_in_order (H0 := basicStructPb)
           tagsField (cty_List cty_String) (structpbListBuilder (cty_List cty_String))
           (ListValOf cty_String [StringVal "a"; StringVal "b"]) []).
  - reflexivity.
  - reflexivity.
  - vm_compute. reflexivity.
Defined.


Section MessageAttrMaps.
Context `{Host} `{StructPb}.

Lemma MapKey_eqb_eq (a b : MapKey) : MapKey_eqb a b = true → a = b.
Proof.
  destruct a, b; simpl; try discriminate.
  - by intros ->%String.eqb_eq.
  - by intros ->%Z.eqb_eq.
  - by intros ->%Bool.eqb_prop.
Qed.

Lemma mapSet_fresh (m : list (MapKey * ProtoValue)) (k : MapKey) (v : ProtoValue) :
  k ∉ m.*1 → mapSet m k v = m ++ [(k, v)].
Proof.
  intros Hfresh. unfold mapSet.
  destruct (existsb _ m) eqn:Hex; [|done].
  apply existsb_exists in Hex as ([k' v'] & Hin & Heq%MapKey_eqb_eq).
  simpl in Heq. subst k'. destruct Hfresh.
  apply list_elem_of_fmap. exists (k, v'). split; [done|]. by apply list_elem_of_In.
Qed.

Lemma structpbMapElems_cons (wantTy : CtyType) (path : Path) (k : string) (elemV : Value)
    (rest : list (Value * Value)) (m : list (MapKey * ProtoValue)) :
  isDynamicPseudoType wantTy || IsObjectType wantTy || IsMapType wantTy = true →
  structpbMapElems wantTy path ((StringVal k, elemV) :: rest) m
  = match mappingElementConstraint wantTy k with
    | None =>
        Ok (inr (AttrErrValue (attrValueErrorf path
              ("does not expect an attribute named " +:+ fmt_q k))))
    | Some wantEty =>
        match ctystructpb_ToStructValue elemV wantEty with
        | inr err => Ok (inr (AttrErrValue (attrValueErrorWrap path err)))
        | inl protoElem =>
            structpbMapElems wantTy path rest
              (mapSet m (MapKeyString k) (PVMessage protoElem))
        end
    end.
Proof.
  intros Hwant. destruct wantTy; try discriminate Hwant; reflexivity.
Qed.

Lemma structpbMapElems_converted (wantTy : CtyType) (path : Path) :
  isDynamicPseudoType wantTy || IsObjectType wantTy || IsMapType wantTy = true →
  ∀ (kvs : list (string * Value)) m pv,
    NoDup kvs.*1 →
    (∀ k, k ∈ kvs.*1 → MapKeyString k ∉ m.*1) →
    structpbMapElems wantTy path (mappingSteps kvs) m = Ok (inl pv) →
    ∃ kms : list (string * Message),
      pv = PVMap (m ++ ((λ km, (MapKeyString km.1, PVMessage km.2)) <$> kms))
      ∧ Forall2 (λ kv km,
                   km.1 = kv.1
                   ∧ ∃ ety, mappingElementConstraint wantTy kv.1 = Some ety
                            ∧ ctystructpb_ToStructValue kv.2 ety = inl km.2)
                kvs kms.
Proof.
  intros Hwant. induction kvs as [|[k e] rest IH]; intros m pv Hnodup Hfresh Hrun.
  - simpl in Hrun. injection Hrun as <-. exists []. simpl. by rewrite app_nil_r.
  - change (mappingSteps ((k, e) :: rest))
      with ((StringVal k, e) :: mappingSteps rest) in Hrun.
    rewrite structpbMapElems_cons in Hrun by done.
    destruct (mappingElementConstraint wantTy k) as [ety|] eqn:Hety; [|discriminate].
    destruct (ctystructpb_ToStructValue e ety) as [msg|err] eqn:Hconv; [|discriminate].
    rewrite fmap_cons in Hnodup. simpl in Hnodup.
    apply NoDup_cons in Hnodup as [Hk Hnodup].
    rewrite mapSet_fresh in Hrun.
    2: { apply Hfresh. rewrite fmap_cons. apply list_elem_of_here. }
    assert (∀ k', k' ∈ rest.*1 → MapKeyString k' ∉ (m ++ [(MapKeyString k, PVMessage msg)]).*1)
      as Hfresh'.
    { intros k' Hk'. rewrite fmap_app. apply not_elem_of_app. split.
      - apply Hfresh. rewrite fmap_cons. by apply list_elem_of_further.
      - simpl. apply not_elem_of_cons. split; [|apply not_elem_of_nil].
        intros [= ->]. done. }
    destruct (IH _ _ Hnodup Hfresh' Hrun) as (kms & -> & Hall).
    exists ((k, msg) :: kms). split.
    + by rewrite <-app_assoc.
    + constructor; [|done]. simpl. eauto.
Qed.


(** What the iterator hands out for a known mapping. *)
Lemma Value_ElementIterator_mapping_steps (v : Value) :
  IsNull v = false → IsKnown v = true →
  IsObjectType (Value_Type v) || IsMapType (Value_Type v) = true →
  ∃ vals kvs,
    Value_AsValueMap v = Ok vals
    ∧ Value_ElementIterator v = Ok (mappingSteps kvs)
    ∧ kvs ≡ₚ map_to_list vals.
Proof.
  intros Hnull Hknown Hty.
  destruct v as [|ty|ty| | |  |ety elems|ety elems|ety elems|elems|attrs];
    try discriminate; simpl.
  all: eexists _, _; split; [reflexivity|]; split; [reflexivity|].
  all: apply merge_sort_Permutation.
Qed.


Lemma structpbAttrMessageBuilder_map (desc : FieldDescriptor) (wantTy : CtyType)
    (builder : attrMessageBuilder) :
  Field_IsMap desc = true →
  structpbAttrMessageBuilder desc wantTy = inl builder →
  isDynamicPseudoType wantTy || IsObjectType wantTy || IsMapType wantTy = true
  ∧ builder = structpbMapBuilder wantTy.
Proof.
  intros Hmap. unfold structpbAttrMessageBuilder, Field_IsList. rewrite Hmap.
  rewrite andb_false_r.
  destruct (isDynamicPseudoType wantTy || IsObjectType wantTy || IsMapType wantTy);
    simpl; [|discriminate].
  intros [= <-]. done.
Qed.

Lemma structpbMapBuilder_mapping (wantTy : CtyType) (v : Value) (path : Path)
    (it : list (Value * Value)) :
  IsNull v = false → IsKnown v = true →
  IsObjectType (Value_Type v) || IsMapType (Value_Type v) = true →
  Value_ElementIterator v = Ok it →
  structpbMapBuilder wantTy v path = structpbMapElems wantTy path it [].
Proof.
  intros Hnull Hknown Hty Hit. unfold structpbMapBuilder.
  rewrite Hnull, Hknown, Hty, Hit. reflexivity.
Qed.

(** X29. When the builder of a map field succeeds on a value, the
    result has one entry for each key of the value and no other, and
    the entry of a key is the conversion of its element: to the element
    type of a map type constraint, to the type of the attribute of that
    name of an object type constraint. *)
Theorem structpbAttrMessageBuilder_map_entries (desc : FieldDescriptor) (wantTy : CtyType)
    (builder : attrMessageBuilder) (v : Value) (path : Path) (pv : ProtoValue) :
  Field_IsMap desc = true →
  structpbAttrMessageBuilder desc wantTy = inl builder →
  builder v path = Ok (inl pv) →
  ∃ vals entries,
    Value_AsValueMap v = Ok vals
    ∧ pv = PVMap entries
    ∧ length entries = size vals
    ∧ ∀ k elemV, vals !! k = Some elemV →
        ∃ ety msg,
          mappingElementConstraint wantTy k = Some ety
          ∧ ctystructpb_ToStructValue elemV ety = inl msg
          ∧ (MapKeyString k, PVMessage msg) ∈ entries.
Proof.
  intros Hmap Hmade Hrun.
  destruct (structpbAttrMessageBuilder_map _ _ _ Hmap Hmade) as [Hwant ->].
  destruct (IsNull v) eqn:Hnull.
  { unfold structpbMapBuilder in Hrun. rewrite Hnull in Hrun. discriminate. }
  destruct (IsKnown v) eqn:Hknown.
  2: { unfold structpbMapBuilder in Hrun. rewrite Hnull, Hknown in Hrun. discriminate. }
  destruct (IsObjectType (Value_Type v) || IsMapType (Value_Type v)) eqn:Hty.
  2: { unfold structpbMapBuilder in Hrun. rewrite Hnull, Hknown, Hty in Hrun. discriminate. }
  destruct (Value_ElementIterator_mapping_steps v Hnull Hknown Hty)
    as (vals & kvs & Hvals & Hit & Hperm).
  rewrite (structpbMapBuilder_mapping _ _ _ _ Hnull Hknown Hty Hit) in Hrun.
  destruct (structpbMapElems_converted wantTy path Hwant kvs [] pv) as (kms & -> & Hall).
  { rewrite Hperm. apply NoDup_fst_map_to_list. }
  { intros k _. simpl. apply not_elem_of_nil. }
  { done. }
  exists vals, ((λ km, (MapKeyString km.1, PVMessage km.2)) <$> kms).
  split; [done|]. split; [done|]. split.
  - rewrite length_fmap, <-(Forall2_length _ _ _ Hall), Hperm.
    apply length_map_to_list.
  - intros k elemV Hk.
    assert ((k, elemV) ∈ kvs) as Hin by (rewrite Hperm; by apply elem_of_map_to_list).
    apply list_elem_of_lookup in Hin as [i Hi].
    destruct (Forall2_lookup_l _ _ _ _ _ Hall Hi) as ([k' msg] & Hkm & Hname & ety & Hety & Hconv).
    simpl in Hname, Hety, Hconv. subst k'.
    exists ety, msg. split; [done|]. split; [done|].
    apply list_elem_of_fmap. exists (k, msg). split; [done|].
    by eapply list_elem_of_lookup_2.
Qed.


End MessageAttrMaps.

Lemma structpbAttrMessageBuilder_map_entries_witness :
  ∃ vals entries,
    Value_AsValueMap (ObjectValOf [("b", StringVal "y"); ("a", BoolVal true)]) = Ok vals
    ∧ PVMap [(MapKeyString "a", PVMessage (<[4%Z := PVBool true]> ∅));
             (MapKeyString "b", PVMessage (<[3%Z := PVString "y"]> ∅))]
      = PVMap entries
    ∧ length entries = size vals
    ∧ ∀ k elemV, vals !! k = Some elemV →
        ∃ ety msg,
          mappingElementConstraint
            (cty_ObjectOf [("a", cty_Bool); ("b", cty_String); ("c", cty_String)]) k = Some ety
          ∧ basicToStructValue elemV ety = inl msg
          ∧ (MapKeyString k, PVMessage msg) ∈ entries.
Proof.
  apply (structpbAttrMessageBuilder_map_entries (H0 := basicStructPb)
           labelsField (cty_ObjectOf [("a", cty_Bool); ("b", cty_String); ("c", cty_String)])
           (structpbMapBuilder
              (cty_ObjectOf [("a", cty_Bool); ("b", cty_String); ("c", cty_String)]))
           (ObjectValOf [("b", StringVal "y"); ("a", BoolVal true)]) []).
  - reflexivity.
  - reflexivity.
  - vm_compute. reflexivity.
Defined.

